(** * Wikipedia top-articles pipeline: a shallow embedding of
      [refactoring_code.py], of the script it refactors, [sample_code.py],
      and the properties of their stages.

    The script fetches the daily "top viewed articles" of a date range,
    reindexes the observations to a dense article x date grid with forward
    fill, keeps the twenty articles with the largest latest value and
    computes three summary statistics.

    Conventions of the embedding:
    - a [datetime] is its proleptic Gregorian ordinal together with the
      microseconds elapsed in that day; adding [dt.timedelta(days=1)] adds
      one to the ordinal and is refused after 9999-12-31, the last day a
      [datetime] can hold;
    - the network, the wall clock and the logger are effects: every
      [requests.get], [time.sleep] and log line is recorded, in order, in an
      event trace threaded through a state-and-exception monad; the answer of
      the network to the attempt number [retr] for a URL is read from an
      oracle ([net]), which is general for one run because every day of the
      range is fetched once;
    - the file system is an effect too: whether [plt.savefig] can write
      the image is read from an oracle ([savefig]);
    - a pandas [DataFrame] is the list of its rows; a missing cell ([NaN]) is
      [None]. Missing values propagate as in the code; the arithmetic on
      the values that are present is exact (integers and rationals), where
      the code adds in [int64] or binary64 and divides in binary64: the
      numeric statements are made where both agree ([representable],
      [exact_means]). *)

From Stdlib Require Import ZArith QArith Qround Lia DecimalString.
From stdpp Require Import base list strings gmap sorting.

#[local] Open Scope string_scope.
#[local] Open Scope list_scope.
#[local] Open Scope Z_scope.

(* ===================================================================== *)
(** ** Python values used by the script                                   *)
(* ===================================================================== *)

(** [str(n)] for a Python [int]. *)
Definition str (z : Z) : string := NilZero.string_of_int (Z.to_int z).

(** [sep.join(parts)]. *)
Fixpoint join (sep : string) (parts : list string) : string :=
  match parts with
  | [] => ""
  | [p] => p
  | p :: ps => p +:+ sep +:+ join sep ps
  end.

Module Calendar.

(** The [datetime] module's ordinal arithmetic ([_ord2ymd], [_ymd2ord]). *)

Definition DI400Y : Z := 146097.
Definition DI100Y : Z := 36524.
Definition DI4Y : Z := 1461.

Definition is_leap (year : Z) : bool :=
  (year mod 4 =? 0) && (negb (year mod 100 =? 0) || (year mod 400 =? 0)).

Definition DAYS_IN_MONTH (month : Z) : Z :=
  match month with
  | 1 => 31 | 2 => 28 | 3 => 31 | 4 => 30 | 5 => 31 | 6 => 30
  | 7 => 31 | 8 => 31 | 9 => 30 | 10 => 31 | 11 => 30 | 12 => 31
  | _ => -1
  end.

Definition DAYS_BEFORE_MONTH (month : Z) : Z :=
  match month with
  | 1 => 0 | 2 => 31 | 3 => 59 | 4 => 90 | 5 => 120 | 6 => 151
  | 7 => 181 | 8 => 212 | 9 => 243 | 10 => 273 | 11 => 304 | 12 => 334
  | _ => -1
  end.

Definition b2z (b : bool) : Z := if b then 1 else 0.

Definition days_in_month (year month : Z) : Z :=
  if (month =? 2) && is_leap year then 29 else DAYS_IN_MONTH month.

Definition days_before_year (year : Z) : Z :=
  let y := year - 1 in y * 365 + y / 4 - y / 100 + y / 400.

Definition days_before_month (year month : Z) : Z :=
  DAYS_BEFORE_MONTH month + b2z ((2 <? month) && is_leap year).

Definition ymd2ord (year month day : Z) : Z :=
  days_before_year year + days_before_month year month + day.

Definition ord2ymd (ordinal : Z) : Z * Z * Z :=
  let n := ordinal - 1 in
  let n400 := n / DI400Y in
  let n := n mod DI400Y in
  let year := n400 * 400 + 1 in
  let n100 := n / DI100Y in
  let n := n mod DI100Y in
  let n4 := n / DI4Y in
  let n := n mod DI4Y in
  let n1 := n / 365 in
  let n := n mod 365 in
  let year := year + n100 * 100 + n4 * 4 + n1 in
  if (n1 =? 4) || (n100 =? 4) then (year - 1, 12, 31)
  else
    let leapyear := (n1 =? 3) && (negb (n4 =? 24) || (n100 =? 3)) in
    let month := Z.shiftr (n + 50) 5 in
    let preceding := DAYS_BEFORE_MONTH month + b2z ((2 <? month) && leapyear) in
    if n <? preceding then
      let month := month - 1 in
      let preceding :=
        preceding - (DAYS_IN_MONTH month + b2z ((month =? 2) && leapyear)) in
      (year, month, n - preceding + 1)
    else (year, month, n - preceding + 1).

(** A [datetime]: the day and the microseconds into it. *)
Record datetime := mk_datetime { ordinal : Z; micro : Z }.

Definition year (t : datetime) : Z := (ord2ymd (ordinal t)).1.1.
Definition month (t : datetime) : Z := (ord2ymd (ordinal t)).1.2.
Definition day (t : datetime) : Z := (ord2ymd (ordinal t)).2.

(** [a > b] and [a <= b] on datetimes. *)
Definition gtb (a b : datetime) : bool :=
  (ordinal b <? ordinal a) || ((ordinal a =? ordinal b) && (micro b <? micro a)).
Definition leb (a b : datetime) : bool := negb (gtb a b).

(** [_MAXORDINAL], the ordinal of 9999-12-31, the last day a [datetime]
    can hold. *)
Definition MAXORDINAL : Z := 3652059.

(** The same time on the next day of the calendar: the value of
    [t + dt.timedelta(days=1)] when [datetime] can hold it (the operation
    of the code, which can fail, is [add_delta] below). *)
Definition next_day (t : datetime) : datetime :=
  mk_datetime (ordinal t + 1) (micro t).

(** The value of [dt.datetime.strptime(s, "%Y%m%d")] for a well-formed
    date: midnight of that day. *)
Definition midnight (year month day : Z) : datetime :=
  mk_datetime (ymd2ord year month day) 0.

End Calendar.

Import Calendar.

(* ===================================================================== *)
(** ** Constants of the script                                            *)
(* ===================================================================== *)

Definition API_BASE_URL : string := "https://wikimedia.org/api/rest_v1/metrics".
Definition TOP_ENDPOINT : string := "pageviews/top".
Definition DEFAULT_PROJECT : string := "en.wikipedia".
Definition DEFAULT_ACCESS : string := "all-access".
Definition MAX_RETRIES : nat := 3.
Definition REQ_TIMEOUT : Z := 30.
Definition TOP_ARTICLES : nat := 20.
Definition OUTPUT_FILENAME : string := "img/ref_top_articles.png".

(* ===================================================================== *)
(** ** Data                                                               *)
(* ===================================================================== *)

(** One entry of the ["articles"] list of the API's answer. *)
Record article_entry := mk_entry { e_article : string; e_views : Z; e_rank : Z }.

(** One element of the ["items"] list. *)
Record item := mk_item { articles : list article_entry }.

(** The decoded JSON body; [items = None] is a body without the key
    ["items"]. *)
Record payload := mk_payload { items : option (list item) }.

(** What one [requests.get] does: it raises a [RequestException]
    (connection error, timeout), or it returns a response with a status
    code and a body. *)
Inductive http_outcome :=
| Raised
| Response (status_code : Z) (json : payload).

(** The cell of the [date] column: the string tag written by the collector,
    or a timestamp (the ordinal of its day) once [pd.to_datetime] has run. *)
Inductive date_cell :=
| DateStr (s : string)
| Timestamp (d : Z).

(** A row of the frame: columns [article], [views], [rank], [date]. *)
Record row := mk_row {
  article : string;
  views : option Z;
  rank : option Z;
  date : date_cell
}.

Abbreviation DataFrame := (list row).

#[global] Instance date_cell_eq_dec : EqDecision date_cell.
Proof. solve_decision. Defined.
#[global] Instance row_eq_dec : EqDecision row.
Proof. solve_decision. Defined.

(* ===================================================================== *)
(** ** Effects                                                            *)
(* ===================================================================== *)

Inductive level := INFO | WARNING | ERROR.

(** The exceptions the pipeline can raise. *)
Inductive exn :=
| StartAfterEnd        (* ValueError: start date later than end date *)
| StartInFuture        (* ValueError: start date in the future *)
| NoData               (* ValueError: nothing could be fetched *)
| DateParseError       (* pd.to_datetime rejects a tag *)
| EmptyFrame           (* the frame has no column to work on *)
| DuplicateIndex       (* reindex on an index with duplicate labels *)
| NanToInt             (* int(nan) *)
| DateOverflow         (* OverflowError: date value out of range *)
| SavefigFailed        (* plt.savefig cannot write the image *)
| LoopBudget.          (* the iteration bound of the model, never reached *)

(** The log lines, by their f-string arguments. *)
Inductive log_msg :=
| MsgRequest (year month day : string) (attempt : Z)
| MsgRateLimited (wait_time : Z)
| MsgRequestError (attempt : Z)
| MsgFetchFailed (year month day : string)
| MsgDatesValid
| MsgReceived (n : nat) (year month day : string)
| MsgNoData (year month day : string)
| MsgCollected (n : nat)
| MsgPlotting
| MsgSaved (filename : string)
| MsgFailure (e : exn).

Inductive event :=
| EvGet (url : string)
| EvSleep (seconds : Z)
| EvLog (lvl : level) (msg : log_msg)
| EvSavefig (filename : string).

Abbreviation trace := (list event).

Inductive result (A : Type) :=
| Ok (a : A)
| Raise (e : exn).
Arguments Ok {A} a.
Arguments Raise {A} e.

(** Computations that log, sleep, call the network and may raise. *)
Definition M (A : Type) : Type := trace -> result A * trace.

Definition ret {A} (a : A) : M A := fun tr => (Ok a, tr).
Definition bind {A B} (m : M A) (k : A -> M B) : M B :=
  fun tr => match m tr with
            | (Ok a, tr') => k a tr'
            | (Raise e, tr') => (Raise e, tr')
            end.
Definition raise {A} (e : exn) : M A := fun tr => (Raise e, tr).
Definition emit (e : event) : M unit := fun tr => (Ok tt, tr ++ [e]).
Definition lift {A} (r : result A) : M A := fun tr => (r, tr).

Declare Scope m_scope.
Delimit Scope m_scope with M.
Notation "x <- m ;; k" := (bind m (fun x => k))
  (at level 100, m at next level, right associativity) : m_scope.
Notation "m ;; k" := (bind m (fun _ => k))
  (at level 100, right associativity) : m_scope.
#[local] Open Scope m_scope.

Definition log (lvl : level) (msg : log_msg) : M unit := emit (EvLog lvl msg).
Definition sleep (seconds : Z) : M unit := emit (EvSleep seconds).
Definition when (b : bool) (m : M unit) : M unit := if b then m else ret tt.

(** [t + delta] for [delta = dt.timedelta(days=1)]: [datetime.__add__]
    raises [OverflowError] when the result would lie after 9999-12-31. *)
Definition add_delta (t : datetime) : result datetime :=
  if ordinal t <? MAXORDINAL then Ok (next_day t) else Raise DateOverflow.

(* ===================================================================== *)
(** ** API client and collector                                           *)
(* ===================================================================== *)

Section Pipeline.

(** The network: the outcome of attempt [retr] on a URL. *)
Variable net : string -> nat -> http_outcome.
(** [dt.datetime.now()] when the dates are validated. *)
Variable now : datetime.

Definition requests_get (url : string) (retr : nat) : M http_outcome :=
  emit (EvGet url) ;; ret (net url retr).

(** [response.raise_for_status()] raises on 4xx and 5xx. *)
Definition raises_for_status (status_code : Z) : bool :=
  (400 <=? status_code) && (status_code <? 600).

(** The [except RequestException] handler. *)
Definition on_request_exception (retr : nat) : M unit :=
  log WARNING (MsgRequestError (Z.of_nat retr + 1)) ;;
  when (retr <? MAX_RETRIES - 1)%nat (sleep 1).

(** The body of [for retr in range(MAX_RETRIES)], over the indices that
    remain. *)
Fixpoint attempts (url year month day : string) (retrs : list nat)
  : M (option payload) :=
  match retrs with
  | [] =>
      log ERROR (MsgFetchFailed year month day) ;;
      ret None
  | retr :: rest =>
      log INFO (MsgRequest year month day (Z.of_nat retr + 1)) ;;
      response <- requests_get url retr ;;
      match response with
      | Raised =>
          on_request_exception retr ;;
          attempts url year month day rest
      | Response status_code json =>
          if status_code =? 429 then
            let wait_time := 2 ^ Z.of_nat retr + 1 in
            log WARNING (MsgRateLimited wait_time) ;;
            sleep wait_time ;;
            attempts url year month day rest
          else if raises_for_status status_code then
            on_request_exception retr ;;
            attempts url year month day rest
          else ret (Some json)
      end
  end.

Definition top_url (project access year month day : string) : string :=
  let top_args := join "/" [project; access; year; month; day] in
  join "/" [API_BASE_URL; TOP_ENDPOINT; top_args].

Definition get_top_wiki_articles (project year month day : string)
  (access : string) : M (option payload) :=
  attempts (top_url project access year month day) year month day
    (seq 0 MAX_RETRIES).

Definition validate_dates (start_date end_date : datetime) : M unit :=
  if gtb start_date end_date then raise StartAfterEnd
  else if gtb start_date now then raise StartInFuture
  else log INFO MsgDatesValid.

(** [pd.DataFrame(articles)] with the [date] column set to the tag. *)
Definition tagged (tag : string) (arts : list article_entry) : DataFrame :=
  (fun e => mk_row (e_article e) (Some (e_views e)) (Some (e_rank e))
              (DateStr tag)) <$> arts.

(** [data and "items" in data and len(data["items"]) > 0], with
    [data["items"][0]["articles"]] when it holds. *)
Definition usable (data : option payload) : option (list article_entry) :=
  match data with
  | Some p => match items p with
              | Some (it :: _) => Some (articles it)
              | _ => None
              end
  | None => None
  end.

(** The [while current_date <= end_date] loop; [budget] bounds the number
    of iterations. *)
Fixpoint collect_loop (budget : nat) (current_date end_date : datetime)
  (df : DataFrame) : M DataFrame :=
  if leb current_date end_date then
    match budget with
    | O => raise LoopBudget
    | S budget' =>
        let year := str (year current_date) in
        let month := str (month current_date) in
        let day := str (day current_date) in
        current_date <- lift (add_delta current_date) ;;
        data <- get_top_wiki_articles DEFAULT_PROJECT year month day
                  DEFAULT_ACCESS ;;
        match usable data with
        | Some arts =>
            let articles_data := tagged (year +:+ month +:+ day) arts in
            let df := df ++ articles_data in
            log INFO (MsgReceived (length articles_data) year month day) ;;
            collect_loop budget' current_date end_date df
        | None =>
            log WARNING (MsgNoData year month day) ;;
            collect_loop budget' current_date end_date df
        end
    end
  else ret df.

Definition collect_wiki_data (start_date end_date : datetime) : M DataFrame :=
  df <- collect_loop (Z.to_nat (ordinal end_date - ordinal start_date + 1))
          start_date end_date [] ;;
  match df with
  | [] => raise NoData
  | _ =>
      log INFO (MsgCollected (length df)) ;;
      ret df
  end.

End Pipeline.

(* ===================================================================== *)
(** ** pandas operations used by the normalizer                           *)
(* ===================================================================== *)

Definition rbind {A B} (r : result A) (k : A -> result B) : result B :=
  match r with
  | Ok a => k a
  | Raise e => Raise e
  end.

Fixpoint rmap {A B} (f : A -> result B) (l : list A) : result (list B) :=
  match l with
  | [] => Ok []
  | x :: l' =>
      rbind (f x) (fun y => rbind (rmap f l') (fun ys => Ok (y :: ys)))
  end.

(** [Series.unique()]: the distinct values, in order of first appearance. *)
Fixpoint unique (l : list string) : list string :=
  match l with
  | [] => []
  | x :: l' => x :: filter (fun y => y ≠ x) (unique l')
  end.

(** Stable insertion sort: [x] is placed before the first [y] with
    [before x y]. *)
Fixpoint insert_by {A} (before : A -> A -> bool) (x : A) (l : list A) : list A :=
  match l with
  | [] => [x]
  | y :: l' => if before x y then x :: l else y :: insert_by before x l'
  end.

Definition sort_by {A} (before : A -> A -> bool) (l : list A) : list A :=
  foldr (insert_by before) [] l.

(** [pd.date_range(start=lo, end=hi)], daily. *)
Definition date_range (lo hi : Z) : list Z := seqZ lo (hi - lo + 1).

(** [pd.MultiIndex.from_product([arts, days])]. *)
Definition from_product (arts : list string) (days : list Z) : list (string * Z) :=
  a ← arts; (fun d => (a, d)) <$> days.

(** A frame indexed by [(article, date)], with the columns that remain. *)
Abbreviation IndexedFrame := (list ((string * Z) * (option Z * option Z))).

(** [df.set_index(["article", "date"])] once the dates are timestamps. *)
Definition set_index (df : DataFrame) (dates : list Z) : IndexedFrame :=
  zip_with (fun r d => ((article r, d), (views r, rank r))) df dates.

Definition lookup_label (k : string * Z) (df : IndexedFrame)
  : option (option Z * option Z) :=
  (fun p => p.2.2) <$> list_find (fun e => e.1 = k) df.

(** [df.reindex(idx)]: refused when the index has duplicate labels; a label
    of [idx] absent from the frame gets missing cells. *)
Definition reindex (df : IndexedFrame) (idx : list (string * Z))
  : result IndexedFrame :=
  if decide (NoDup (df.*1)) then
    Ok ((fun k => (k, default (None, None) (lookup_label k df))) <$> idx)
  else Raise DuplicateIndex.

(** [df.reset_index(drop=False)]. *)
Definition reset_index (df : IndexedFrame) : DataFrame :=
  (fun e => mk_row e.1.1 e.2.1 e.2.2 (Timestamp e.1.2)) <$> df.

(** [Series.ffill()]. *)
Fixpoint ffill_from (prev : option Z) (s : list (option Z)) : list (option Z) :=
  match s with
  | [] => []
  | x :: s' =>
      let v := match x with Some _ => x | None => prev end in
      v :: ffill_from v s'
  end.

Definition ffill (s : list (option Z)) : list (option Z) := ffill_from None s.

(** The rows of the group of [a] in [df.groupby("article")]. *)
Definition group (df : DataFrame) (a : string) : DataFrame :=
  filter (fun r => article r = a) df.

Definition set_views (r : row) (v : option Z) : row :=
  mk_row (article r) v (rank r) (date r).

(** [df.groupby("article")["views"].transform(f)]: [f] is applied to the
    views of each group and every row receives the value at its position in
    its group. [seen] are the rows already passed. *)
Fixpoint transform_rows (f : list (option Z) -> list (option Z))
  (whole seen rest : DataFrame) : list (option Z) :=
  match rest with
  | [] => []
  | r :: rest' =>
      let g := views <$> group whole (article r) in
      let j := length (group seen (article r)) in
      default None (f g !! j) :: transform_rows f whole (seen ++ [r]) rest'
  end.

Definition groupby_transform (f : list (option Z) -> list (option Z))
  (df : DataFrame) : list (option Z) :=
  transform_rows f df [] df.

(** The last valid (non-missing) value of a series. *)
Definition last_valid (s : list (option Z)) : option Z :=
  foldl (fun acc x => match x with Some _ => x | None => acc end) None s.

(** The keys of [df.groupby("article")], sorted. *)
Definition group_keys (df : DataFrame) : list string :=
  sort_by String.leb (unique (article <$> df)).

(** [df.groupby("article")["views"].last()]. *)
Definition groupby_last (df : DataFrame) : list (string * option Z) :=
  (fun a => (a, last_valid (views <$> group df a))) <$> group_keys df.

Definition valid_entries (s : list (string * option Z)) : list (string * Z) :=
  omap (fun e => (fun v => (e.1, v)) <$> e.2) s.

Definition nan_entries (s : list (string * option Z)) : list (string * option Z) :=
  filter (fun e => e.2 = None) s.

(** The order in which [Series.nlargest] ranks the entries of a series: the
    valid entries in descending order of value, equal values in the order
    of the series (the sort is stable), then the missing entries. *)
Definition ranking (s : list (string * option Z)) : list (string * option Z) :=
  ((fun e => (e.1, Some e.2)) <$>
     sort_by (fun x y : string * Z => y.2 <=? x.2) (valid_entries s))
  ++ nan_entries s.

(** [Series.nlargest(n)] with [keep="first"]. *)
Definition nlargest (n : nat) (s : list (string * option Z))
  : list (string * option Z) :=
  take n (ranking s).

(** [df[df["article"].isin(index)]]. *)
Definition isin_filter (index : list string) (df : DataFrame) : DataFrame :=
  filter (fun r => article r ∈ index) df.

(* ===================================================================== *)
(** ** Normalizer                                                         *)
(* ===================================================================== *)

Section Normalizer.

(** [pd.to_datetime] on one string tag: the ordinal of the day it denotes,
    or [None] when the tag is rejected. *)
Variable parse_date : string -> option Z.

Definition to_datetime (c : date_cell) : result Z :=
  match c with
  | Timestamp d => Ok d
  | DateStr s =>
      match parse_date s with
      | Some d => Ok d
      | None => Raise DateParseError
      end
  end.

(** Lines 120-131 of [process_wiki_data]: the dense, forward-filled
    frame. *)
Definition normalized (df : DataFrame) : result DataFrame :=
  rbind (rmap to_datetime (date <$> df)) (fun dates =>
  match dates with
  | [] => Raise EmptyFrame
  | d0 :: ds =>
      let idx :=
        from_product (unique (article <$> df))
          (date_range (foldr Z.min d0 ds) (foldr Z.max d0 ds)) in
      let df := set_index df dates in
      rbind (reindex df idx) (fun df =>
      let df := reset_index df in
      Ok (zip_with set_views df (groupby_transform ffill df)))
  end).

(** Lines 132-133 with [n] for [TOP_ARTICLES]. *)
Definition top_articles (n : nat) (df : DataFrame) : list (string * option Z) :=
  let last_values := groupby_last df in
  nlargest n last_values.

Definition process_wiki_data (df : DataFrame) : result DataFrame :=
  rbind (normalized df) (fun df =>
  let top_articles := top_articles TOP_ARTICLES df in
  let df_top_articles := isin_filter (top_articles.*1) df in
  Ok df_top_articles).

End Normalizer.

(* ===================================================================== *)
(** ** Statistics                                                         *)
(* ===================================================================== *)

(** [s + v]: a missing operand gives a missing sum. The sum of two values
    is exact here; the code adds [int64] or binary64 numbers. *)
Definition add_views (s v : option Z) : option Z :=
  match s, v with
  | Some a, Some b => Some (a + b)
  | _, _ => None
  end.

(** [s / c] for a sum and a row count: the exact quotient, which the code
    rounds to binary64. *)
Definition divide (s : option Z) (c : nat) : option Q :=
  (fun z => inject_Z z / inject_Z (Z.of_nat c))%Q <$> s.

Definition Qsum (l : list Q) : Q := foldr Qplus 0%Q l.

(** [np.nanmean]: the mean of the defined values, missing when there is
    none; the exact mean, which the code rounds to binary64. *)
Definition nanmean (l : list (option Q)) : option Q :=
  match omap id l with
  | [] => None
  | xs => Some (Qsum xs / inject_Z (Z.of_nat (length xs)))%Q
  end.

(** [int(x)] on a float: truncation towards zero, refused on [nan]. *)
Definition truncate (q : Q) : Z := Z.quot (Qnum q) (Zpos (Qden q)).

Definition int (x : option Q) : result Z :=
  match x with
  | Some q => Ok (truncate q)
  | None => Raise NanToInt
  end.

(** [Series.max()]: the largest valid value. *)
Definition series_max (s : list (option Z)) : option Z :=
  match omap id s with
  | [] => None
  | v :: vs => Some (foldr Z.max v vs)
  end.

(** One iteration of the loop over the rows of the top table; both
    dictionaries hold every article of the table from the start. *)
Definition count_row (acc : gmap string (option Z) * gmap string nat) (r : row)
  : gmap string (option Z) * gmap string nat :=
  let article := article r in
  let views := views r in
  (alter (fun s => add_views s views) article acc.1, alter S article acc.2).

Definition calculate_statistics (df df_top_articles : DataFrame)
  : result (Z * option Z * nat) :=
  let arts := unique (article <$> df_top_articles) in
  let views_sum : gmap string (option Z) :=
    list_to_map ((fun a => (a, Some 0)) <$> arts) in
  let count : gmap string nat :=
    list_to_map ((fun a => (a, 0%nat)) <$> arts) in
  let '(views_sum, count) := foldl count_row (views_sum, count) df_top_articles in
  let mean_views :=
    (fun a => divide (default None (views_sum !! a)) (default 0%nat (count !! a)))
      <$> arts in
  rbind (int (nanmean mean_views)) (fun mean_views =>
  let max_views := series_max (views <$> df) in
  let unique_articles := length (unique (article <$> df)) in
  Ok (mean_views, max_views, unique_articles)).

(** [plt.savefig(filename)]: the image is written when the file system
    ([savefig], whether the path can be written) allows it, and the call
    raises otherwise (a missing directory, a refused permission). *)
Definition plt_savefig (savefig : string -> bool) (filename : string)
  : M unit :=
  if savefig filename then emit (EvSavefig filename) else raise SavefigFailed.

Definition create_plot (savefig : string -> bool) (df_top_articles : DataFrame)
  (stats : Z * option Z * nat) : M unit :=
  log INFO MsgPlotting ;;
  plt_savefig savefig OUTPUT_FILENAME ;;
  log INFO (MsgSaved OUTPUT_FILENAME).

(* ===================================================================== *)
(** ** The run                                                            *)
(* ===================================================================== *)

Section Main.

Variable net : string -> nat -> http_outcome.
Variable now : datetime.
Variable parse_date : string -> option Z.
(** The file system when the image is saved. *)
Variable savefig : string -> bool.

(** The body of the [try] of [main], from the parsed dates on. The copy
    [df_original] is the frame as collected: the in-place updates made by
    [process_wiki_data] act on [df] only. *)
Definition run (start_date end_date : datetime)
  : M (DataFrame * (Z * option Z * nat)) :=
  validate_dates now start_date end_date ;;
  df <- collect_wiki_data net start_date end_date ;;
  let df_original := df in
  df_top_articles <- lift (process_wiki_data parse_date df) ;;
  stats <- lift (calculate_statistics df_original df_top_articles) ;;
  create_plot savefig df_top_articles stats ;;
  ret (df_top_articles, stats).

(** [main]: the exit status and the trace of the run. *)
Definition main (start_date end_date : datetime) : Z * trace :=
  match run start_date end_date [] with
  | (Ok _, tr) => (0, tr)
  | (Raise e, tr) => (1, tr ++ [EvLog ERROR (MsgFailure e)])
  end.

End Main.

(* ===================================================================== *)
(** ** Notions used to state the properties                               *)
(* ===================================================================== *)

(** How the client treats the outcome of one attempt. *)
Inductive verdict :=
| Success (json : payload)
| RateLimited
| Failed.

Definition classify (o : http_outcome) : verdict :=
  match o with
  | Raised => Failed
  | Response status_code json =>
      if status_code =? 429 then RateLimited
      else if raises_for_status status_code then Failed
      else Success json
  end.

Definition is_success (o : http_outcome) : bool :=
  match classify o with Success _ => true | _ => false end.

Definition is_get (e : event) : bool :=
  match e with EvGet _ => true | _ => false end.

(** The number of requests sent in a trace. *)
Definition gets (w : trace) : nat := length (List.filter is_get w).

(** [p] occurs in [l] as a run of consecutive events. *)
Definition segment (p l : trace) : Prop := exists pre post, l = pre ++ p ++ post.

(** The attempt [i] of a fetch is made: it is within the bound and no
    earlier attempt succeeded. *)
Definition attempt_made (net : string -> nat -> http_outcome) (url : string)
  (i : nat) : Prop :=
  (i < MAX_RETRIES)%nat /\
  forall j, (j < i)%nat -> is_success (net url j) = false.

(** The days of the range: [start_date] plus whole days, up to
    [end_date]. *)
Definition in_range (start_date end_date t : datetime) : Prop :=
  (exists k : nat, t = Nat.iter k next_day start_date) /\ leb t end_date = true.

Fixpoint days_from (n : nat) (t : datetime) : list datetime :=
  match n with
  | O => []
  | S n' => t :: days_from n' (next_day t)
  end.

Definition range_days (start_date end_date : datetime) : list datetime :=
  filter (fun t => leb t end_date = true)
    (days_from (Z.to_nat (ordinal end_date - ordinal start_date + 1)) start_date).

(** The days the loop of the collector fetches: the days of the range
    before 9999-12-31. On that day the step to the next day overflows
    before the fetch. *)
Definition fetched_days (start_date end_date : datetime) : list datetime :=
  filter (fun t => ordinal t < MAXORDINAL) (range_days start_date end_date).

(** The range reaches 9999-12-31. *)
Definition overflows (start_date end_date : datetime) : bool :=
  existsb (fun t => MAXORDINAL <=? ordinal t) (range_days start_date end_date).

(** The tag the collector writes in the [date] column for the day [t]. *)
Definition date_tag (t : datetime) : string :=
  str (year t) +:+ str (month t) +:+ str (day t).

(** The URL requested for the day [t]. *)
Definition day_url (t : datetime) : string :=
  top_url DEFAULT_PROJECT DEFAULT_ACCESS (str (year t)) (str (month t))
    (str (day t)).

(** What the client returns for the day [t], and the rows the collector
    adds for it. *)
Definition fetched (net : string -> nat -> http_outcome) (t : datetime)
  : option payload :=
  match get_top_wiki_articles net DEFAULT_PROJECT (str (year t))
          (str (month t)) (str (day t)) DEFAULT_ACCESS [] with
  | (Ok data, _) => data
  | (Raise _, _) => None
  end.

Definition day_rows (net : string -> nat -> http_outcome) (t : datetime)
  : DataFrame :=
  match usable (fetched net t) with
  | Some arts => tagged (date_tag t) arts
  | None => []
  end.

(** The views and rank cells of the label [k] after [reindex]. *)
Definition cell (df : IndexedFrame) (k : string * Z) : option Z * option Z :=
  default (None, None) (lookup_label k df).

(** The rows of the article [a] in the dense frame, before the fill and
    after it. *)
Definition block (df : IndexedFrame) (days : list Z) (a : string) : DataFrame :=
  (fun d => mk_row a (cell df (a, d)).1 (cell df (a, d)).2 (Timestamp d)) <$> days.

Definition filled (blk : DataFrame) : DataFrame :=
  zip_with set_views blk (ffill (views <$> blk)).

(** The frame [df] has a row for the article [a] on the day [d], with the
    views [v]. *)
Definition observation (parse_date : string -> option Z) (df : DataFrame)
  (a : string) (d : Z) (v : option Z) : Prop :=
  exists q, q ∈ df /\ article q = a
            /\ to_datetime parse_date (date q) = Ok d /\ views q = v.

(** [v] is the nearest prior valid value of the article [a] on the day [t]:
    the views of its latest valid observation up to [t], or missing when it
    has none. *)
Definition nearest_prior (parse_date : string -> option Z) (df : DataFrame)
  (a : string) (t : Z) (v : option Z) : Prop :=
  match v with
  | Some x =>
      exists t', t' <= t /\ observation parse_date df a t' (Some x)
        /\ forall t'' w, t' < t'' <= t ->
             observation parse_date df a t'' w -> w = None
  | None =>
      forall t' w, t' <= t -> observation parse_date df a t' w -> w = None
  end.

(** The order in which [nlargest] ranks values: a missing value is below
    every value. *)
Definition below (w v : option Z) : Prop :=
  match w, v with
  | None, _ => True
  | Some _, None => False
  | Some a, Some b => a <= b
  end.

Definition ranked_before (e1 e2 : string * option Z) : Prop :=
  below e2.2 e1.2.

(** [hi] is the latest date of the frame. *)
Definition latest (df : DataFrame) (hi : Z) : Prop :=
  (exists r, r ∈ df /\ date r = Timestamp hi)
  /\ forall r t, r ∈ df -> date r = Timestamp t -> t <= hi.

(** A frame is dense, in the order of the grid: its labels are the product
    of its articles by the days from [lo] to [hi], and its dates are
    timestamps. *)
Definition dense_grid (df : DataFrame) : Prop :=
  exists arts lo hi,
    arts <> [] /\ NoDup arts /\ lo <= hi
    /\ (fun r => (article r, date r)) <$> df
       = (fun k => (k.1, Timestamp k.2)) <$> from_product arts (date_range lo hi).

(** A frame is forward-filled: among the rows of an article, a valid value
    is never followed by a missing one. *)
Definition forward_filled (df : DataFrame) : Prop :=
  forall a i j x, (i < j)%nat ->
    (views <$> group df a) !! i = Some (Some x) ->
    (views <$> group df a) !! j = Some None -> False.

(** The sum of the views of a series as the loop accumulates it, and the
    mean of an article over all its rows. *)
Definition total (s : list (option Z)) : option Z := foldl add_views (Some 0) s.

Definition article_mean (df : DataFrame) (a : string) : option Q :=
  divide (total (views <$> group df a)) (length (group df a)).

(** The statistics as the specification words them: the mean of an article
    is the sum of its recorded views divided by the number of rows that
    contribute to the sum; the overall mean is the mean of these means,
    truncated. *)
Definition recorded (df : DataFrame) (a : string) : list Z :=
  omap views (group df a).

Definition spec_article_mean (df : DataFrame) (a : string) : Q :=
  (inject_Z (foldr Z.add 0%Z (recorded df a))
   / inject_Z (Z.of_nat (length (recorded df a))))%Q.

Definition spec_overall_mean (df : DataFrame) : Z :=
  let arts := unique (article <$> df) in
  truncate (Qsum (spec_article_mean df <$> arts)
            / inject_Z (Z.of_nat (length arts)))%Q.

(** The rows of the articles that have no missing value. *)
Definition fully_recorded (df : DataFrame) (a : string) : Prop :=
  Forall (fun r => is_Some (views r)) (group df a).

#[global] Instance fully_recorded_dec df a : Decision (fully_recorded df a).
Proof. unfold fully_recorded. apply _. Defined.

Definition complete_rows (df : DataFrame) : DataFrame :=
  filter (fun r => fully_recorded df (article r)) df.

(** The arithmetic of the statistics is exact on the table. The code adds
    the views in [int64] or in binary64 and divides in binary64, where the
    model computes with integers and rationals; the two agree when the
    views are not negative, the sums stay below [2^53], the views of every
    article add up to a multiple of the number of its rows, and the means
    add up to a multiple of the number of articles: every operation is then
    exact in binary64. *)
Definition article_sum (df : DataFrame) (a : string) : Z :=
  foldr Z.add 0 (recorded df a).

Definition exact_means (df : DataFrame) : Prop :=
  let arts := unique (article <$> df) in
  let means :=
    (fun a => article_sum df a / Z.of_nat (length (recorded df a))) <$> arts in
  Forall (fun r => 0 <= default 0 (views r)) df
  /\ Forall (fun a => article_sum df a < 2 ^ 53
                      /\ article_sum df a mod Z.of_nat (length (recorded df a))
                         = 0) arts
  /\ foldr Z.add 0 means < 2 ^ 53
  /\ foldr Z.add 0 means mod Z.of_nat (length arts) = 0.

#[global] Instance exact_means_dec df : Decision (exact_means df).
Proof. unfold exact_means. apply _. Defined.

(** The views of the table are integers that its [float64] column holds
    exactly (the column is [float64] as soon as a value is missing). *)
Definition representable (df : DataFrame) : Prop :=
  Forall (fun r => Z.abs (default 0 (views r)) <= 2 ^ 53) df.

#[global] Instance representable_dec df : Decision (representable df).
Proof. unfold representable. apply _. Defined.

(** An instance of the date parser for the examples: an eight-digit tag
    [YYYYMMDD] of a calendar day is read as that day, every other tag is
    rejected. *)
Definition digit (c : Ascii.ascii) : option Z :=
  let n := Z.of_nat (Ascii.nat_of_ascii c) - 48 in
  if (0 <=? n) && (n <=? 9) then Some n else None.

Fixpoint digits (acc : Z) (s : string) : option Z :=
  match s with
  | EmptyString => Some acc
  | String c s' =>
      match digit c with
      | Some d => digits (10 * acc + d) s'
      | None => None
      end
  end.

Definition parse_iso_basic (s : string) : option Z :=
  if (String.length s =? 8)%nat then
    match digits 0 (String.substring 0 4 s), digits 0 (String.substring 4 2 s),
          digits 0 (String.substring 6 2 s) with
    | Some y, Some m, Some d =>
        if (1 <=? m) && (m <=? 12) && (1 <=? d) && (d <=? days_in_month y m)
        then Some (ymd2ord y m d) else None
    | _, _, _ => None
    end
  else None.

(* ===================================================================== *)
(** ** The original script, [sample_code.py]                              *)
(* ===================================================================== *)

Module Original.

(** What stops the script: it handles no exception. *)
Inductive crash :=
| RequestError           (* requests.get raises *)
| NoneNotSubscriptable   (* TypeError: the answer is None *)
| NoItemsKey             (* KeyError: no "items" in the answer *)
| NoFirstItem            (* IndexError: "items" is empty *)
| Pandas (e : exn)       (* an error of the frame operations *)
| DateOverflow           (* OverflowError: date value out of range *)
| SavefigFailed          (* plt.savefig cannot write the image *)
| LoopBudget.            (* the iteration bound of the model *)

Inductive outcome (A : Type) :=
| Done (a : A)
| Crash (c : crash).
Arguments Done {A} a.
Arguments Crash {A} c.

Definition Run (A : Type) : Type := trace -> outcome A * trace.

Definition sret {A} (a : A) : Run A := fun tr => (Done a, tr).
Definition sbind {A B} (m : Run A) (k : A -> Run B) : Run B :=
  fun tr => match m tr with
            | (Done a, tr') => k a tr'
            | (Crash c, tr') => (Crash c, tr')
            end.
Definition stop {A} (c : crash) : Run A := fun tr => (Crash c, tr).
Definition semit (e : event) : Run unit := fun tr => (Done tt, tr ++ [e]).

(** A frame operation inside the script. *)
Definition pandas {A} (r : result A) : Run A :=
  match r with
  | Ok a => sret a
  | Raise e => stop (Pandas e)
  end.

Definition OUTPUT_FILENAME : string := "img/top_articles.png".

Section Script.

Variable net : string -> nat -> http_outcome.
Variable parse_date : string -> option Z.
(** The file system when the image is saved. *)
Variable savefig : string -> bool.

(** [__api__]: one request; the body when the status is 200, [None]
    otherwise. *)
Definition api (end_point args : string) : Run (option payload) :=
  let url := join "/" [API_BASE_URL; end_point; args] in
  sbind (semit (EvGet url)) (fun _ =>
  match net url 0%nat with
  | Raised => stop RequestError
  | Response status_code json =>
      if status_code =? 200 then sret (Some json) else sret None
  end).

Definition get_top_wiki_articles (project year month day : string)
  (access : string) : Run (option payload) :=
  let args := join "/" [project; access; year; month; day] in
  api TOP_ENDPOINT args.

(** [data["items"][0]["articles"]]. *)
Definition first_articles (data : option payload) : Run (list article_entry) :=
  match data with
  | None => stop NoneNotSubscriptable
  | Some p =>
      match items p with
      | None => stop NoItemsKey
      | Some [] => stop NoFirstItem
      | Some (it :: _) => sret (articles it)
      end
  end.

(** The [while start_date <= end_date] loop. *)
Fixpoint collect_loop (budget : nat) (start_date end_date : datetime)
  (df : DataFrame) : Run DataFrame :=
  if leb start_date end_date then
    match budget with
    | O => stop LoopBudget
    | S budget' =>
        let year := str (year start_date) in
        let month := str (month start_date) in
        let day := str (day start_date) in
        match add_delta start_date with
        | Raise _ => stop DateOverflow
        | Ok start_date =>
            sbind
              (get_top_wiki_articles "en.wikipedia" year month day "all-access")
              (fun data =>
            sbind (first_articles data) (fun arts =>
            let data := tagged (year +:+ month +:+ day) arts in
            let df := df ++ data in
            collect_loop budget' start_date end_date df))
        end
    end
  else sret df.

(** The script from the parsed dates on: the table of the selected
    articles and the three statistics of the title. *)
Definition script (start_date end_date : datetime)
  : Run (DataFrame * (Z * option Z * nat)) :=
  sbind (collect_loop (Z.to_nat (ordinal end_date - ordinal start_date + 1))
           start_date end_date []) (fun df =>
  sbind (pandas (normalized parse_date df)) (fun df =>
  let top_articles := top_articles 20 df in
  let df_top_articles := isin_filter (top_articles.*1) df in
  sbind (pandas (calculate_statistics df df_top_articles)) (fun stats =>
  sbind (if savefig OUTPUT_FILENAME then semit (EvSavefig OUTPUT_FILENAME)
         else stop SavefigFailed) (fun _ =>
  sret (df_top_articles, stats))))).

End Script.

(** What one turn of the loop of the script adds for the day [t], or the
    error that stops it there. *)
Definition day_rows (net : string -> nat -> http_outcome) (t : datetime)
  : outcome DataFrame :=
  match net (day_url t) 0%nat with
  | Raised => Crash RequestError
  | Response status_code json =>
      if status_code =? 200 then
        match items json with
        | None => Crash NoItemsKey
        | Some [] => Crash NoFirstItem
        | Some (it :: _) => Done (tagged (date_tag t) (articles it))
        end
      else Crash NoneNotSubscriptable
  end.

(** The day is answered at once with the status 200 and a body that has a
    first item. *)
Definition answered (net : string -> nat -> http_outcome) (t : datetime)
  : Prop :=
  exists json it its,
    net (day_url t) 0%nat = Response 200 json /\ items json = Some (it :: its).

End Original.

(* ===================================================================== *)
(** ** Measures on traces                                                 *)
(* ===================================================================== *)

(** The seconds slept in a trace. *)
Definition slept (w : trace) : Z :=
  foldr (fun e acc => match e with EvSleep s => s + acc | _ => acc end) 0 w.

Definition is_savefig (e : event) : bool :=
  match e with EvSavefig _ => true | _ => false end.

(** The number of images written in a trace. *)
Definition saves (w : trace) : nat := length (List.filter is_savefig w).

Definition is_error_log (e : event) : bool :=
  match e with EvLog ERROR _ => true | _ => false end.

(** The number of lines logged at the level ERROR. *)
Definition errors (w : trace) : nat := length (List.filter is_error_log w).

(** The events of the fetch of the day [t], and of the whole turn of the
    collector's loop for that day. *)
Definition fetch_trace (net : string -> nat -> http_outcome) (t : datetime)
  : trace :=
  (get_top_wiki_articles net DEFAULT_PROJECT (str (year t)) (str (month t))
     (str (day t)) DEFAULT_ACCESS []).2.

Definition day_trace (net : string -> nat -> http_outcome) (t : datetime)
  : trace :=
  fetch_trace net t ++
  [match usable (fetched net t) with
   | Some arts =>
       EvLog INFO (MsgReceived (length (tagged (date_tag t) arts))
                     (str (year t)) (str (month t)) (str (day t)))
   | None =>
       EvLog WARNING (MsgNoData (str (year t)) (str (month t)) (str (day t)))
   end].

(** The number of the first successful attempt of a fetch, if any. *)
Definition first_success (net : string -> nat -> http_outcome) (url : string)
  : option nat :=
  List.find (fun i => is_success (net url i)) (seq 0 MAX_RETRIES).

(** The number of requests of a fetch: up to its first success. *)
Definition requests_made (net : string -> nat -> http_outcome) (url : string)
  : nat :=
  match first_success net url with
  | Some i => S i
  | None => MAX_RETRIES
  end.

(** The seconds slept after the attempt [i] of a fetch. *)
Definition pause (net : string -> nat -> http_outcome) (url : string)
  (i : nat) : Z :=
  match classify (net url i) with
  | Success _ => 0
  | RateLimited => 2 ^ Z.of_nat i + 1
  | Failed => if (i <? MAX_RETRIES - 1)%nat then 1 else 0
  end.

(** The rows of a day as the specification words them, read off the
    answers of the network: the client settles on the body of its first
    successful attempt, the day lists the articles of the first item of
    that body, and each article gives one row dated with the tag of the
    day. *)
Definition settled (net : string -> nat -> http_outcome) (url : string)
  : option payload :=
  match first_success net url with
  | Some i => match classify (net url i) with
              | Success json => Some json
              | _ => None
              end
  | None => None
  end.

Definition listed (net : string -> nat -> http_outcome) (t : datetime)
  : list article_entry :=
  match settled net (day_url t) with
  | Some json => match items json with
                 | Some (it :: _) => articles it
                 | _ => []
                 end
  | None => []
  end.

Definition dated (t : datetime) (e : article_entry) : row :=
  mk_row (e_article e) (Some (e_views e)) (Some (e_rank e))
    (DateStr (date_tag t)).

Definition spec_rows (net : string -> nat -> http_outcome)
  (start_date end_date : datetime) : DataFrame :=
  range_days start_date end_date ≫= (fun t => dated t <$> listed net t).

(* ===================================================================== *)
(** ** Conditions on the frame given to the normalizer                    *)
(* ===================================================================== *)

(** Every date of the frame is accepted by [pd.to_datetime]. *)
Definition parsable (parse_date : string -> option Z) (df : DataFrame) : Prop :=
  forall q, q ∈ df -> exists d, to_datetime parse_date (date q) = Ok d.

(** No two rows of the frame have the same article and day. *)
Definition distinct_labels (parse_date : string -> option Z) (df : DataFrame)
  : Prop :=
  forall i j q1 q2 d,
    df !! i = Some q1 -> df !! j = Some q2 -> article q1 = article q2 ->
    to_datetime parse_date (date q1) = Ok d ->
    to_datetime parse_date (date q2) = Ok d -> i = j.

(** [lo] is the earliest and [hi] the latest day of the rows of the
    frame. *)
Definition day_span (parse_date : string -> option Z) (df : DataFrame)
  (lo hi : Z) : Prop :=
  (exists q, q ∈ df /\ to_datetime parse_date (date q) = Ok lo)
  /\ (exists q, q ∈ df /\ to_datetime parse_date (date q) = Ok hi)
  /\ forall q d, q ∈ df -> to_datetime parse_date (date q) = Ok d ->
       lo <= d <= hi.

(** ** Sample data *)

Module Samples.

(** 2024-10-10 and the two days after it. *)
Definition day1 : Z := ymd2ord 2024 10 10.
Definition day2 : Z := day1 + 1.

(** An observed row, and a row added by the reindexing. *)
Definition seen (a : string) (v : Z) (d : Z) : row :=
  mk_row a (Some v) (Some 1) (Timestamp d).


(** Two articles over two days, the second article seen on the first day
    only; and the same with the second article seen on the second day
    only. *)
Definition two_days : DataFrame :=
  [seen "A" 100 day1; seen "B" 50 day1; seen "A" 120 day2].
Definition late_start : DataFrame :=
  [seen "A" 100 day1; seen "A" 120 day2; seen "B" 50 day2].

(** Twenty-one articles seen on one day, with views 100, 101, ... *)
Definition crowd : DataFrame :=
  (fun i => seen ("article" +:+ str i) (100 + i) day1) <$> seqZ 0 21.

(** A network that answers for two days, 2024-10-10 and 2024-10-11, with
    twenty articles of steady views and one article, "spike", with a
    million views on the first day and a single view on the second; every
    other request fails. *)
Definition steady : list article_entry :=
  (fun i => mk_entry ("article" +:+ str i) (100 + i) (i + 2)) <$> seqZ 0 20.

Definition answer (spike_views : Z) : http_outcome :=
  Response 200
    (mk_payload (Some [mk_item (mk_entry "spike" spike_views 1 :: steady)])).

Definition start_date : datetime := midnight 2024 10 10.
Definition end_date : datetime := midnight 2024 10 11.
Definition now : datetime := mk_datetime (ymd2ord 2024 11 4) 43200000000.

Definition net (url : string) (retr : nat) : http_outcome :=
  if decide (url = day_url start_date) then answer 1000000
  else if decide (url = day_url end_date) then answer 1
  else Raised.

Definition outlier_run : result (DataFrame * (Z * option Z * nat)) * trace :=
  Eval vm_compute in
    run net now parse_iso_basic (fun _ => true) start_date end_date [].

(** A network that answers for 2024-01-11 only. *)
Definition winter (url : string) (retr : nat) : http_outcome :=
  if decide (url = day_url (midnight 2024 1 11)) then answer 7 else Raised.

(** A network that fails on the first of three days and answers on the
    second. *)
Definition patchy (url : string) (retr : nat) : http_outcome :=
  if decide (url = day_url end_date) then answer 7 else Raised.

End Samples.

Ltac find_segment_at k :=
  lazymatch goal with
  | |- segment _ ?w => exists (take k w); eexists; cbn; reflexivity
  end.

Ltac find_segment :=
  first [ find_segment_at 0%nat | find_segment_at 1%nat | find_segment_at 2%nat
        | find_segment_at 3%nat | find_segment_at 4%nat | find_segment_at 5%nat
        | find_segment_at 6%nat | find_segment_at 7%nat | find_segment_at 8%nat
        | find_segment_at 9%nat | find_segment_at 10%nat ].

Ltac munfold :=
  cbv [bind ret raise emit lift log sleep when requests_get
       on_request_exception] in *.

(* ===================================================================== *)
(** * Properties                                                          *)
(* ===================================================================== *)

Example ord_2024_01_01 : ord2ymd 738886 = (2024, 1, 1).
Proof. reflexivity. Qed.

Example ord_roundtrip_2024_11_01 : ord2ymd (ymd2ord 2024 11 1) = (2024, 11, 1).
Proof. reflexivity. Qed.

(** ** The client *)

Section ClientFacts.

Variable net : string -> nat -> http_outcome.

(** The client only appends to the trace, and what it returns does not
    depend on the trace it starts from. *)
Lemma attempts_frame url y m d retrs tr0 :
  attempts net url y m d retrs tr0
  = ((attempts net url y m d retrs []).1,
     tr0 ++ (attempts net url y m d retrs []).2).
Proof.
  revert tr0. induction retrs as [|retr rest IH]; intros tr0.
  - reflexivity.
  - cbn [attempts]. munfold.
    destruct (net url retr) as [|status_code json].
    + destruct (retr <? MAX_RETRIES - 1)%nat;
        rewrite !(IH (_ ++ _)); cbn [fst snd];
        f_equal; rewrite <- !app_assoc; reflexivity.
    + destruct (status_code =? 429);
        [|destruct (raises_for_status status_code);
          [destruct (retr <? MAX_RETRIES - 1)%nat|]];
        try (rewrite !(IH (_ ++ _)); cbn [fst snd];
             f_equal; rewrite <- !app_assoc; reflexivity).
      cbn. rewrite <- !app_assoc. reflexivity.
Qed.

(** The client never raises. *)
Lemma attempts_returns url y m d retrs tr0 :
  exists data, (attempts net url y m d retrs tr0).1 = Ok data.
Proof.
  revert tr0. induction retrs as [|retr rest IH]; intros tr0.
  - eexists. reflexivity.
  - cbn [attempts]. munfold.
    destruct (net url retr) as [|status_code json].
    + destruct (retr <? MAX_RETRIES - 1)%nat; apply IH.
    + destruct (status_code =? 429); [apply IH|].
      destruct (raises_for_status status_code);
        [destruct (retr <? MAX_RETRIES - 1)%nat; apply IH|].
      eexists. reflexivity.
Qed.

(** One turn of the retry loop, by the verdict on the answer. *)
Lemma attempts_step url y m d retr rest tr :
  attempts net url y m d (retr :: rest) tr
  = let started :=
      tr ++ [EvLog INFO (MsgRequest y m d (Z.of_nat retr + 1)); EvGet url] in
    match classify (net url retr) with
    | Success json => (Ok (Some json), started)
    | RateLimited =>
        attempts net url y m d rest
          (started ++ [EvLog WARNING (MsgRateLimited (2 ^ Z.of_nat retr + 1));
                       EvSleep (2 ^ Z.of_nat retr + 1)])
    | Failed =>
        attempts net url y m d rest
          (started ++ EvLog WARNING (MsgRequestError (Z.of_nat retr + 1))
                      :: (if (retr <? MAX_RETRIES - 1)%nat then [EvSleep 1]
                          else []))
    end.
Proof.
  cbn [attempts]. munfold. unfold classify.
  destruct (net url retr) as [|status_code json].
  - destruct (retr <? MAX_RETRIES - 1)%nat;
      rewrite <- !app_assoc; reflexivity.
  - destruct (status_code =? 429); [rewrite <- !app_assoc; reflexivity|].
    destruct (raises_for_status status_code);
      [|rewrite <- !app_assoc; reflexivity].
    destruct (retr <? MAX_RETRIES - 1)%nat;
      rewrite <- !app_assoc; reflexivity.
Qed.

(** When no attempt succeeds the loop runs out and gives [None]. *)
Lemma attempts_exhausted url y m d retrs tr :
  (forall i, i ∈ retrs -> is_success (net url i) = false) ->
  (attempts net url y m d retrs tr).1 = Ok None.
Proof.
  revert tr. induction retrs as [|retr rest IH]; intros tr Hall.
  - reflexivity.
  - rewrite attempts_step. cbn zeta.
    pose proof (Hall retr ltac:(left)) as H0. unfold is_success in H0.
    destruct (classify (net url retr)); [discriminate| |];
      apply IH; intros i Hi; apply Hall; right; exact Hi.
Qed.

Lemma fetched_exhausted t :
  (forall i, (i < MAX_RETRIES)%nat -> is_success (net (day_url t) i) = false) ->
  fetched net t = None.
Proof.
  intros Hall. unfold fetched, get_top_wiki_articles. fold (day_url t).
  pose proof (attempts_exhausted (day_url t) (str (year t)) (str (month t))
                (str (day t)) (seq 0 MAX_RETRIES) []) as H.
  destruct (attempts net _ _ _ _ _ []) as [r w]. cbn [fst] in H.
  rewrite H; [reflexivity|].
  intros i Hi. apply Hall. apply elem_of_seq in Hi. lia.
Qed.

Lemma get_top_wiki_articles_fetched t tr0 :
  exists w,
    get_top_wiki_articles net DEFAULT_PROJECT (str (year t)) (str (month t))
      (str (day t)) DEFAULT_ACCESS tr0 = (Ok (fetched net t), tr0 ++ w).
Proof.
  unfold fetched, get_top_wiki_articles.
  rewrite attempts_frame.
  destruct (attempts_returns
              (top_url DEFAULT_PROJECT DEFAULT_ACCESS (str (year t))
                 (str (month t)) (str (day t)))
              (str (year t)) (str (month t)) (str (day t))
              (seq 0 MAX_RETRIES) []) as [data Hdata].
  destruct (attempts net _ _ _ _ _ []) as [r w]. cbn in *. subst r.
  exists w. reflexivity.
Qed.

End ClientFacts.

(** C8. Every fetch makes between one and three requests; a failed attempt
    (exception, or a status refused by [raise_for_status]) that is not the
    last is followed by a sleep of 1 and the next attempt; an answer 429 to
    the attempt [i] is followed by a sleep of [2^i + 1] and, when an attempt
    is left, by the next one; when no attempt succeeds the client returns
    [None] without raising, and otherwise the body of the first answer that
    succeeds. *)
Theorem get_top_wiki_articles_retry_policy
  (net : string -> nat -> http_outcome) (project year month day access : string)
  (tr0 : trace) :
  let url := top_url project access year month day in
  let request (i : nat) :=
    [EvLog INFO (MsgRequest year month day (Z.of_nat i + 1)); EvGet url] in
  let abandon := [EvLog ERROR (MsgFetchFailed year month day)] in
  exists data w,
    get_top_wiki_articles net project year month day access tr0
    = (Ok data, tr0 ++ w)
    /\ (1 <= gets w <= MAX_RETRIES)%nat
    /\ (forall i, attempt_made net url i ->
          classify (net url i) = Failed ->
          segment
            (request i ++
             EvLog WARNING (MsgRequestError (Z.of_nat i + 1))
             :: (if (i <? MAX_RETRIES - 1)%nat
                 then EvSleep 1 :: request (S i) else abandon)) w)
    /\ (forall i, attempt_made net url i ->
          classify (net url i) = RateLimited ->
          segment
            (request i ++
             EvLog WARNING (MsgRateLimited (2 ^ Z.of_nat i + 1))
             :: EvSleep (2 ^ Z.of_nat i + 1)
             :: (if (i <? MAX_RETRIES - 1)%nat
                 then request (S i) else abandon)) w)
    /\ ((forall i, (i < MAX_RETRIES)%nat -> is_success (net url i) = false) ->
        data = None)
    /\ (forall i json, attempt_made net url i ->
          classify (net url i) = Success json -> data = Some json).
Proof.
  intros url request abandon. unfold get_top_wiki_articles.
  rewrite attempts_frame. fold url.
  assert (Hcases :
    forall i, attempt_made net url i -> i = 0%nat \/ i = 1%nat \/ i = 2%nat).
  { intros i [Hi _]. unfold MAX_RETRIES in Hi. lia. }
  assert (Hprev : forall i j, attempt_made net url i -> (j < i)%nat ->
            forall json, classify (net url j) = Success json -> False).
  { intros i j [_ H] Hj json Hc. specialize (H j Hj).
    unfold is_success in H. rewrite Hc in H. discriminate. }
  cbn [seq MAX_RETRIES]. rewrite !attempts_step. cbn zeta.
  destruct (classify (net url 0%nat)) as [j0| |] eqn:E0;
    [|rewrite !attempts_step; cbn zeta;
      destruct (classify (net url 1%nat)) as [j1| |] eqn:E1;
      [|rewrite !attempts_step; cbn zeta;
        destruct (classify (net url 2%nat)) as [j2| |] eqn:E2..]..];
    cbn [attempts]; munfold;
    cbn [fst snd app Nat.ltb Nat.leb Nat.sub MAX_RETRIES];
    eexists _, _; (split; [reflexivity|]);
    (split; [cbn [gets List.filter is_get length]; unfold MAX_RETRIES; lia|]);
    repeat split.
  all: try (intros i Hm Hc; destruct (Hcases i Hm) as [->|[->| ->]];
            try congruence;
            try (exfalso; eapply (Hprev _ 0%nat Hm); [lia|eassumption]);
            try (exfalso; eapply (Hprev _ 1%nat Hm); [lia|eassumption]);
            subst request abandon; cbn; find_segment).
  all: try (intros Hall;
            first [ specialize (Hall 0%nat ltac:(unfold MAX_RETRIES; lia));
                    unfold is_success in Hall; rewrite E0 in Hall; discriminate
                  | specialize (Hall 1%nat ltac:(unfold MAX_RETRIES; lia));
                    unfold is_success in Hall; rewrite E1 in Hall; discriminate
                  | specialize (Hall 2%nat ltac:(unfold MAX_RETRIES; lia));
                    unfold is_success in Hall; rewrite E2 in Hall; discriminate
                  | reflexivity ]).
  all: intros i json Hm Hc; destruct (Hcases i Hm) as [->|[->| ->]];
    try congruence;
    try (exfalso; eapply (Hprev _ 0%nat Hm); [lia|eassumption]);
    try (exfalso; eapply (Hprev _ 1%nat Hm); [lia|eassumption]).
Qed.

(** ** Validation *)

(** C7. When the start date is later than the end date, or later than the
    current time, the run stops with the validation error: the exit status
    is 1 and the trace holds the error line only, so no request was sent. *)
Theorem main_rejects_bad_dates
  (net : string -> nat -> http_outcome) (now : datetime)
  (parse_date : string -> option Z) (savefig : string -> bool)
  (start_date end_date : datetime) :
  gtb start_date end_date = true \/ gtb start_date now = true ->
  exists e,
    (e = StartAfterEnd \/ e = StartInFuture)
    /\ validate_dates now start_date end_date [] = (Raise e, [])
    /\ run net now parse_date savefig start_date end_date [] = (Raise e, [])
    /\ main net now parse_date savefig start_date end_date
       = (1, [EvLog ERROR (MsgFailure e)])
    /\ gets (main net now parse_date savefig start_date end_date).2 = 0%nat.
Proof.
  intros Hbad. unfold main, run, validate_dates.
  destruct (gtb start_date end_date) eqn:Hse.
  - exists StartAfterEnd. munfold. cbn. auto 6.
  - destruct Hbad as [Hbad|Hbad]; [discriminate|]. rewrite Hbad.
    exists StartInFuture. munfold. cbn. auto 6.
Qed.

Lemma main_rejects_bad_dates_witness :
  exists e,
    (e = StartAfterEnd \/ e = StartInFuture)
    /\ validate_dates (midnight 2024 11 4) (midnight 2024 11 2)
         (midnight 2024 11 1) [] = (Raise e, [])
    /\ run (fun _ _ => Raised) (midnight 2024 11 4) (fun _ => None)
         (fun _ => true) (midnight 2024 11 2) (midnight 2024 11 1) []
       = (Raise e, [])
    /\ main (fun _ _ => Raised) (midnight 2024 11 4) (fun _ => None)
         (fun _ => true) (midnight 2024 11 2) (midnight 2024 11 1)
       = (1, [EvLog ERROR (MsgFailure e)])
    /\ gets (main (fun _ _ => Raised) (midnight 2024 11 4) (fun _ => None)
               (fun _ => true) (midnight 2024 11 2) (midnight 2024 11 1)).2
       = 0%nat.
Proof.
  apply (main_rejects_bad_dates (fun _ _ => Raised) (midnight 2024 11 4)
           (fun _ => None) (fun _ => true) (midnight 2024 11 2)
           (midnight 2024 11 1)).
  left. reflexivity.
Defined.

(** ** The collector *)

Lemma filter_all {A} (P : A -> Prop) `{!forall x, Decision (P x)} (l : list A) :
  Forall P l -> filter P l = l.
Proof.
  induction 1 as [|x l Hx _ IH]; [reflexivity|].
  rewrite filter_cons_True by assumption. congruence.
Qed.

Lemma filter_none {A} (P : A -> Prop) `{!forall x, Decision (P x)} (l : list A) :
  Forall (fun x => ~ P x) l -> filter P l = [].
Proof.
  induction 1 as [|x l Hx _ IH]; [reflexivity|].
  rewrite filter_cons_False by assumption. assumption.
Qed.

Section CollectorFacts.

Variable net : string -> nat -> http_outcome.

Lemma leb_add_day t e : leb (next_day t) e = true -> leb t e = true.
Proof.
  unfold leb, gtb, next_day. cbn. intros H.
  apply negb_true_iff in H. apply negb_true_iff.
  apply orb_false_iff in H as [H1 H2].
  apply orb_false_iff. split; [lia|].
  apply andb_false_iff. apply andb_false_iff in H2. lia.
Qed.

Lemma leb_ordinal t e : leb t e = true -> ordinal t <= ordinal e.
Proof.
  unfold leb, gtb. intros H. apply negb_true_iff in H.
  apply orb_false_iff in H as [H _]. lia.
Qed.

Lemma days_from_beyond n t e :
  leb t e = false ->
  filter (fun t => leb t e = true) (days_from n t) = [].
Proof.
  revert t. induction n as [|n IH]; intros t Ht; [reflexivity|].
  cbn [days_from]. rewrite filter_cons_False by congruence.
  apply IH. destruct (leb (next_day t) e) eqn:H; [|reflexivity].
  apply leb_add_day in H. congruence.
Qed.

Lemma range_days_nil t e : leb t e = false -> range_days t e = [].
Proof. apply days_from_beyond. Qed.

Lemma range_days_cons t e :
  leb t e = true -> range_days t e = t :: range_days (next_day t) e.
Proof.
  intros Ht. pose proof (leb_ordinal _ _ Ht) as Hord. unfold range_days.
  replace (Z.to_nat (ordinal e - ordinal t + 1))
    with (S (Z.to_nat (ordinal e - ordinal (next_day t) + 1)))
    by (cbn; lia).
  cbn [days_from]. rewrite filter_cons_True by assumption. reflexivity.
Qed.

Lemma elem_of_days_from n s t :
  t ∈ days_from n s <-> exists k, (k < n)%nat /\ t = Nat.iter k next_day s.
Proof.
  revert s. induction n as [|n IH]; intros s; cbn [days_from].
  - split; [intros H; inversion H|intros (k & Hk & _); lia].
  - rewrite elem_of_cons, IH. split.
    + intros [->|(k & Hk & ->)].
      * exists 0%nat. split; [lia|reflexivity].
      * exists (S k). split; [lia|]. rewrite Nat.iter_succ_r. reflexivity.
    + intros (k & Hk & ->). destruct k as [|k]; [left; reflexivity|].
      right. exists k. split; [lia|]. rewrite Nat.iter_succ_r. reflexivity.
Qed.

Lemma ordinal_iter k s : ordinal (Nat.iter k next_day s) = ordinal s + Z.of_nat k.
Proof.
  induction k as [|k IH]; simpl; [lia|].
  rewrite IH. lia.
Qed.

Lemma elem_of_range_days s e t : t ∈ range_days s e <-> in_range s e t.
Proof.
  unfold range_days, in_range. rewrite list_elem_of_filter, elem_of_days_from.
  split.
  - intros [Ht (k & _ & ->)]. split; [exists k; reflexivity|assumption].
  - intros [[k ->] Ht]. split; [assumption|]. exists k. split; [|reflexivity].
    apply leb_ordinal in Ht. rewrite ordinal_iter in Ht. lia.
Qed.

(** The loop visits the days of the range in order and appends the rows
    of each; the iteration bound is never reached. *)
Lemma range_days_ordinal s e t :
  t ∈ range_days s e -> ordinal s <= ordinal t <= ordinal e.
Proof.
  intros H. apply elem_of_range_days in H as [[k ->] Hle].
  apply leb_ordinal in Hle. rewrite ordinal_iter in *. lia.
Qed.

Lemma fetched_days_nil t e : leb t e = false -> fetched_days t e = [].
Proof. intros H. unfold fetched_days. rewrite range_days_nil; auto. Qed.

Lemma fetched_days_cons t e :
  leb t e = true -> ordinal t < MAXORDINAL ->
  fetched_days t e = t :: fetched_days (next_day t) e.
Proof.
  intros Hle Ht. unfold fetched_days. rewrite range_days_cons by assumption.
  rewrite filter_cons_True by assumption. reflexivity.
Qed.

Lemma fetched_days_stop t e : MAXORDINAL <= ordinal t -> fetched_days t e = [].
Proof.
  intros Ht. unfold fetched_days. apply filter_none, Forall_forall.
  intros t' Hin. apply range_days_ordinal in Hin. lia.
Qed.

Lemma overflows_nil t e : leb t e = false -> overflows t e = false.
Proof. intros H. unfold overflows. rewrite range_days_nil; auto. Qed.

Lemma overflows_cons t e :
  leb t e = true -> ordinal t < MAXORDINAL ->
  overflows t e = overflows (next_day t) e.
Proof.
  intros Hle Ht. unfold overflows. rewrite range_days_cons by assumption.
  cbn [existsb]. replace (MAXORDINAL <=? ordinal t) with false; [reflexivity|].
  symmetry. apply Z.leb_gt. exact Ht.
Qed.

Lemma overflows_stop t e :
  leb t e = true -> MAXORDINAL <= ordinal t -> overflows t e = true.
Proof.
  intros Hle Ht. unfold overflows. rewrite range_days_cons by assumption.
  cbn [existsb]. replace (MAXORDINAL <=? ordinal t) with true; [reflexivity|].
  symmetry. apply Z.leb_le. exact Ht.
Qed.

(** A range that ends before 9999-12-31 does not overflow, and all its
    days are fetched. *)
Lemma overflows_false s e :
  overflows s e = false -> fetched_days s e = range_days s e.
Proof.
  unfold overflows, fetched_days. intros H. apply filter_all, Forall_forall.
  intros t Ht. destruct (Z.leb_spec MAXORDINAL (ordinal t)) as [Hge|Hlt];
    [|exact Hlt].
  exfalso. assert (Hex : existsb (fun t => MAXORDINAL <=? ordinal t)
                           (range_days s e) = true).
  { apply existsb_exists. exists t. split; [apply list_elem_of_In; exact Ht|].
    apply Z.leb_le. exact Hge. }
  congruence.
Qed.

Lemma overflows_before s e : ordinal e < MAXORDINAL -> overflows s e = false.
Proof.
  intros He. unfold overflows.
  destruct (existsb _ _) eqn:E; [|reflexivity].
  apply existsb_exists in E as (t & Ht & Hge).
  apply list_elem_of_In, range_days_ordinal in Ht. apply Z.leb_le in Hge. lia.
Qed.

(** What the client returns for a day, and its events. *)
Lemma get_top_wiki_articles_traced t tr0 :
  get_top_wiki_articles net DEFAULT_PROJECT (str (year t)) (str (month t))
    (str (day t)) DEFAULT_ACCESS tr0
  = (Ok (fetched net t), tr0 ++ fetch_trace net t).
Proof.
  unfold fetched, fetch_trace, get_top_wiki_articles.
  rewrite attempts_frame.
  destruct (attempts_returns net
              (top_url DEFAULT_PROJECT DEFAULT_ACCESS (str (year t))
                 (str (month t)) (str (day t)))
              (str (year t)) (str (month t)) (str (day t))
              (seq 0 MAX_RETRIES) []) as [data Hdata].
  destruct (attempts net _ _ _ _ _ []) as [r w]. cbn in *. subst r.
  reflexivity.
Qed.

(** The loop: the days before 9999-12-31 are fetched in order; on that day
    the step to the next day overflows before the fetch. *)
Lemma collect_loop_trace budget current_date end_date df tr0 :
  ordinal end_date - ordinal current_date + 1 <= Z.of_nat budget ->
  collect_loop net budget current_date end_date df tr0
  = (if overflows current_date end_date then Raise DateOverflow
     else Ok (df ++ (range_days current_date end_date ≫= day_rows net)),
     tr0 ++ (fetched_days current_date end_date ≫= day_trace net)).
Proof.
  revert current_date df tr0.
  induction budget as [|budget IH]; intros cur df tr0 Hb;
    cbn [collect_loop]; destruct (leb cur end_date) eqn:Hle.
  - apply leb_ordinal in Hle. lia.
  - rewrite overflows_nil, range_days_nil, fetched_days_nil by assumption.
    cbn. rewrite !app_nil_r. reflexivity.
  - unfold bind at 1, lift at 1, add_delta.
    destruct (Z.ltb_spec (ordinal cur) MAXORDINAL) as [Hlt|Hge].
    + rewrite overflows_cons, range_days_cons, fetched_days_cons
        by assumption.
      rewrite !bind_cons.
      unfold bind at 1. rewrite get_top_wiki_articles_traced.
      unfold day_rows at 1, day_trace at 1. fold (date_tag cur).
      destruct (usable (fetched net cur)) as [arts|]; munfold;
        rewrite IH by (cbn; lia);
        destruct (overflows (next_day cur) end_date);
        rewrite <- !app_assoc; reflexivity.
    + rewrite overflows_stop, fetched_days_stop by assumption.
      cbn. rewrite app_nil_r. reflexivity.
  - rewrite overflows_nil, range_days_nil, fetched_days_nil by assumption.
    cbn. rewrite !app_nil_r. reflexivity.
Qed.

Lemma collect_wiki_data_trace start_date end_date tr0 :
  let rows := range_days start_date end_date ≫= day_rows net in
  collect_wiki_data net start_date end_date tr0
  = (if overflows start_date end_date then Raise DateOverflow
     else match rows with [] => Raise NoData | _ => Ok rows end,
     tr0 ++ (fetched_days start_date end_date ≫= day_trace net)
         ++ (if overflows start_date end_date then []
             else match rows with
                  | [] => []
                  | _ => [EvLog INFO (MsgCollected (length rows))]
                  end)).
Proof.
  intros rows. unfold collect_wiki_data. unfold bind at 1.
  rewrite collect_loop_trace by lia. cbn [app]. fold rows.
  destruct (overflows start_date end_date).
  - rewrite app_nil_r. reflexivity.
  - destruct rows as [|r rows'].
    + rewrite app_nil_r. reflexivity.
    + munfold. rewrite <- app_assoc. reflexivity.
Qed.

(** When the collector returns a table, it holds the rows of the days of
    the range. *)
Lemma collect_wiki_data_rows start_date end_date tr0 df tr :
  collect_wiki_data net start_date end_date tr0 = (Ok df, tr) ->
  df = range_days start_date end_date ≫= day_rows net /\ df <> []
  /\ overflows start_date end_date = false.
Proof.
  rewrite collect_wiki_data_trace. cbn zeta.
  destruct (overflows start_date end_date); [discriminate|].
  destruct (range_days start_date end_date ≫= day_rows net) as [|r rows];
    [discriminate|].
  intros [= <- _]. split; [reflexivity|]. split; [discriminate|reflexivity].
Qed.

End CollectorFacts.

(** The last day a [datetime] can hold is 9999-12-31. *)
Example MAXORDINAL_last_day :
  ymd2ord 9999 12 31 = MAXORDINAL /\ ord2ymd MAXORDINAL = (9999, 12, 31).
Proof. split; vm_compute; reflexivity. Qed.

Lemma iter_add_day k s :
  Nat.iter k next_day s = mk_datetime (ordinal s + Z.of_nat k) (micro s).
Proof.
  induction k as [|k IH]; simpl.
  - destruct s. cbn. f_equal. lia.
  - rewrite IH. unfold next_day. cbn. f_equal. lia.
Qed.

Lemma in_range_bounds s e t :
  in_range s e t -> leb s t = true /\ leb t e = true.
Proof.
  intros [[k ->] Ht]. split; [|assumption].
  rewrite iter_add_day. unfold leb, gtb. cbn [ordinal micro].
  apply negb_true_iff, orb_false_iff. split; [apply Z.ltb_ge; lia|].
  apply andb_false_iff. right. apply Z.ltb_irrefl.
Qed.

(** The fetch of a day returns what the client settles on, and the rows
    added for a day are those the specification lists. *)
Lemma fetched_settled net t : fetched net t = settled net (day_url t).
Proof.
  unfold fetched, settled, get_top_wiki_articles. fold (day_url t).
  generalize (day_url t) as url. intros url.
  unfold first_success, is_success.
  cbn [seq MAX_RETRIES]. rewrite !attempts_step. cbn zeta.
  destruct (classify (net url 0%nat)) as [j0| |] eqn:E0;
    [|rewrite !attempts_step; cbn zeta;
      destruct (classify (net url 1%nat)) as [j1| |] eqn:E1;
      [|rewrite !attempts_step; cbn zeta;
        destruct (classify (net url 2%nat)) as [j2| |] eqn:E2..]..];
    cbn [attempts]; munfold; cbn [List.find]; rewrite ?E0, ?E1, ?E2;
    cbn [List.find]; rewrite ?E0, ?E1, ?E2; reflexivity.
Qed.

Lemma day_rows_listed net t : day_rows net t = dated t <$> listed net t.
Proof.
  unfold day_rows, listed, usable. rewrite fetched_settled.
  destruct (settled net (day_url t)) as [json|]; [|reflexivity].
  destruct (items json) as [[|it its]|]; reflexivity.
Qed.

Lemma rows_spec_rows net s e :
  range_days s e ≫= day_rows net = spec_rows net s e.
Proof.
  unfold spec_rows. induction (range_days s e) as [|t l IH]; [reflexivity|].
  rewrite !bind_cons, IH, day_rows_listed. reflexivity.
Qed.

Lemma fetch_trace_first_request net t :
  exists w,
    fetch_trace net t
    = EvLog INFO (MsgRequest (str (year t)) (str (month t)) (str (day t)) 1)
      :: EvGet (day_url t) :: w.
Proof.
  unfold fetch_trace, get_top_wiki_articles. fold (day_url t).
  generalize (day_url t) as url. intros url.
  cbn [seq MAX_RETRIES]. rewrite attempts_step. cbn zeta.
  destruct (classify (net url 0%nat)).
  - eexists. reflexivity.
  - rewrite attempts_frame. cbn [snd app]. eexists. reflexivity.
  - rewrite attempts_frame. cbn [snd app]. eexists. reflexivity.
Qed.

Lemma requested_days net (days : list datetime) t :
  t ∈ days -> EvGet (day_url t) ∈ days ≫= day_trace net.
Proof.
  intros Ht. apply list_elem_of_bind. exists t. split; [|exact Ht].
  unfold day_trace. destruct (fetch_trace_first_request net t) as [w ->].
  apply elem_of_app. left. right. left.
Qed.

(** C5. The date that the collector writes in a row is the year, the month
    and the day of its day, concatenated without padding, and does not
    identify the day. Over the range from 2024-01-11 to 2024-11-01, with a
    network that answers for 2024-01-11 only, the collector returns 21
    rows dated 2024111: that is also the date written for 2024-11-01, a day
    of the range for which the client returned nothing. *)
Theorem collect_wiki_data_ambiguous_date :
  exists df tr,
    collect_wiki_data Samples.winter (midnight 2024 1 11) (midnight 2024 11 1)
      [] = (Ok df, tr)
    /\ date <$> df = replicate 21 (DateStr "2024111")
    /\ in_range (midnight 2024 1 11) (midnight 2024 11 1) (midnight 2024 11 1)
    /\ date_tag (midnight 2024 11 1) = "2024111"
    /\ fetched Samples.winter (midnight 2024 11 1) = None
    /\ listed Samples.winter (midnight 2024 11 1) = [].
Proof.
  eexists _, _. split; [vm_compute; reflexivity|].
  split; [vm_compute; reflexivity|].
  split; [split; [exists 295%nat; rewrite iter_add_day; reflexivity
                 |reflexivity]|].
  split; [reflexivity|]. split; vm_compute; reflexivity.
Qed.

(** C6 as stated fails on a range that reaches 9999-12-31: the step to the
    next day overflows before that day is requested, and the collector
    stops with that error, which is not the data-availability error,
    although no day of the range gave a row. *)
Lemma collect_wiki_data_overflows_on_last_day :
  collect_wiki_data (fun _ _ => Raised) (midnight 9999 12 31)
    (midnight 9999 12 31) [] = (Raise DateOverflow, [])
  /\ range_days (midnight 9999 12 31) (midnight 9999 12 31)
     = [midnight 9999 12 31]
  /\ spec_rows (fun _ _ => Raised) (midnight 9999 12 31) (midnight 9999 12 31)
     = [].
Proof. split_and!; vm_compute; reflexivity. Qed.

(** C6, amended. On a range that ends before 9999-12-31 the collector
    requests every day of the range, whatever the other days gave; a day
    whose three attempts all fail lists nothing and adds no row; the table
    returned holds, in the order of the days, one row for each article of
    the first item of the body that the client settles on for the day; and
    the collector raises the data-availability error if and only if no day
    of the range lists an article, and returns that table otherwise. *)
Theorem collect_wiki_data_failed_days
  (net : string -> nat -> http_outcome) (start_date end_date : datetime)
  (tr0 : trace) :
  ordinal end_date < MAXORDINAL ->
  exists w,
    collect_wiki_data net start_date end_date tr0
    = (match spec_rows net start_date end_date with
       | [] => Raise NoData
       | rows => Ok rows
       end, tr0 ++ w)
    /\ (forall t, in_range start_date end_date t -> EvGet (day_url t) ∈ w)
    /\ (forall t,
          (forall i, (i < MAX_RETRIES)%nat ->
             is_success (net (day_url t) i) = false) ->
          listed net t = [])
    /\ (spec_rows net start_date end_date = []
        <-> forall t, in_range start_date end_date t -> listed net t = []).
Proof.
  intros Hend. rewrite collect_wiki_data_trace. cbn zeta.
  rewrite (overflows_false start_date end_date),
    (overflows_before start_date end_date), rows_spec_rows
    by (try apply overflows_before; assumption).
  exists ((range_days start_date end_date ≫= day_trace net)
          ++ match spec_rows net start_date end_date with
             | [] => []
             | _ =>
                 [EvLog INFO
                    (MsgCollected
                       (length (spec_rows net start_date end_date)))]
             end).
  split; [destruct (spec_rows net start_date end_date); reflexivity|].
  split; [|split].
  - intros t Ht. apply elem_of_app. left. apply requested_days.
    apply elem_of_range_days. exact Ht.
  - intros t Hall. unfold listed, settled, first_success.
    destruct (List.find _ _) as [i|] eqn:E; [|reflexivity].
    apply List.find_some in E as [Hin E]. apply List.in_seq in Hin.
    rewrite Hall in E by lia. discriminate.
  - unfold spec_rows. split.
    + intros E t Ht. apply elem_of_range_days in Ht.
      destruct (listed net t) as [|x l] eqn:El; [reflexivity|].
      exfalso. assert (H : dated t x ∈ @nil row); [|inversion H].
      rewrite <- E. apply list_elem_of_bind. exists t. split; [|exact Ht].
      rewrite El. left.
    + intros Hall.
      assert (H : forall days, (forall t, t ∈ days -> listed net t = []) ->
                days ≫= (fun t => dated t <$> listed net t) = []).
      { induction days as [|t l IH]; intros Hl; [reflexivity|].
        rewrite bind_cons, (Hl t) by left. cbn. apply IH.
        intros t' Ht'. apply Hl. right. exact Ht'. }
      apply H. intros t Ht. apply Hall, elem_of_range_days, Ht.
Qed.

Lemma collect_wiki_data_failed_days_witness :
  exists w,
    collect_wiki_data Samples.patchy Samples.start_date Samples.end_date []
    = (match spec_rows Samples.patchy Samples.start_date Samples.end_date with
       | [] => Raise NoData
       | rows => Ok rows
       end, [] ++ w)
    /\ (forall t, in_range Samples.start_date Samples.end_date t ->
          EvGet (day_url t) ∈ w)
    /\ (forall t,
          (forall i, (i < MAX_RETRIES)%nat ->
             is_success (Samples.patchy (day_url t) i) = false) ->
          listed Samples.patchy t = [])
    /\ (spec_rows Samples.patchy Samples.start_date Samples.end_date = []
        <-> forall t, in_range Samples.start_date Samples.end_date t ->
              listed Samples.patchy t = []).
Proof.
  apply (collect_wiki_data_failed_days Samples.patchy Samples.start_date
           Samples.end_date []).
  reflexivity.
Defined.

(** ** Lists *)

Lemma rmap_Forall2 {A B} (f : A -> result B) l ys :
  rmap f l = Ok ys -> Forall2 (fun x y => f x = Ok y) l ys.
Proof.
  revert ys. induction l as [|x l IH]; intros ys H; cbn in H.
  - injection H as <-. constructor.
  - destruct (f x) as [y|] eqn:Hx; [|discriminate]. cbn in H.
    destruct (rmap f l) as [ys'|]; [|discriminate]. cbn in H.
    injection H as <-. constructor; auto.
Qed.


Lemma elem_of_unique x l : x ∈ unique l <-> x ∈ l.
Proof.
  induction l as [|y l IH]; cbn [unique]; [reflexivity|].
  rewrite !elem_of_cons, list_elem_of_filter, IH.
  destruct (decide (x = y)); tauto.
Qed.

Lemma NoDup_unique l : NoDup (unique l).
Proof.
  induction l as [|y l IH]; cbn [unique]; [constructor|].
  apply NoDup_cons. split.
  - rewrite list_elem_of_filter. tauto.
  - apply NoDup_filter, IH.
Qed.

Lemma unique_NoDup l : NoDup l -> unique l = l.
Proof.
  induction 1 as [|x l Hx _ IH]; cbn [unique]; [reflexivity|].
  rewrite IH. f_equal. apply filter_all.
  apply Forall_forall. intros y Hy ->. contradiction.
Qed.

Lemma unique_app l1 l2 :
  unique (l1 ++ l2) = unique l1 ++ filter (fun y => y ∉ l1) (unique l2).
Proof.
  induction l1 as [|x l1 IH]; cbn [unique app].
  - symmetry. apply filter_all. apply Forall_forall. intros y _ H. inversion H.
  - rewrite IH, filter_app. f_equal. f_equal.
    rewrite list_filter_filter. apply list_filter_iff.
    intros y. rewrite elem_of_cons. tauto.
Qed.

Lemma unique_constant a l :
  l <> [] -> Forall (fun x => x = a) l -> unique l = [a].
Proof.
  intros Hne Hall. destruct l as [|x l]; [contradiction|].
  apply Forall_cons in Hall as [-> Hall].
  cbn [unique]. f_equal. apply filter_none.
  apply Forall_forall. intros y Hy Hya. apply Hya.
  rewrite elem_of_unique in Hy. rewrite Forall_forall in Hall. auto.
Qed.

(** The articles of a frame made of one non-empty block per article. *)
Lemma unique_blocks (blk : string -> DataFrame) arts :
  NoDup arts ->
  (forall a, a ∈ arts -> blk a <> [] /\ Forall (fun r => article r = a) (blk a)) ->
  unique (article <$> (arts ≫= blk)) = arts.
Proof.
  induction 1 as [|a arts Ha Hnd IH]; intros Hblk; [reflexivity|].
  rewrite bind_cons, fmap_app, unique_app.
  destruct (Hblk a ltac:(left)) as [Hne Hall].
  rewrite (unique_constant a).
  - cbn [app]. f_equal. rewrite IH by (intros; apply Hblk; right; assumption).
    apply filter_all. apply Forall_forall. intros b Hb Hin.
    apply list_elem_of_fmap in Hin as (r & -> & Hr).
    rewrite Forall_forall in Hall. rewrite (Hall r Hr) in Hb. contradiction.
  - destruct (blk a); [contradiction|discriminate].
  - apply Forall_fmap. exact Hall.
Qed.

(** The group of an article in such a frame is its block. *)
Lemma group_blocks (blk : string -> DataFrame) arts a :
  NoDup arts ->
  (forall b, b ∈ arts -> Forall (fun r => article r = b) (blk b)) ->
  group (arts ≫= blk) a = if decide (a ∈ arts) then blk a else [].
Proof.
  unfold group. induction 1 as [|b arts Hb Hnd IH]; intros Hblk.
  - reflexivity.
  - rewrite bind_cons, filter_app, IH by (intros; apply Hblk; right; assumption).
    pose proof (Hblk b ltac:(left)) as Hall.
    destruct (decide (a = b)) as [->|Hab].
    + rewrite filter_all by assumption.
      rewrite (decide_False (P := b ∈ arts)) by assumption.
      rewrite decide_True by left. apply app_nil_r.
    + rewrite filter_none.
      * cbn [app]. destruct (decide (a ∈ arts)).
        -- rewrite decide_True by (right; assumption). reflexivity.
        -- rewrite decide_False; [reflexivity|].
           rewrite elem_of_cons. tauto.
      * eapply Forall_impl; [exact Hall|]. cbn. congruence.
Qed.

(** ** Group-wise transform on a frame made of blocks *)

Lemma group_app l1 l2 a : group (l1 ++ l2) a = group l1 a ++ group l2 a.
Proof. apply filter_app. Qed.

Lemma group_same a l : Forall (fun r => article r = a) l -> group l a = l.
Proof. intros H. apply filter_all. exact H. Qed.

Lemma group_other a b l :
  a <> b -> Forall (fun r => article r = a) l -> group l b = [].
Proof.
  intros Hab H. apply filter_none. eapply Forall_impl; [exact H|].
  cbn. congruence.
Qed.

Lemma transform_rows_block f whole a seen0 pre suf rest :
  group seen0 a = [] ->
  Forall (fun r => article r = a) pre ->
  Forall (fun r => article r = a) suf ->
  transform_rows f whole (seen0 ++ pre) (suf ++ rest)
  = ((fun i => default None (f (views <$> group whole a) !! i))
       <$> seq (length pre) (length suf))
    ++ transform_rows f whole (seen0 ++ pre ++ suf) rest.
Proof.
  intros Hseen. revert pre.
  induction suf as [|r suf IH]; intros pre Hpre Hsuf.
  - cbn. rewrite app_nil_r. reflexivity.
  - apply Forall_cons in Hsuf as [Hr Hsuf].
    cbn [app transform_rows length seq fmap list_fmap]. rewrite Hr.
    rewrite group_app, Hseen, group_same by assumption. cbn [app]. f_equal.
    rewrite <- app_assoc.
    rewrite (IH (pre ++ [r])); [|apply Forall_app; auto|assumption].
    rewrite length_app. cbn [length]. rewrite Nat.add_1_r.
    rewrite <- !app_assoc. reflexivity.
Qed.

Lemma transform_rows_blocks f whole (blk : string -> DataFrame) arts seen0 :
  NoDup arts ->
  (forall a, a ∈ arts -> Forall (fun r => article r = a) (blk a)) ->
  (forall a, a ∈ arts -> group seen0 a = []) ->
  transform_rows f whole seen0 (arts ≫= blk)
  = arts ≫= (fun a =>
      (fun i => default None (f (views <$> group whole a) !! i))
        <$> seq 0 (length (blk a))).
Proof.
  intros Hnd. revert seen0.
  induction Hnd as [|a arts Ha Hnd IH]; intros seen0 Hblk Hseen.
  - reflexivity.
  - rewrite !bind_cons.
    rewrite <- (app_nil_r seen0) at 1.
    rewrite (transform_rows_block f whole a seen0 [] (blk a));
      [|apply Hseen; left|constructor|apply Hblk; left].
    cbn [length app]. f_equal. apply IH.
    + intros b Hb. apply Hblk. right. exact Hb.
    + intros b Hb. rewrite group_app, Hseen by (right; exact Hb).
      cbn [app]. apply (group_other a); [|apply Hblk; left].
      intros ->. contradiction.
Qed.

Lemma lookups_seq {A} (d : A) (l : list A) n :
  n = length l ->
  (fun i => default d (l !! i)) <$> seq 0 n = l.
Proof.
  intros ->. apply list_eq. intros i. rewrite list_lookup_fmap.
  destruct (decide (i < length l)%nat) as [Hi|Hi].
  - rewrite lookup_seq_lt by assumption. cbn.
    destruct (lookup_lt_is_Some_2 l i Hi) as [x Hx]. rewrite Hx. reflexivity.
  - rewrite lookup_seq_ge by lia. rewrite lookup_ge_None_2 by lia. reflexivity.
Qed.

Lemma length_ffill_from p s : length (ffill_from p s) = length s.
Proof.
  revert p. induction s as [|x s IH]; intros p; cbn; [reflexivity|].
  rewrite IH. reflexivity.
Qed.

Lemma zip_with_bind {A B C D} (f : B -> C -> D) (g : A -> list B)
  (h : A -> list C) (l : list A) :
  (forall a, length (g a) = length (h a)) ->
  zip_with f (l ≫= g) (l ≫= h) = l ≫= (fun a => zip_with f (g a) (h a)).
Proof.
  intros Hlen. induction l as [|a l IH]; [reflexivity|].
  rewrite !bind_cons, zip_with_app by apply Hlen. rewrite IH. reflexivity.
Qed.

(** On a frame made of one block per article, the group-wise forward fill
    fills every block on its own. *)
Lemma groupby_transform_ffill_blocks (blk : string -> DataFrame) arts :
  NoDup arts ->
  (forall a, a ∈ arts -> Forall (fun r => article r = a) (blk a)) ->
  zip_with set_views (arts ≫= blk) (groupby_transform ffill (arts ≫= blk))
  = arts ≫= (fun a => filled (blk a)).
Proof.
  intros Hnd Hblk. unfold groupby_transform.
  rewrite (transform_rows_blocks ffill _ blk arts []); try assumption;
    [|reflexivity].
  rewrite (Forall_bind_ext _ (fun a => ffill (views <$> blk a))).
  - apply zip_with_bind. intros a. unfold ffill.
    rewrite length_ffill_from, length_fmap. reflexivity.
  - apply Forall_forall. intros a Ha. rewrite group_blocks by assumption.
    rewrite decide_True by assumption. apply lookups_seq.
    unfold ffill. rewrite length_ffill_from, length_fmap. reflexivity.
Qed.

(** ** Forward fill *)

Lemma last_valid_snoc s x :
  last_valid (s ++ [x]) = match x with Some _ => x | None => last_valid s end.
Proof. unfold last_valid. rewrite foldl_app. reflexivity. Qed.

Lemma ffill_from_snoc p s x :
  ffill_from p (s ++ [x])
  = ffill_from p s
    ++ [match x with
        | Some _ => x
        | None =>
            foldl (fun acc x => match x with Some _ => x | None => acc end) p s
        end].
Proof.
  revert p. induction s as [|y s IH]; intros p; cbn [app ffill_from foldl].
  - reflexivity.
  - rewrite IH. reflexivity.
Qed.

Lemma ffill_snoc s x :
  ffill (s ++ [x])
  = ffill s ++ [match x with Some _ => x | None => last_valid s end].
Proof. apply ffill_from_snoc. Qed.

Lemma length_ffill s : length (ffill s) = length s.
Proof. apply length_ffill_from. Qed.

(** The filled value at a position is the last valid value up to it. *)
Lemma ffill_lookup s j :
  (j < length s)%nat -> ffill s !! j = Some (last_valid (take (S j) s)).
Proof.
  revert j. induction s as [|x s IH] using rev_ind; intros j Hj.
  - cbn in Hj. lia.
  - rewrite length_app in Hj. cbn in Hj. rewrite ffill_snoc.
    destruct (decide (j < length s)%nat) as [Hlt|Hge].
    + rewrite lookup_app_l by (rewrite length_ffill; assumption).
      rewrite IH by assumption. rewrite take_app_le by lia. reflexivity.
    + assert (j = length s) as -> by lia.
      rewrite lookup_app_r by (rewrite length_ffill; lia).
      rewrite length_ffill, Nat.sub_diag. cbn [lookup list_lookup].
      rewrite take_ge by (rewrite length_app; cbn; lia).
      rewrite last_valid_snoc. reflexivity.
Qed.

Lemma last_valid_Some s v :
  last_valid s = Some v ->
  exists i, s !! i = Some (Some v) /\
    forall i', (i < i' < length s)%nat -> s !! i' = Some None.
Proof.
  induction s as [|x s IH] using rev_ind; intros H.
  - discriminate.
  - rewrite last_valid_snoc in H. destruct x as [w|].
    + injection H as ->. exists (length s). split.
      * rewrite lookup_app_r by lia. rewrite Nat.sub_diag. reflexivity.
      * intros i'. rewrite length_app. cbn. lia.
    + destruct (IH H) as (i & Hi & Hafter). exists i.
      pose proof (lookup_lt_Some _ _ _ Hi) as Hlt. split.
      * rewrite lookup_app_l by assumption. exact Hi.
      * intros i'. rewrite length_app. cbn. intros Hi'.
        destruct (decide (i' < length s)%nat).
        -- rewrite lookup_app_l by assumption. apply Hafter. lia.
        -- rewrite lookup_app_r by lia.
           replace (i' - length s)%nat with 0%nat by lia. reflexivity.
Qed.

Lemma last_valid_None s :
  last_valid s = None -> forall i x, s !! i = Some x -> x = None.
Proof.
  induction s as [|y s IH] using rev_ind; intros H i x Hi.
  - inversion Hi.
  - rewrite last_valid_snoc in H. destruct y as [w|]; [discriminate|].
    apply lookup_app_Some in Hi as [Hi|[_ Hi]].
    + eapply IH; eassumption.
    + destruct (i - length s)%nat; cbn in Hi; [congruence|inversion Hi].
Qed.

Lemma last_valid_is_Some s i v :
  s !! i = Some (Some v) -> is_Some (last_valid s).
Proof.
  revert i. induction s as [|y s IH] using rev_ind; intros i Hi.
  - inversion Hi.
  - rewrite last_valid_snoc. destruct y as [w|]; [eexists; reflexivity|].
    apply lookup_app_Some in Hi as [Hi|[_ Hi]].
    + eapply IH; eassumption.
    + destruct (i - length s)%nat; cbn in Hi; [congruence|inversion Hi].
Qed.

(** ** Reindexing *)

Lemma lookup_label_Some k c (idf : IndexedFrame) :
  lookup_label k idf = Some c -> (k, c) ∈ idf.
Proof.
  unfold lookup_label.
  destruct (list_find _ idf) as [[i [k' c']]|] eqn:E; [|discriminate].
  cbn. intros [= <-]. apply list_find_Some in E as (Hi & Hk & _).
  cbn in Hk. subst k'. eapply list_elem_of_lookup_2. exact Hi.
Qed.

Lemma NoDup_fst_functional {K V} (l : list (K * V)) k c1 c2 :
  NoDup (l.*1) -> (k, c1) ∈ l -> (k, c2) ∈ l -> c1 = c2.
Proof.
  induction l as [|[k' c'] l IH]; intros Hnd H1 H2; [inversion H1|].
  cbn in Hnd. apply NoDup_cons in Hnd as [Hk Hnd].
  apply elem_of_cons in H1 as [H1|H1]; apply elem_of_cons in H2 as [H2|H2].
  - congruence.
  - injection H1 as -> ->. exfalso. apply Hk.
    apply list_elem_of_fmap. exists (k', c2). auto.
  - injection H2 as -> ->. exfalso. apply Hk.
    apply list_elem_of_fmap. exists (k', c1). auto.
  - auto.
Qed.

Lemma lookup_label_elem k c (idf : IndexedFrame) :
  NoDup (idf.*1) -> (k, c) ∈ idf -> lookup_label k idf = Some c.
Proof.
  intros Hnd Hin.
  destruct (list_find_elem_of (fun e : (string * Z) * (option Z * option Z) =>
              e.1 = k) idf (k, c) Hin eq_refl) as [[i [k' c']] E].
  unfold lookup_label. rewrite E. cbn.
  apply list_find_Some in E as (Hi & Hk & _). cbn in Hk. subst k'.
  apply list_elem_of_lookup_2 in Hi.
  f_equal. eapply NoDup_fst_functional; eassumption.
Qed.

Lemma lookup_label_None k (idf : IndexedFrame) :
  lookup_label k idf = None -> forall c, (k, c) ∉ idf.
Proof.
  unfold lookup_label. intros H c Hin.
  destruct (list_find _ idf) as [p|] eqn:E; [discriminate|].
  apply list_find_None in E. rewrite Forall_forall in E.
  apply (E _ Hin). reflexivity.
Qed.

Lemma reset_index_reindex (idf : IndexedFrame) arts days :
  reset_index ((fun k => (k, default (None, None) (lookup_label k idf)))
                 <$> from_product arts days)
  = arts ≫= block idf days.
Proof.
  unfold reset_index, from_product, block, cell.
  induction arts as [|a arts IH]; [reflexivity|].
  rewrite !bind_cons, !fmap_app, IH. f_equal.
  rewrite <- !list_fmap_compose. reflexivity.
Qed.

Lemma block_articles idf days a :
  Forall (fun r => article r = a) (block idf days a).
Proof.
  unfold block. apply Forall_fmap. apply Forall_forall. reflexivity.
Qed.

Lemma foldr_min_spec d0 ds :
  foldr Z.min d0 ds ∈ d0 :: ds /\ forall d, d ∈ d0 :: ds -> foldr Z.min d0 ds <= d.
Proof.
  induction ds as [|x ds [IH1 IH2]]; cbn [foldr].
  - split; [left|]. intros d Hd. apply list_elem_of_singleton in Hd. lia.
  - split.
    + destruct (Z.min_spec x (foldr Z.min d0 ds)) as [[_ ->]|[_ ->]].
      * right. left.
      * apply elem_of_cons in IH1 as [->|IH1]; [left|right; right; exact IH1].
    + intros d Hd. apply elem_of_cons in Hd as [->|Hd].
      * specialize (IH2 d0 ltac:(left)). lia.
      * apply elem_of_cons in Hd as [->|Hd]; [lia|].
        specialize (IH2 d ltac:(right; exact Hd)). lia.
Qed.

Lemma foldr_max_spec d0 ds :
  foldr Z.max d0 ds ∈ d0 :: ds /\ forall d, d ∈ d0 :: ds -> d <= foldr Z.max d0 ds.
Proof.
  induction ds as [|x ds [IH1 IH2]]; cbn [foldr].
  - split; [left|]. intros d Hd. apply list_elem_of_singleton in Hd. lia.
  - split.
    + destruct (Z.max_spec x (foldr Z.max d0 ds)) as [[_ ->]|[_ ->]].
      * apply elem_of_cons in IH1 as [->|IH1]; [left|right; right; exact IH1].
      * right. left.
    + intros d Hd. apply elem_of_cons in Hd as [->|Hd].
      * specialize (IH2 d0 ltac:(left)). lia.
      * apply elem_of_cons in Hd as [->|Hd]; [lia|].
        specialize (IH2 d ltac:(right; exact Hd)). lia.
Qed.


Lemma last_valid_ffill s : last_valid (ffill s) = last_valid s.
Proof.
  induction s as [|x s IH] using rev_ind; [reflexivity|].
  rewrite ffill_snoc, !last_valid_snoc. destruct x as [v|]; [reflexivity|].
  destruct (last_valid s) as [w|]; [reflexivity|]. exact IH.
Qed.

Lemma views_filled blk : views <$> filled blk = ffill (views <$> blk).
Proof.
  unfold filled. apply list_eq. intros i.
  rewrite list_lookup_fmap, lookup_zip_with.
  destruct (decide (i < length blk)%nat) as [Hi|Hi].
  - destruct (lookup_lt_is_Some_2 blk i Hi) as [x Hx]. rewrite Hx. cbn.
    destruct (ffill (views <$> blk) !! i) as [v|] eqn:Hv; [reflexivity|].
    apply lookup_ge_None_1 in Hv. rewrite length_ffill, length_fmap in Hv. lia.
  - rewrite (lookup_ge_None_2 blk) by lia. cbn. symmetry.
    apply lookup_ge_None_2. rewrite length_ffill, length_fmap. lia.
Qed.

Lemma filled_articles a blk :
  Forall (fun r => article r = a) blk -> Forall (fun r => article r = a) (filled blk).
Proof.
  intros H. apply Forall_forall. intros r Hr. unfold filled in Hr.
  apply elem_of_lookup_zip_with_1 in Hr as (i & x & v & -> & Hx & _).
  cbn. rewrite Forall_forall in H. apply H.
  eapply list_elem_of_lookup_2. exact Hx.
Qed.

Lemma length_filled blk : length (filled blk) = length blk.
Proof.
  unfold filled. rewrite length_zip_with, length_ffill, length_fmap. lia.
Qed.

(** ** Sorting *)

Lemma insert_by_perm {A} (before : A -> A -> bool) x l :
  insert_by before x l ≡ₚ x :: l.
Proof.
  induction l as [|y l IH]; cbn [insert_by]; [reflexivity|].
  destruct (before x y); [reflexivity|].
  rewrite IH. apply Permutation_swap.
Qed.

Lemma sort_by_perm {A} (before : A -> A -> bool) l : sort_by before l ≡ₚ l.
Proof.
  unfold sort_by. induction l as [|x l IH]; cbn [foldr]; [reflexivity|].
  rewrite insert_by_perm, IH. reflexivity.
Qed.

Lemma insert_by_sorted {A} (before : A -> A -> bool) x l :
  (forall a b, before a b = false -> before b a = true) ->
  (forall a b c, before a b = true -> before b c = true -> before a c = true) ->
  StronglySorted (fun a b => before a b = true) l ->
  StronglySorted (fun a b => before a b = true) (insert_by before x l).
Proof.
  intros Htot Htrans. induction 1 as [|y l Hl IH Hy]; cbn [insert_by].
  - repeat constructor.
  - destruct (before x y) eqn:Hxy.
    + constructor; [constructor; assumption|].
      constructor; [exact Hxy|].
      eapply Forall_impl; [exact Hy|]. cbn. intros z Hz. eauto.
    + constructor; [exact IH|].
      rewrite insert_by_perm. constructor; [apply Htot; exact Hxy|exact Hy].
Qed.

Lemma sort_by_sorted {A} (before : A -> A -> bool) l :
  (forall a b, before a b = false -> before b a = true) ->
  (forall a b c, before a b = true -> before b c = true -> before a c = true) ->
  StronglySorted (fun a b => before a b = true) (sort_by before l).
Proof.
  intros Htot Htrans. unfold sort_by.
  induction l as [|x l IH]; cbn [foldr]; [constructor|].
  apply insert_by_sorted; assumption.
Qed.

(** Stability: the elements of a class of equal elements keep their
    order. *)
Lemma insert_by_stable {A} (before : A -> A -> bool) (P : A -> Prop)
  `{!forall x, Decision (P x)} x l :
  (forall y, P x -> P y -> before x y = true) ->
  filter P (insert_by before x l) = filter P (x :: l).
Proof.
  intros Hcls. induction l as [|y l IH]; cbn [insert_by]; [reflexivity|].
  destruct (before x y) eqn:Hxy; [reflexivity|].
  rewrite filter_cons, IH. rewrite !(filter_cons P x), !(filter_cons P y).
  destruct (decide (P x)) as [Hx|Hx]; [|reflexivity].
  destruct (decide (P y)) as [Hy|Hy]; [|reflexivity].
  rewrite (Hcls y Hx Hy) in Hxy. discriminate.
Qed.

Lemma sort_by_stable {A} (before : A -> A -> bool) (P : A -> Prop)
  `{!forall x, Decision (P x)} l :
  (forall x y, P x -> P y -> before x y = true) ->
  filter P (sort_by before l) = filter P l.
Proof.
  intros Hcls. unfold sort_by. induction l as [|x l IH]; [reflexivity|].
  cbn [foldr]. rewrite insert_by_stable by (apply Hcls).
  rewrite !filter_cons, IH. reflexivity.
Qed.


(** ** The ranking of [nlargest] *)

Lemma valid_nan_perm (s : list (string * option Z)) :
  ((fun e : string * Z => (e.1, Some e.2)) <$> valid_entries s) ++ nan_entries s
  ≡ₚ s.
Proof.
  unfold valid_entries, nan_entries.
  induction s as [|[a [v|]] s IH]; [reflexivity| |].
  - cbn [omap list_omap fmap option_fmap option_map fst snd].
    rewrite filter_cons_False by (cbn; congruence).
    cbn. constructor. exact IH.
  - cbn [omap list_omap fmap option_fmap option_map fst snd].
    rewrite filter_cons_True by reflexivity.
    rewrite <- Permutation_middle. constructor. exact IH.
Qed.

Lemma ranking_perm s : ranking s ≡ₚ s.
Proof.
  unfold ranking. rewrite sort_by_perm. apply valid_nan_perm.
Qed.

Lemma ranking_sorted s : StronglySorted ranked_before (ranking s).
Proof.
  unfold ranking. apply StronglySorted_app_2.
  - intros e1 e2 H1 H2. apply list_elem_of_fmap in H1 as (x & -> & _).
    unfold nan_entries in H2. apply list_elem_of_filter in H2 as [H2 _].
    unfold ranked_before, below. rewrite H2. exact I.
  - apply (StronglySorted_fmap _ (fun x y : string * Z => (y.2 <=? x.2) = true)).
    + intros x y H. unfold ranked_before, below. cbn. lia.
    + apply sort_by_sorted.
      * intros a b H. lia.
      * intros a b c H1 H2. lia.
  - unfold nan_entries. induction s as [|e s IH]; [constructor|].
    rewrite filter_cons. destruct (decide (e.2 = None)) as [He|He]; [|exact IH].
    constructor; [exact IH|]. apply Forall_forall. intros e' He'.
    apply list_elem_of_filter in He' as [He' _].
    unfold ranked_before, below. rewrite He'. exact I.
Qed.

Lemma filter_embed_Some x (l : list (string * Z)) :
  filter (fun e : string * option Z => e.2 = Some x)
    ((fun e : string * Z => (e.1, Some e.2)) <$> l)
  = (fun e : string * Z => (e.1, Some e.2))
      <$> filter (fun e : string * Z => e.2 = x) l.
Proof.
  induction l as [|e l IH]; [reflexivity|].
  cbn [fmap list_fmap]. rewrite !filter_cons. cbn [snd].
  destruct (decide (e.2 = x)) as [He|He].
  - rewrite decide_True by congruence. cbn [fmap list_fmap]. f_equal. exact IH.
  - rewrite decide_False by congruence. exact IH.
Qed.

Lemma filter_embed_None
  `{!forall e : string * option Z, Decision (e.2 = None)}
  (l : list (string * Z)) :
  filter (fun e : string * option Z => e.2 = None)
    ((fun e : string * Z => (e.1, Some e.2)) <$> l) = [].
Proof.
  apply filter_none. apply Forall_fmap, Forall_forall. intros e _. discriminate.
Qed.

Lemma filter_valid_entries x (s : list (string * option Z)) :
  filter (fun e : string * option Z => e.2 = Some x) s
  = (fun e : string * Z => (e.1, Some e.2))
      <$> filter (fun e : string * Z => e.2 = x) (valid_entries s).
Proof.
  unfold valid_entries. induction s as [|[a [v|]] s IH]; [reflexivity| |].
  - cbn [omap list_omap fmap option_fmap option_map fst snd].
    rewrite !filter_cons. cbn [snd].
    destruct (decide (v = x)) as [He|He].
    + rewrite decide_True by congruence. cbn [fmap list_fmap]. f_equal. exact IH.
    + rewrite decide_False by congruence. exact IH.
  - cbn [omap list_omap fmap option_fmap option_map fst snd].
    rewrite filter_cons_False by discriminate. exact IH.
Qed.

(** Ties keep the order of the series. *)
Lemma ranking_stable s v :
  filter (fun e : string * option Z => e.2 = v) (ranking s)
  = filter (fun e : string * option Z => e.2 = v) s.
Proof.
  unfold ranking. rewrite filter_app. destruct v as [x|].
  - rewrite filter_embed_Some.
    rewrite sort_by_stable by (intros a b Ha Hb; lia).
    rewrite (filter_none _ (nan_entries s)).
    + rewrite app_nil_r. symmetry. apply filter_valid_entries.
    + apply Forall_forall. intros e He. unfold nan_entries in He.
      apply list_elem_of_filter in He as [He _]. congruence.
  - rewrite filter_embed_None. cbn [app]. unfold nan_entries.
    rewrite list_filter_filter. apply list_filter_iff. tauto.
Qed.

Lemma length_nlargest n s : length (nlargest n s) = Nat.min n (length s).
Proof.
  unfold nlargest. rewrite length_take, ranking_perm. reflexivity.
Qed.

Section NormalizerFacts.

Variable parse_date : string -> option Z.

(** The dense frame: one filled block per article, in the order in which
    the articles first appear, over the days from the earliest to the
    latest date of the frame. *)
Lemma normalized_inv df dense :
  normalized parse_date df = Ok dense ->
  exists dates lo hi,
    rmap (to_datetime parse_date) (date <$> df) = Ok dates
    /\ lo ∈ dates /\ hi ∈ dates /\ (forall d, d ∈ dates -> lo <= d <= hi)
    /\ NoDup ((set_index df dates).*1)
    /\ dense = unique (article <$> df)
                 ≫= (fun a => filled (block (set_index df dates)
                                        (date_range lo hi) a)).
Proof.
  unfold normalized. intros H.
  destruct (rmap (to_datetime parse_date) (date <$> df)) as [dates|] eqn:Hd;
    [|discriminate].
  cbn [rbind] in H. destruct dates as [|d0 ds]; [discriminate|].
  unfold reindex in H.
  destruct (decide (NoDup (set_index df (d0 :: ds)).*1)) as [Hnd|];
    [|discriminate].
  cbn [rbind] in H. injection H as <-.
  destruct (foldr_min_spec d0 ds) as [Hlo1 Hlo2].
  destruct (foldr_max_spec d0 ds) as [Hhi1 Hhi2].
  exists (d0 :: ds), (foldr Z.min d0 ds), (foldr Z.max d0 ds).
  split_and!; try assumption; try reflexivity.
  - intros d Hin. split; [apply Hlo2|apply Hhi2]; exact Hin.
  - rewrite reset_index_reindex.
    apply groupby_transform_ffill_blocks; [apply NoDup_unique|].
    intros a _. apply block_articles.
Qed.


Lemma elem_of_set_index df dates a d v rk :
  rmap (to_datetime parse_date) (date <$> df) = Ok dates ->
  ((a, d), (v, rk)) ∈ set_index df dates <->
  exists q, q ∈ df /\ article q = a
            /\ to_datetime parse_date (date q) = Ok d
            /\ views q = v /\ rank q = rk.
Proof.
  intros Hd. apply rmap_Forall2 in Hd. apply Forall2_fmap_l in Hd.
  unfold set_index. split.
  - intros Hin. apply elem_of_lookup_zip_with_1 in Hin as (i & q & d' & E & Hq & Hd').
    injection E as -> -> -> ->. exists q.
    pose proof (Forall2_lookup_lr _ _ _ _ _ _ Hd Hq Hd') as Hp. cbn in Hp.
    split_and!; try reflexivity; [|exact Hp].
    eapply list_elem_of_lookup_2. exact Hq.
  - intros (q & Hq & <- & Hp & <- & <-).
    apply list_elem_of_lookup_1 in Hq as [i Hq].
    destruct (Forall2_lookup_l _ _ _ _ _ Hd Hq) as (d' & Hd' & Hp').
    cbn in Hp'. rewrite Hp in Hp'. injection Hp' as <-.
    apply list_elem_of_lookup. exists i.
    rewrite lookup_zip_with, Hq. cbn. rewrite Hd'. reflexivity.
Qed.

Lemma observation_date df dates a d v :
  rmap (to_datetime parse_date) (date <$> df) = Ok dates ->
  observation parse_date df a d v -> d ∈ dates.
Proof.
  intros Hd (q & Hq & _ & Hp & _).
  apply rmap_Forall2 in Hd. apply Forall2_fmap_l in Hd.
  apply list_elem_of_lookup_1 in Hq as [i Hq].
  destruct (Forall2_lookup_l _ _ _ _ _ Hd Hq) as (d' & Hd' & Hp').
  cbn in Hp'. rewrite Hp in Hp'. injection Hp' as <-.
  eapply list_elem_of_lookup_2. exact Hd'.
Qed.

Lemma observation_article df a d v :
  observation parse_date df a d v -> a ∈ unique (article <$> df).
Proof.
  intros (q & Hq & <- & _). apply elem_of_unique.
  apply list_elem_of_fmap_2. exact Hq.
Qed.

(** The cell of a label holds the views of the observation with that
    label. *)
Lemma observation_cell df dates a d v :
  rmap (to_datetime parse_date) (date <$> df) = Ok dates ->
  NoDup ((set_index df dates).*1) ->
  observation parse_date df a d v ->
  (cell (set_index df dates) (a, d)).1 = v.
Proof.
  intros Hd Hnd (q & Hq & Ha & Hp & Hv). unfold cell.
  rewrite (lookup_label_elem (a, d) (v, rank q)); [reflexivity|assumption|].
  apply elem_of_set_index; [assumption|]. exists q. auto.
Qed.

Lemma cell_observation df dates a d x :
  rmap (to_datetime parse_date) (date <$> df) = Ok dates ->
  (cell (set_index df dates) (a, d)).1 = Some x ->
  observation parse_date df a d (Some x).
Proof.
  intros Hd. unfold cell.
  destruct (lookup_label (a, d) (set_index df dates)) as [[v rk]|] eqn:E;
    [|discriminate].
  cbn. intros ->. apply lookup_label_Some in E.
  apply (elem_of_set_index _ _ _ _ _ _ Hd) in E as (q & Hq & Ha & Hp & Hv & _).
  exists q. auto.
Qed.

(** A row of a filled block: the day at its position and the last valid
    cell up to it. *)
Lemma elem_of_filled_block idf lo hi a r :
  r ∈ filled (block idf (date_range lo hi) a) ->
  exists j : nat,
    lo + Z.of_nat j <= hi
    /\ article r = a
    /\ date r = Timestamp (lo + Z.of_nat j)
    /\ rank r = (cell idf (a, lo + Z.of_nat j)).2
    /\ views r = last_valid
                   (take (S j) ((fun d => (cell idf (a, d)).1)
                                  <$> date_range lo hi)).
Proof.
  unfold filled. intros Hin.
  apply elem_of_lookup_zip_with_1 in Hin as (j & x & v & -> & Hx & Hv).
  assert (Hviews : views <$> block idf (date_range lo hi) a
                   = (fun d => (cell idf (a, d)).1) <$> date_range lo hi).
  { unfold block. rewrite <- list_fmap_compose. reflexivity. }
  rewrite Hviews in Hv.
  pose proof (lookup_lt_Some _ _ _ Hv) as Hj.
  rewrite length_ffill in Hj. rewrite ffill_lookup in Hv by assumption.
  injection Hv as <-.
  unfold block in Hx. rewrite list_lookup_fmap in Hx.
  destruct (date_range lo hi !! j) as [d|] eqn:Hday; [|discriminate].
  cbn in Hx. injection Hx as <-.
  unfold date_range in Hday. apply lookup_seqZ in Hday as [-> Hlt].
  exists j. cbn. split_and!; try reflexivity. lia.
Qed.

Lemma block_views_lookup idf lo hi a (i : nat) :
  lo + Z.of_nat i <= hi ->
  ((fun d => (cell idf (a, d)).1) <$> date_range lo hi) !! i
  = Some (cell idf (a, lo + Z.of_nat i)).1.
Proof.
  intros Hi. rewrite list_lookup_fmap. unfold date_range.
  rewrite lookup_seqZ_lt by lia. reflexivity.
Qed.

(** The views of a row of the dense frame are the nearest prior valid
    observation of its article. *)
Lemma normalized_nearest_prior df dense r :
  normalized parse_date df = Ok dense -> r ∈ dense ->
  article r ∈ article <$> df /\
  exists t, date r = Timestamp t
            /\ nearest_prior parse_date df (article r) t (views r).
Proof.
  intros Hn Hr.
  destruct (normalized_inv df dense Hn)
    as (dates & lo & hi & Hd & Hlo & Hhi & Hrange & Hnd & ->).
  apply list_elem_of_bind in Hr as (a & Hr & Ha).
  apply elem_of_filled_block in Hr as (j & Hj & Hart & Hdate & _ & Hv).
  rewrite Hart. split; [apply elem_of_unique; exact Ha|].
  exists (lo + Z.of_nat j). split; [exact Hdate|].
  set (s := (fun d => (cell (set_index df dates) (a, d)).1)
              <$> date_range lo hi) in *.
  assert (Hcell : forall i : nat, (i <= j)%nat ->
            take (S j) s !! i
            = Some (cell (set_index df dates) (a, lo + Z.of_nat i)).1).
  { intros i Hi. rewrite lookup_take_lt by lia.
    apply block_views_lookup. lia. }
  assert (Hlen : length (take (S j) s) = S j).
  { rewrite length_take. subst s. rewrite length_fmap.
    unfold date_range. rewrite length_seqZ. lia. }
  unfold nearest_prior. destruct (views r) as [x|] eqn:Hx.
  - symmetry in Hv. apply last_valid_Some in Hv as (i & Hi & Hafter).
    pose proof (lookup_lt_Some _ _ _ Hi) as Hlt. rewrite Hlen in Hlt.
    rewrite Hcell in Hi by lia. injection Hi as Hi.
    exists (lo + Z.of_nat i). split; [lia|]. split.
    + eapply cell_observation; eassumption.
    + intros t'' w Ht Hobs.
      pose proof (observation_cell _ _ _ _ _ Hd Hnd Hobs) as Hw.
      specialize (Hafter (Z.to_nat (t'' - lo)) ltac:(lia)).
      rewrite Hcell in Hafter by lia.
      replace (lo + Z.of_nat (Z.to_nat (t'' - lo))) with t'' in Hafter by lia.
      congruence.
  - intros t' w Ht Hobs.
    pose proof (observation_cell _ _ _ _ _ Hd Hnd Hobs) as Hw.
    pose proof (observation_date _ _ _ _ _ Hd Hobs) as Hin.
    apply Hrange in Hin.
    symmetry in Hv.
    pose proof (last_valid_None _ Hv (Z.to_nat (t' - lo))) as Hnone.
    rewrite Hcell in Hnone by lia.
    replace (lo + Z.of_nat (Z.to_nat (t' - lo))) with t' in Hnone by lia.
    rewrite <- Hw. apply Hnone. reflexivity.
Qed.


Lemma block_lookup idf lo hi a (j : nat) :
  lo + Z.of_nat j <= hi ->
  block idf (date_range lo hi) a !! j
  = Some (mk_row a (cell idf (a, lo + Z.of_nat j)).1
            (cell idf (a, lo + Z.of_nat j)).2 (Timestamp (lo + Z.of_nat j))).
Proof.
  intros Hj. unfold block, date_range. rewrite list_lookup_fmap.
  rewrite lookup_seqZ_lt by lia. reflexivity.
Qed.

Lemma block_views idf days a :
  views <$> block idf days a = (fun d => (cell idf (a, d)).1) <$> days.
Proof. unfold block. rewrite <- list_fmap_compose. reflexivity. Qed.

Lemma filled_block_lookup idf lo hi a (j : nat) :
  lo + Z.of_nat j <= hi ->
  filled (block idf (date_range lo hi) a) !! j
  = Some (mk_row a
            (last_valid (take (S j) ((fun d => (cell idf (a, d)).1)
                                       <$> date_range lo hi)))
            (cell idf (a, lo + Z.of_nat j)).2
            (Timestamp (lo + Z.of_nat j))).
Proof.
  intros Hj. unfold filled. rewrite lookup_zip_with.
  rewrite block_lookup by assumption. rewrite block_views. cbn.
  rewrite ffill_lookup; [reflexivity|].
  rewrite length_fmap. unfold date_range. rewrite length_seqZ. lia.
Qed.

Lemma length_block idf lo hi a :
  length (block idf (date_range lo hi) a) = Z.to_nat (hi - lo + 1).
Proof. unfold block, date_range. rewrite length_fmap, length_seqZ. reflexivity. Qed.

(** The articles, the groups and the latest date of the dense frame. *)
Lemma normalized_groups df dense :
  normalized parse_date df = Ok dense ->
  exists idf lo hi,
    lo <= hi
    /\ (forall a d v, observation parse_date df a d v -> lo <= d <= hi)
    /\ (forall a d v, observation parse_date df a d v ->
          (cell idf (a, d)).1 = v)
    /\ dense = unique (article <$> df)
                 ≫= (fun a => filled (block idf (date_range lo hi) a))
    /\ unique (article <$> dense) = unique (article <$> df)
    /\ (forall a, a ∈ unique (article <$> df) ->
          group dense a = filled (block idf (date_range lo hi) a))
    /\ latest dense hi.
Proof.
  intros Hn.
  destruct (normalized_inv df dense Hn)
    as (dates & lo & hi & Hd & Hlo & Hhi & Hrange & Hnd & Hdense).
  assert (Hle : lo <= hi) by (apply Hrange in Hlo; lia).
  assert (Hblk : forall a, a ∈ unique (article <$> df) ->
    filled (block (set_index df dates) (date_range lo hi) a) <> []
    /\ Forall (fun r => article r = a)
         (filled (block (set_index df dates) (date_range lo hi) a))).
  { intros a _. split; [|apply filled_articles, block_articles].
    intros E. apply (f_equal length) in E.
    rewrite length_filled, length_block in E. cbn in E. lia. }
  exists (set_index df dates), lo, hi. split_and!.
  - exact Hle.
  - intros a d v Hobs. apply Hrange. eapply observation_date; eassumption.
  - intros a d v Hobs. eapply observation_cell; eassumption.
  - exact Hdense.
  - rewrite Hdense. apply unique_blocks; [apply NoDup_unique|exact Hblk].
  - intros a Ha. rewrite Hdense.
    rewrite group_blocks; [|apply NoDup_unique|intros; apply Hblk; assumption].
    rewrite decide_True by assumption. reflexivity.
  - split.
    + destruct dates as [|d0 ds]; [inversion Hlo|].
      destruct df as [|q df]; [discriminate|].
      exists (mk_row (article q)
                (last_valid (take (S (Z.to_nat (hi - lo)))
                   ((fun d => (cell (set_index (q :: df) (d0 :: ds))
                                 (article q, d)).1) <$> date_range lo hi)))
                (cell (set_index (q :: df) (d0 :: ds)) (article q, hi)).2
                (Timestamp hi)).
      split; [|reflexivity]. rewrite Hdense.
      apply list_elem_of_bind. exists (article q). split.
      * apply list_elem_of_lookup. exists (Z.to_nat (hi - lo)).
        rewrite filled_block_lookup by lia.
        replace (lo + Z.of_nat (Z.to_nat (hi - lo))) with hi by lia.
        reflexivity.
      * cbn. left.
    + intros r t Hr Ht. rewrite Hdense in Hr.
      apply list_elem_of_bind in Hr as (a & Hr & _).
      apply elem_of_filled_block in Hr as (j & Hj & _ & Hdate & _).
      rewrite Hdate in Ht. injection Ht as <-. exact Hj.
Qed.


Lemma latest_unique dense hi hi' : latest dense hi -> latest dense hi' -> hi = hi'.
Proof.
  intros [(r & Hr & Hd) H] [(r' & Hr' & Hd') H'].
  specialize (H r' hi' Hr' Hd'). specialize (H' r hi Hr Hd). lia.
Qed.

Lemma parsed_date df dates q :
  rmap (to_datetime parse_date) (date <$> df) = Ok dates ->
  q ∈ df -> exists d, to_datetime parse_date (date q) = Ok d.
Proof.
  intros Hd Hq. apply rmap_Forall2 in Hd. apply Forall2_fmap_l in Hd.
  apply list_elem_of_lookup_1 in Hq as [i Hq].
  destruct (Forall2_lookup_l _ _ _ _ _ Hd Hq) as (d & _ & Hp).
  exists d. exact Hp.
Qed.

Lemma normalized_parsed df dense q :
  normalized parse_date df = Ok dense ->
  q ∈ df -> exists d, to_datetime parse_date (date q) = Ok d.
Proof.
  intros Hn. destruct (normalized_inv df dense Hn) as (dates & ? & ? & Hd & _).
  eapply parsed_date. exact Hd.
Qed.

Lemma group_keys_perm df : group_keys df ≡ₚ unique (article <$> df).
Proof. apply sort_by_perm. Qed.

(** The entries of the series of last values: one per article, holding
    the views of its row on the latest date. *)
Lemma groupby_last_normalized df dense :
  normalized parse_date df = Ok dense ->
  (groupby_last dense).*1 ≡ₚ unique (article <$> df)
  /\ forall a v, (a, v) ∈ groupby_last dense <->
       a ∈ article <$> df /\
       exists r hi, latest dense hi /\ r ∈ dense /\ article r = a
                    /\ date r = Timestamp hi /\ views r = v.
Proof.
  intros Hn.
  destruct (normalized_groups df dense Hn)
    as (idf & lo & hi & Hle & _ & _ & Hdense & Huniq & Hgroup & Hlatest).
  assert (Hkeys : (groupby_last dense).*1 = group_keys dense).
  { unfold groupby_last. rewrite <- list_fmap_compose.
    apply list_fmap_id. }
  assert (Hlast : forall a, a ∈ unique (article <$> df) ->
    exists r, r ∈ dense /\ article r = a /\ date r = Timestamp hi
              /\ views r = last_valid (views <$> group dense a)).
  { intros a Ha. rewrite (Hgroup a Ha), views_filled, last_valid_ffill.
    rewrite block_views.
    eexists. split; [|split_and!; cycle 2].
    - rewrite Hdense. apply list_elem_of_bind. exists a.
      split; [|exact Ha]. apply list_elem_of_lookup.
      exists (Z.to_nat (hi - lo)). apply filled_block_lookup. lia.
    - cbn. rewrite take_ge; [reflexivity|].
      rewrite length_fmap. unfold date_range. rewrite length_seqZ. lia.
    - reflexivity.
    - cbn. f_equal. lia. }
  split.
  - rewrite Hkeys, group_keys_perm, Huniq. reflexivity.
  - intros a v. unfold groupby_last. rewrite list_elem_of_fmap. split.
    + intros (a' & [= -> ->] & Ha).
      rewrite group_keys_perm, Huniq in Ha.
      split; [apply elem_of_unique; exact Ha|].
      destruct (Hlast a' Ha) as (r & Hr & Hart & Hdate & Hv).
      exists r, hi. auto.
    + intros (Ha & r & hi' & Hl & Hr & Hart & Hdate & Hv).
      apply elem_of_unique in Ha.
      exists a. split; [|rewrite group_keys_perm, Huniq; exact Ha].
      f_equal. rewrite <- Hv.
      rewrite (latest_unique _ _ _ Hl Hlatest) in Hdate.
      destruct (Hlast a Ha) as (r' & Hr' & Hart' & Hdate' & <-).
      (* both rows sit at position [hi - lo] of the block of [a] *)
      rewrite Hdense in Hr, Hr'.
      apply list_elem_of_bind in Hr as (b & Hr & _).
      apply list_elem_of_bind in Hr' as (b' & Hr' & _).
      apply elem_of_filled_block in Hr as (j & _ & Hb & Hd1 & _ & Hv1).
      apply elem_of_filled_block in Hr' as (j' & _ & Hb' & Hd2 & _ & Hv2).
      rewrite Hdate in Hd1. rewrite Hdate' in Hd2.
      injection Hd1 as Hd1. injection Hd2 as Hd2.
      assert (j = j') as -> by lia.
      assert (b = a) as -> by congruence.
      assert (b' = a) as -> by congruence.
      rewrite Hv1, Hv2. reflexivity.
Qed.

End NormalizerFacts.

(** ** The normalizer *)

Lemma process_wiki_data_rows parse_date df out :
  process_wiki_data parse_date df = Ok out ->
  exists dense,
    normalized parse_date df = Ok dense
    /\ out = isin_filter ((top_articles TOP_ARTICLES dense).*1) dense.
Proof.
  unfold process_wiki_data. intros H.
  destruct (normalized parse_date df) as [dense|]; [|discriminate].
  cbn in H. injection H as <-. exists dense. split; reflexivity.
Qed.



(** C10. When every article of the frame has a row with valid views, the
    dense frame has, for every article, a row on the latest date with valid
    views, which is the entry of the article in the series of last values;
    every entry of that series is valid; and a missing value of the dense
    frame lies strictly before every valid observation of its article. *)
Theorem normalized_last_value_defined
  (parse_date : string -> option Z) (df dense : DataFrame) :
  (forall a, a ∈ article <$> df ->
     exists q, q ∈ df /\ article q = a /\ is_Some (views q)) ->
  normalized parse_date df = Ok dense ->
  exists hi,
    latest dense hi
    /\ (forall a, a ∈ article <$> df ->
          exists r x, r ∈ dense /\ article r = a /\ date r = Timestamp hi
                      /\ views r = Some x /\ (a, Some x) ∈ groupby_last dense)
    /\ (forall a v, (a, v) ∈ groupby_last dense ->
          a ∈ article <$> df /\ is_Some v)
    /\ (forall r t, r ∈ dense -> date r = Timestamp t -> views r = None ->
          forall t' x, observation parse_date df (article r) t' (Some x) ->
            t < t').
Proof.
  intros Hvalid Hn.
  destruct (normalized_groups parse_date df dense Hn)
    as (idf & lo & hi & Hle & Hrange & Hcell & Hdense & _ & _ & Hlatest).
  destruct (groupby_last_normalized parse_date df dense Hn) as [_ Hlast].
  assert (Hrow : forall a, a ∈ article <$> df ->
    exists r x, r ∈ dense /\ article r = a /\ date r = Timestamp hi
                /\ views r = Some x).
  { intros a Ha. destruct (Hvalid a Ha) as (q & Hq & Hart & [x Hx]).
    destruct (normalized_parsed parse_date df dense q Hn Hq) as [d Hd].
    assert (Hobs : observation parse_date df a d (Some x)) by (exists q; auto).
    pose proof (Hrange _ _ _ Hobs) as Hd'.
    pose proof (Hcell _ _ _ Hobs) as Hc.
    set (s := (fun d => (cell idf (a, d)).1) <$> date_range lo hi).
    assert (Hs : is_Some (last_valid (take (S (Z.to_nat (hi - lo))) s))).
    { apply (last_valid_is_Some _ (Z.to_nat (d - lo)) x).
      rewrite lookup_take_lt by lia. subst s.
      rewrite block_views_lookup by lia.
      replace (lo + Z.of_nat (Z.to_nat (d - lo))) with d by lia.
      rewrite Hc. reflexivity. }
    destruct Hs as [y Hy].
    exists (mk_row a (Some y) (cell idf (a, hi)).2 (Timestamp hi)), y.
    split_and!; try reflexivity.
    rewrite Hdense. apply list_elem_of_bind. exists a.
    split; [|apply elem_of_unique; exact Ha].
    apply list_elem_of_lookup. exists (Z.to_nat (hi - lo)).
    rewrite filled_block_lookup by lia. fold s. rewrite Hy.
    replace (lo + Z.of_nat (Z.to_nat (hi - lo))) with hi by lia. reflexivity. }
  exists hi. split_and!.
  - exact Hlatest.
  - intros a Ha. destruct (Hrow a Ha) as (r & x & Hr & Hart & Hdate & Hv).
    exists r, x. split_and!; try assumption.
    apply Hlast. split; [exact Ha|]. exists r, hi. auto.
  - intros a v Hin1. pose proof (proj1 (proj1 (Hlast a v) Hin1)) as Ha.
    split; [exact Ha|].
    destruct (Hrow a Ha) as (r' & x & Hr' & Hart' & Hdate' & Hv').
    assert (Hin2 : (a, Some x) ∈ groupby_last dense).
    { apply Hlast. split; [exact Ha|]. exists r', hi. auto. }
    unfold groupby_last in Hin1, Hin2.
    apply list_elem_of_fmap in Hin1 as (b1 & [= <- ->] & _).
    apply list_elem_of_fmap in Hin2 as (b2 & [= <- E] & _).
    rewrite <- E. eexists. reflexivity.
  - intros r t Hr Hdate Hv t' x Hobs.
    destruct (normalized_nearest_prior parse_date df dense r Hn Hr)
      as (_ & t0 & Hdate0 & Hnp).
    rewrite Hdate in Hdate0. injection Hdate0 as <-.
    rewrite Hv in Hnp. cbn in Hnp.
    destruct (Z.lt_ge_cases t t') as [Hlt|Hge]; [exact Hlt|].
    specialize (Hnp t' (Some x) Hge Hobs). discriminate.
Qed.

(** C2. The selection holds [min n d] entries for a frame with [d] distinct
    articles, no article twice; the value of an entry is the views of its
    article on the latest date of the dense frame; the entries are in
    descending order of value (a missing value last); an article left out
    has a value below every selected one; and entries of equal value are
    taken in the order of the series of last values, from its start. *)
Theorem top_articles_selection
  (parse_date : string -> option Z) (df dense : DataFrame) (n : nat) :
  normalized parse_date df = Ok dense ->
  let top := top_articles n dense in
  length top = Nat.min n (length (unique (article <$> df)))
  /\ NoDup (top.*1)
  /\ (forall a v, (a, v) ∈ top ->
        a ∈ article <$> df /\
        exists r hi, latest dense hi /\ r ∈ dense /\ article r = a
                     /\ date r = Timestamp hi /\ views r = v)
  /\ StronglySorted ranked_before top
  /\ (forall b w, (b, w) ∈ groupby_last dense -> b ∉ top.*1 ->
        forall e, e ∈ top -> below w e.2)
  /\ (forall v,
        filter (fun e : string * option Z => e.2 = v) top
        `prefix_of` filter (fun e : string * option Z => e.2 = v)
                      (groupby_last dense)).
Proof.
  intros Hn top.
  destruct (groupby_last_normalized parse_date df dense Hn) as [Hkeys Hlast].
  subst top. unfold top_articles, nlargest.
  set (s := groupby_last dense) in *.
  pose proof (ranking_perm s) as Hperm.
  pose proof (ranking_sorted s) as Hsorted.
  rewrite <- (take_drop n (ranking s)) in Hsorted.
  split_and!.
  - rewrite length_take, Hperm. f_equal.
    rewrite <- (length_fmap fst s), Hkeys. reflexivity.
  - apply (sublist_NoDup _ ((ranking s).*1)).
    + rewrite Hperm, Hkeys. apply NoDup_unique.
    + apply fmap_sublist, sublist_take.
  - intros a v Hin. apply Hlast. rewrite <- Hperm.
    apply elem_of_take in Hin as (i & Hi & _).
    eapply list_elem_of_lookup_2. exact Hi.
  - eapply StronglySorted_app_1_l. exact Hsorted.
  - intros b w Hin Hb e He.
    rewrite <- Hperm, <- (take_drop n (ranking s)) in Hin.
    apply elem_of_app in Hin as [Hin|Hin].
    + exfalso. apply Hb. apply list_elem_of_fmap. exists (b, w). auto.
    + apply (StronglySorted_app_1_elem_of _ _ _ _ _ Hsorted He Hin).
  - intros v. rewrite <- (ranking_stable s v).
    destruct (prefix_take (ranking s) n) as [k Hk].
    rewrite Hk at 2. rewrite filter_app. eexists. reflexivity.
Qed.

(** ** Frames that are already dense and filled *)

Lemma fmap_eq_Forall2 {A B C} (f : A -> C) (g : B -> C) l1 l2 :
  f <$> l1 = g <$> l2 -> Forall2 (fun x y => f x = g y) l1 l2.
Proof.
  revert l2. induction l1 as [|x l1 IH]; intros [|y l2] H; try discriminate.
  - constructor.
  - injection H as Hxy H. constructor; auto.
Qed.

Lemma Forall2_eq_fmap {A B} (h : B -> A) l1 l2 :
  Forall2 (fun x y => x = h y) l1 l2 -> l1 = h <$> l2.
Proof. induction 1; cbn; congruence. Qed.

Lemma rmap_ok {A B} (f : A -> result B) (g : A -> B) l :
  Forall (fun x => f x = Ok (g x)) l -> rmap f l = Ok (g <$> l).
Proof.
  induction 1 as [|x l Hx _ IH]; [reflexivity|].
  cbn. rewrite Hx. cbn. rewrite IH. reflexivity.
Qed.

Lemma NoDup_from_product arts days :
  NoDup arts -> NoDup days -> NoDup (from_product arts days).
Proof.
  intros Ha Hd. unfold from_product. apply NoDup_bind.
  - intros a1 a2 k _ _ H1 H2.
    apply list_elem_of_fmap in H1 as (d1 & -> & _).
    apply list_elem_of_fmap in H2 as (d2 & [= <- _] & _). reflexivity.
  - intros a _. apply NoDup_fmap_2; [|exact Hd]. intros d1 d2 [=]. assumption.
  - exact Ha.
Qed.

Lemma elem_of_from_product arts days a d :
  (a, d) ∈ from_product arts days <-> a ∈ arts /\ d ∈ days.
Proof.
  unfold from_product. rewrite list_elem_of_bind. split.
  - intros (a' & Hin & Ha). apply list_elem_of_fmap in Hin as (d' & [= -> ->] & Hd).
    auto.
  - intros [Ha Hd]. exists a. split; [|exact Ha].
    apply list_elem_of_fmap. exists d. auto.
Qed.

(** A series in which no missing value follows a valid one is its own
    forward fill. *)
Lemma ffill_id s :
  (forall i j x, (i < j)%nat -> s !! i = Some (Some x) -> s !! j = Some None ->
     False) ->
  ffill s = s.
Proof.
  induction s as [|y s IH] using rev_ind; intros H; [reflexivity|].
  rewrite ffill_snoc, IH.
  - f_equal. f_equal. destruct y as [v|]; [reflexivity|].
    destruct (last_valid s) as [w|] eqn:Hw; [|reflexivity].
    exfalso. apply last_valid_Some in Hw as (i & Hi & _).
    pose proof (lookup_lt_Some _ _ _ Hi) as Hlt.
    apply (H i (length s) w Hlt).
    + rewrite lookup_app_l by assumption. exact Hi.
    + rewrite lookup_app_r by lia. rewrite Nat.sub_diag. reflexivity.
  - intros i j x Hij Hi Hj. pose proof (lookup_lt_Some _ _ _ Hj) as Hlt.
    apply (H i j x Hij); rewrite lookup_app_l by lia; assumption.
Qed.

(** The forward fill of a series has no missing value after a valid one. *)
Lemma ffill_closed s i j x :
  (i < j)%nat -> ffill s !! i = Some (Some x) -> ffill s !! j = Some None ->
  False.
Proof.
  intros Hij Hi Hj.
  pose proof (lookup_lt_Some _ _ _ Hj) as Hlt. rewrite length_ffill in Hlt.
  rewrite ffill_lookup in Hi by lia. rewrite ffill_lookup in Hj by lia.
  injection Hi as Hi. injection Hj as Hj.
  apply last_valid_Some in Hi as (k & Hk & _).
  pose proof (lookup_lt_Some _ _ _ Hk) as Hk'. rewrite length_take in Hk'.
  rewrite lookup_take_lt in Hk by lia.
  assert (Hs : is_Some (last_valid (take (S j) s))).
  { apply (last_valid_is_Some _ k x). rewrite lookup_take_lt by lia. exact Hk. }
  rewrite Hj in Hs. destruct Hs as [? ?]. discriminate.
Qed.

Lemma set_views_id blk : zip_with set_views blk (views <$> blk) = blk.
Proof.
  induction blk as [|[a v rk d] blk IH]; [reflexivity|].
  cbn. unfold set_views at 1. cbn. f_equal. exact IH.
Qed.

(** When at most [n] articles are present, the selection keeps them all. *)
Lemma isin_filter_all n dense :
  (length (unique (article <$> dense)) <= n)%nat ->
  isin_filter ((top_articles n dense).*1) dense = dense.
Proof.
  intros Hlen. unfold isin_filter. apply filter_all.
  apply Forall_forall. intros r Hr.
  unfold top_articles, nlargest. rewrite take_ge.
  - rewrite ranking_perm. unfold groupby_last.
    rewrite <- list_fmap_compose. rewrite list_fmap_id.
    rewrite group_keys_perm. apply elem_of_unique.
    apply list_elem_of_fmap_2. exact Hr.
  - rewrite ranking_perm. unfold groupby_last. rewrite length_fmap.
    rewrite group_keys_perm. exact Hlen.
Qed.

Lemma grid_rows (t : DataFrame) (grid : list (string * Z)) :
  Forall2 (fun r k => (article r, date r) = (k.1, Timestamp k.2)) t grid ->
  (set_index t (grid.*2)).*1 = grid
  /\ Forall2 (fun r k => (k, (views r, rank r)) ∈ set_index t (grid.*2)) t grid.
Proof.
  unfold set_index.
  induction 1 as [|r k t grid Hrk _ [IH1 IH2]]; [split; constructor|].
  injection Hrk as Ha Hd. csimpl. rewrite IH1, Ha. split.
  - destruct k; reflexivity.
  - constructor.
    + destruct k; left.
    + eapply Forall2_impl; [exact IH2|]. cbn. intros. right. assumption.
Qed.

Lemma block_grid idf arts days :
  (fun k : string * Z =>
     mk_row k.1 (cell idf k).1 (cell idf k).2 (Timestamp k.2))
    <$> from_product arts days
  = arts ≫= block idf days.
Proof.
  unfold from_product, block.
  induction arts as [|a arts IH]; [reflexivity|].
  rewrite !bind_cons, fmap_app, IH. f_equal.
  rewrite <- list_fmap_compose. reflexivity.
Qed.

Lemma foldr_min_max_range d0 ds lo hi :
  lo ∈ d0 :: ds -> hi ∈ d0 :: ds ->
  (forall d, d ∈ d0 :: ds -> lo <= d <= hi) ->
  foldr Z.min d0 ds = lo /\ foldr Z.max d0 ds = hi.
Proof.
  intros Hlo Hhi Hrange.
  destruct (foldr_min_spec d0 ds) as [Hm1 Hm2].
  destruct (foldr_max_spec d0 ds) as [HM1 HM2].
  apply Hrange in Hm1. apply Hrange in HM1.
  apply Hm2 in Hlo. apply HM2 in Hhi. lia.
Qed.

Lemma elem_of_date_range lo hi d : d ∈ date_range lo hi <-> lo <= d <= hi.
Proof. unfold date_range. rewrite elem_of_seqZ. lia. Qed.

Section Idempotence.

Variable parse_date : string -> option Z.

(** The dense frame of a frame that is already dense and filled is the
    frame itself. *)
Lemma normalized_fixed t :
  dense_grid t -> forward_filled t -> normalized parse_date t = Ok t.
Proof.
  intros (arts & lo & hi & Hne & Hnd & Hle & Hkeys) Hff.
  set (days := date_range lo hi) in *.
  set (grid := from_product arts days) in *.
  pose proof (fmap_eq_Forall2 _ _ _ _ Hkeys) as Hrows.
  destruct (grid_rows t grid Hrows) as [Hidx Hmem].
  set (idf := set_index t (grid.*2)) in *.
  assert (Hgrid : NoDup grid).
  { apply NoDup_from_product; [exact Hnd|apply NoDup_seqZ]. }
  (* every row is the row rebuilt from its label *)
  assert (Ht : t = arts ≫= block idf days).
  { rewrite <- block_grid. apply Forall2_eq_fmap.
    apply Forall2_same_length_lookup. split.
    - eapply Forall2_length. exact Hrows.
    - intros i r k Hr Hk.
      pose proof (Forall2_lookup_lr _ _ _ _ _ _ Hrows Hr Hk) as E.
      pose proof (Forall2_lookup_lr _ _ _ _ _ _ Hmem Hr Hk) as Hin.
      cbn in E, Hin. injection E as Ha Hd.
      unfold cell. rewrite (lookup_label_elem k (views r, rank r));
        [|rewrite Hidx; exact Hgrid|exact Hin].
      cbn. destruct r; cbn in *. congruence. }
  (* the dates *)
  assert (Hdates : rmap (to_datetime parse_date) (date <$> t) = Ok (grid.*2)).
  { assert (E : date <$> t = (fun k : string * Z => Timestamp k.2) <$> grid).
    { apply (f_equal (fmap snd)) in Hkeys.
      rewrite <- !list_fmap_compose in Hkeys. exact Hkeys. }
    rewrite E.
    rewrite (rmap_ok _ (fun c => match c with Timestamp d => d | _ => 0 end)).
    - rewrite <- list_fmap_compose. reflexivity.
    - apply Forall_fmap, Forall_forall. intros k _. reflexivity. }
  assert (Hin_dates : forall d, d ∈ grid.*2 <-> lo <= d <= hi).
  { intros d. rewrite <- elem_of_date_range. fold days. split.
    - intros Hd. apply list_elem_of_fmap in Hd as ([a d'] & -> & Hk).
      apply elem_of_from_product in Hk. tauto.
    - intros Hd. destruct arts as [|a arts']; [contradiction|].
      apply list_elem_of_fmap. exists (a, d). split; [reflexivity|].
      apply elem_of_from_product. split; [left|exact Hd]. }
  assert (Huniq : unique (article <$> t) = arts).
  { rewrite Ht at 1. apply unique_blocks; [exact Hnd|].
    intros a _. split; [|apply block_articles].
    intros E. apply (f_equal length) in E.
    unfold days in E. rewrite length_block in E. cbn in E. lia. }
  unfold normalized. rewrite Hdates. cbn [rbind].
  destruct (grid.*2) as [|d0 ds] eqn:Hds.
  { exfalso. assert (H : lo ∈ @nil Z) by (apply Hin_dates; lia). inversion H. }
  destruct (foldr_min_max_range d0 ds lo hi) as [-> ->];
    [apply Hin_dates; lia|apply Hin_dates; lia|apply Hin_dates|].
  rewrite Huniq. fold days. unfold reindex.
  rewrite decide_True by (fold idf; rewrite Hidx; exact Hgrid).
  cbn [rbind]. fold idf. rewrite reset_index_reindex.
  rewrite groupby_transform_ffill_blocks;
    [|exact Hnd|intros; apply block_articles].
  f_equal. etransitivity; [|symmetry; exact Ht]. apply Forall_bind_ext.
  apply Forall_forall. intros a Ha. unfold filled.
  rewrite ffill_id; [apply set_views_id|].
  intros i j x Hij Hi Hj. apply (Hff a i j x Hij).
  - rewrite Ht, group_blocks, decide_True;
      [exact Hi|exact Ha|exact Hnd|intros; apply block_articles].
  - rewrite Ht, group_blocks, decide_True;
      [exact Hj|exact Ha|exact Hnd|intros; apply block_articles].
Qed.

End Idempotence.

Lemma filter_blocks (fb : string -> DataFrame) (T arts : list string) :
  (forall a, Forall (fun r => article r = a) (fb a)) ->
  filter (fun r => article r ∈ T) (arts ≫= fb)
  = filter (fun a => a ∈ T) arts ≫= fb.
Proof.
  intros Hfb. induction arts as [|a arts IH]; [reflexivity|].
  rewrite bind_cons, filter_app, IH, filter_cons.
  destruct (decide (a ∈ T)) as [Ha|Ha].
  - rewrite bind_cons. f_equal. apply filter_all.
    eapply Forall_impl; [apply Hfb|]. cbn. intros r ->. exact Ha.
  - rewrite filter_none; [reflexivity|].
    eapply Forall_impl; [apply Hfb|]. cbn. intros r ->. exact Ha.
Qed.

Lemma filled_labels idf days a :
  (fun r => (article r, date r)) <$> filled (block idf days a)
  = (fun d => (a, Timestamp d)) <$> days.
Proof.
  unfold filled. apply list_eq. intros i.
  rewrite !list_lookup_fmap, lookup_zip_with.
  destruct (ffill (views <$> block idf days a) !! i) as [v|] eqn:Hv.
  - unfold block. rewrite list_lookup_fmap.
    destruct (days !! i) as [d|]; reflexivity.
  - apply lookup_ge_None_1 in Hv.
    rewrite length_ffill, length_fmap in Hv. unfold block in *.
    rewrite length_fmap in Hv. rewrite (lookup_ge_None_2 days) by lia.
    rewrite list_lookup_fmap, (lookup_ge_None_2 days) by lia. reflexivity.
Qed.

Lemma blocks_labels idf days (l : list string) :
  (fun r => (article r, date r)) <$> (l ≫= fun a => filled (block idf days a))
  = (fun k : string * Z => (k.1, Timestamp k.2)) <$> from_product l days.
Proof.
  unfold from_product. induction l as [|a l IH]; [reflexivity|].
  rewrite !bind_cons, !fmap_app, IH. f_equal.
  rewrite filled_labels, <- list_fmap_compose. reflexivity.
Qed.

Lemma forward_filled_valid df :
  Forall (fun r => is_Some (views r)) df -> forward_filled df.
Proof.
  intros Hall a i j x _ _ Hj.
  apply list_lookup_fmap_Some in Hj as (r & Hv & Hr).
  apply list_elem_of_lookup_2 in Hr. unfold group in Hr.
  apply list_elem_of_filter in Hr as [_ Hr].
  rewrite Forall_forall in Hall. destruct (Hall r Hr) as [y Hy]. congruence.
Qed.

Section Fixpoints.

Variable parse_date : string -> option Z.

Lemma process_wiki_data_fixed t :
  dense_grid t -> forward_filled t ->
  (length (unique (article <$> t)) <= TOP_ARTICLES)%nat ->
  process_wiki_data parse_date t = Ok t.
Proof.
  intros Hd Hf Hlen. unfold process_wiki_data.
  rewrite normalized_fixed by assumption. cbn [rbind].
  rewrite isin_filter_all by assumption. reflexivity.
Qed.

(** What [process_wiki_data] returns is dense, filled and has at most
    twenty articles. *)
Lemma process_wiki_data_shape df out :
  process_wiki_data parse_date df = Ok out ->
  dense_grid out /\ forward_filled out
  /\ (length (unique (article <$> out)) <= TOP_ARTICLES)%nat.
Proof.
  intros Hp.
  destruct (process_wiki_data_rows _ _ _ Hp) as (dense & Hn & Hout).
  destruct (normalized_groups parse_date df dense Hn)
    as (idf & lo & hi & Hle & _ & _ & Hdense & Huniq & _ & Hlatest).
  destruct (groupby_last_normalized parse_date df dense Hn) as [Hkeys _].
  set (T := (top_articles TOP_ARTICLES dense).*1) in *.
  set (arts := unique (article <$> df)) in *.
  set (fb := fun a => filled (block idf (date_range lo hi) a)) in *.
  assert (Hfb : forall a, Forall (fun r => article r = a) (fb a)).
  { intros a. apply filled_articles, block_articles. }
  assert (Hfbne : forall a, fb a <> []).
  { intros a E. apply (f_equal length) in E. unfold fb in E.
    rewrite length_filled, length_block in E. cbn in E. lia. }
  assert (Hout' : out = filter (fun a => a ∈ T) arts ≫= fb).
  { rewrite Hout, Hdense. apply filter_blocks. exact Hfb. }
  assert (Hnd : NoDup (filter (fun a => a ∈ T) arts)).
  { apply NoDup_filter, NoDup_unique. }
  assert (HT : forall a, a ∈ T -> a ∈ arts).
  { intros a Ha. unfold T, top_articles, nlargest in Ha.
    rewrite fmap_take in Ha. apply elem_of_take in Ha as (i & Hi & _).
    apply list_elem_of_lookup_2 in Hi.
    rewrite ranking_perm, Hkeys in Hi. exact Hi. }
  assert (HlenT : length T = Nat.min TOP_ARTICLES (length arts)).
  { unfold T. rewrite length_fmap. unfold top_articles.
    rewrite length_nlargest, <- (length_fmap fst), Hkeys. reflexivity. }
  assert (Hgroups : forall a,
    group out a = if decide (a ∈ filter (fun a => a ∈ T) arts) then fb a else []).
  { intros a. rewrite Hout'. apply group_blocks; [exact Hnd|].
    intros b _. apply Hfb. }
  split_and!.
  - exists (filter (fun a => a ∈ T) arts), lo, hi. split_and!.
    + (* some article is selected *)
      assert (Harts : arts <> []).
      { intros E. destruct Hlatest as [(r & Hr & _) _].
        rewrite Hdense, E in Hr. inversion Hr. }
      assert (HTne : (0 < length T)%nat).
      { rewrite HlenT. unfold TOP_ARTICLES.
        destruct arts; [contradiction|cbn; lia]. }
      destruct T as [|a T']; [cbn in HTne; lia|].
      intros E.
      assert (Ha : a ∈ filter (fun b => b ∈ a :: T') arts).
      { apply list_elem_of_filter. split; [left|]. apply HT. left. }
      rewrite E in Ha. inversion Ha.
    + exact Hnd.
    + exact Hle.
    + rewrite Hout'. apply blocks_labels.
  - intros a i j x Hij Hi Hj. rewrite Hgroups in Hi, Hj.
    destruct (decide (a ∈ filter (fun a => a ∈ T) arts)); [|inversion Hi].
    unfold fb in Hi, Hj. rewrite views_filled in Hi, Hj.
    eapply ffill_closed; eassumption.
  - rewrite Hout'.
    rewrite unique_blocks; [|exact Hnd|intros a _; split; [apply Hfbne|apply Hfb]].
    transitivity (length T).
    + apply submseteq_length, NoDup_submseteq; [exact Hnd|].
      intros a Ha. apply list_elem_of_filter in Ha as [Ha _]. exact Ha.
    + rewrite HlenT. lia.
Qed.

End Fixpoints.

(** C9 as stated fails: a dense, filled frame with twenty-one articles is
    cut down to twenty. *)
Lemma process_wiki_data_drops_articles :
  dense_grid Samples.crowd /\ forward_filled Samples.crowd
  /\ length Samples.crowd = 21%nat
  /\ exists out,
       process_wiki_data parse_iso_basic Samples.crowd = Ok out
       /\ length out = 20%nat.
Proof.
  split_and!.
  - exists (article <$> Samples.crowd), Samples.day1, Samples.day1.
    split_and!.
    + discriminate.
    + apply (bool_decide_unpack _). vm_compute. exact I.
    + lia.
    + vm_compute. reflexivity.
  - apply forward_filled_valid. apply (bool_decide_unpack _). vm_compute.
    exact I.
  - reflexivity.
  - eexists. split; [vm_compute; reflexivity|reflexivity].
Qed.

(** C9, amended. A frame that is dense in the order of the grid, filled and
    has at most twenty articles is returned unchanged; so is every frame
    that [process_wiki_data] has returned. *)
Theorem process_wiki_data_idempotent (parse_date : string -> option Z) :
  (forall t,
     dense_grid t -> forward_filled t ->
     (length (unique (article <$> t)) <= TOP_ARTICLES)%nat ->
     process_wiki_data parse_date t = Ok t)
  /\ (forall df out,
        process_wiki_data parse_date df = Ok out ->
        process_wiki_data parse_date out = Ok out).
Proof.
  split.
  - apply process_wiki_data_fixed.
  - intros df out Hp.
    destruct (process_wiki_data_shape parse_date df out Hp) as (Hd & Hf & Hlen).
    apply process_wiki_data_fixed; assumption.
Qed.

(** ** Statistics *)

Lemma group_cons r df a :
  group (r :: df) a = if decide (article r = a) then r :: group df a else group df a.
Proof. unfold group. rewrite filter_cons. reflexivity. Qed.

(** The two dictionaries after the loop: for every key, the sum and the
    number of the rows of that article. *)
Lemma count_rows_lookup rows acc a :
  (foldl count_row acc rows).1 !! a
  = (fun s => foldl add_views s (views <$> group rows a)) <$> acc.1 !! a
  /\ (foldl count_row acc rows).2 !! a
     = (fun c => (c + length (group rows a))%nat) <$> acc.2 !! a.
Proof.
  revert acc. induction rows as [|r rows IH]; intros [vs ct].
  - cbn. split.
    + destruct (vs !! a); reflexivity.
    + destruct (ct !! a); cbn; [f_equal; lia|reflexivity].
  - cbn [foldl]. destruct (IH (count_row (vs, ct) r)) as [IH1 IH2].
    rewrite IH1, IH2. unfold count_row. cbn [fst snd].
    rewrite group_cons. destruct (decide (article r = a)) as [->|Hne].
    + rewrite !lookup_alter_eq. split.
      * destruct (vs !! a); reflexivity.
      * destruct (ct !! a); cbn; [f_equal; lia|reflexivity].
    + rewrite !lookup_alter_ne by assumption. split; reflexivity.
Qed.

Lemma lookup_initial {V} (v : V) arts a :
  (list_to_map ((fun a => (a, v)) <$> arts) : gmap string V) !! a
  = if decide (a ∈ arts) then Some v else None.
Proof.
  induction arts as [|b arts IH]; [reflexivity|].
  cbn [fmap list_fmap]. rewrite list_to_map_cons.
  destruct (decide (b = a)) as [->|Hne].
  - rewrite lookup_insert_eq, decide_True by left. reflexivity.
  - rewrite lookup_insert_ne, IH by assumption.
    destruct (decide (a ∈ arts)).
    + rewrite decide_True by (right; assumption). reflexivity.
    + rewrite decide_False; [reflexivity|].
      rewrite elem_of_cons. intros [->|]; contradiction.
Qed.

(** The list of means handed to [np.nanmean]: the mean of every article
    over its rows. *)
Lemma calculate_statistics_means df top :
  calculate_statistics df top
  = rbind (int (nanmean (article_mean top <$> unique (article <$> top))))
      (fun m => Ok (m, series_max (views <$> df),
                    length (unique (article <$> df)))).
Proof.
  unfold calculate_statistics.
  destruct (foldl count_row _ top) as [vs ct] eqn:E.
  f_equal. f_equal. f_equal. apply list_fmap_ext. intros i a Ha.
  apply list_elem_of_lookup_2 in Ha.
  destruct (count_rows_lookup top
              (list_to_map ((fun a => (a, Some 0)) <$> unique (article <$> top)),
               list_to_map ((fun a => (a, 0%nat)) <$> unique (article <$> top)))
              a) as [H1 H2].
  rewrite E in H1, H2. cbn [fst snd] in H1, H2.
  rewrite lookup_initial, decide_True in H1 by assumption.
  rewrite lookup_initial, decide_True in H2 by assumption.
  rewrite H1, H2. reflexivity.
Qed.

Lemma foldl_add_views_valid acc vs :
  foldl add_views (Some acc) (Some <$> vs) = Some (acc + foldr Z.add 0 vs).
Proof.
  revert acc. induction vs as [|v vs IH]; intros acc; cbn.
  - f_equal. lia.
  - rewrite IH. f_equal. lia.
Qed.

Lemma total_valid vs : total (Some <$> vs) = Some (foldr Z.add 0 vs).
Proof. unfold total. rewrite foldl_add_views_valid. reflexivity. Qed.

Lemma foldl_add_views_None s : foldl add_views None s = None.
Proof. induction s as [|x s IH]; [reflexivity|]. cbn. exact IH. Qed.

Lemma foldl_add_views_missing acc s :
  ~ Forall is_Some s -> foldl add_views acc s = None.
Proof.
  revert acc. induction s as [|x s IH]; intros acc H.
  - exfalso. apply H. constructor.
  - cbn. destruct x as [v|].
    + destruct acc as [z|]; cbn.
      * apply IH. intros Hs. apply H. constructor; [eexists; reflexivity|exact Hs].
      * apply foldl_add_views_None.
    + destruct acc; cbn; apply foldl_add_views_None.
Qed.

Lemma views_recorded (g : DataFrame) :
  Forall (fun r => is_Some (views r)) g ->
  views <$> g = Some <$> omap views g /\ length (omap views g) = length g.
Proof.
  induction 1 as [|r g [v Hv] _ [IH1 IH2]]; [split; reflexivity|].
  cbn. rewrite Hv. cbn. rewrite IH1, IH2. split; reflexivity.
Qed.

Lemma unique_filter (P : string -> Prop) `{!forall x, Decision (P x)} l :
  unique (filter P l) = filter P (unique l).
Proof.
  induction l as [|x l IH]; [reflexivity|].
  rewrite filter_cons. cbn [unique]. rewrite (filter_cons P x).
  destruct (decide (P x)) as [Hx|Hx].
  - cbn [unique]. f_equal. rewrite IH, !list_filter_filter.
    apply list_filter_iff. tauto.
  - rewrite IH, list_filter_filter. apply list_filter_iff.
    intros y. split; [|tauto]. intros Hy.
    split; [exact Hy|intros ->; contradiction].
Qed.

Lemma article_filter (P : string -> Prop) `{!forall x, Decision (P x)}
  (df : DataFrame) :
  article <$> filter (fun r => P (article r)) df = filter P (article <$> df).
Proof.
  induction df as [|r df IH]; [reflexivity|].
  cbn [fmap list_fmap]. rewrite !filter_cons.
  destruct (decide (P (article r))); cbn [fmap list_fmap]; rewrite IH;
    reflexivity.
Qed.

Lemma group_complete_rows df a :
  group (complete_rows df) a
  = if decide (fully_recorded df a) then group df a else [].
Proof.
  unfold complete_rows, group at 1. rewrite list_filter_filter.
  destruct (decide (fully_recorded df a)) as [Ha|Ha].
  - apply list_filter_iff. intros r. split; [tauto|].
    intros <-. tauto.
  - apply filter_none. apply Forall_forall. intros r _ [<- Hr]. contradiction.
Qed.

Lemma unique_complete_rows df :
  unique (article <$> complete_rows df)
  = filter (fully_recorded df) (unique (article <$> df)).
Proof.
  unfold complete_rows. rewrite (article_filter (fully_recorded df)).
  apply unique_filter.
Qed.

Lemma article_mean_recorded df a :
  fully_recorded df a ->
  article_mean df a = Some (spec_article_mean (complete_rows df) a).
Proof.
  intros Ha. unfold article_mean, spec_article_mean, recorded.
  rewrite group_complete_rows, decide_True by assumption.
  destruct (views_recorded (group df a) Ha) as [Hv Hlen].
  rewrite Hv, total_valid, Hlen. reflexivity.
Qed.

Lemma article_mean_missing df a :
  ~ fully_recorded df a -> article_mean df a = None.
Proof.
  intros Ha. unfold article_mean, total.
  rewrite foldl_add_views_missing; [reflexivity|].
  intros H. apply Ha. unfold fully_recorded.
  rewrite Forall_fmap in H. exact H.
Qed.

Lemma defined_means df (arts : list string) :
  omap id (article_mean df <$> arts)
  = spec_article_mean (complete_rows df) <$> filter (fully_recorded df) arts.
Proof.
  induction arts as [|a arts IH]; [reflexivity|].
  cbn [fmap list_fmap omap list_omap]. rewrite filter_cons.
  destruct (decide (fully_recorded df a)) as [Ha|Ha].
  - rewrite article_mean_recorded by assumption. cbn. f_equal. exact IH.
  - rewrite article_mean_missing by assumption. cbn. exact IH.
Qed.

(** The statistics over the rows of the articles without a missing
    value. *)
Lemma calculate_statistics_complete df top :
  calculate_statistics df top
  = match complete_rows top with
    | [] => Raise NanToInt
    | _ =>
        Ok (spec_overall_mean (complete_rows top),
            series_max (views <$> df), length (unique (article <$> df)))
    end.
Proof.
  rewrite calculate_statistics_means. unfold nanmean, spec_overall_mean.
  rewrite defined_means, unique_complete_rows.
  destruct (filter (fully_recorded top) (unique (article <$> top)))
    as [|a l] eqn:E.
  - cbn. destruct (complete_rows top) as [|r rows] eqn:Ec; [reflexivity|].
    exfalso. pose proof (unique_complete_rows top) as H.
    rewrite E, Ec in H. discriminate.
  - destruct (complete_rows top) as [|r rows] eqn:Ec.
    + exfalso. pose proof (unique_complete_rows top) as H.
      rewrite E, Ec in H. discriminate.
    + cbn [fmap list_fmap rbind int length]. rewrite length_fmap. reflexivity.
Qed.



(** ** The run *)

Lemma series_max_spec s :
  match series_max s with
  | Some m => Some m ∈ s /\ forall v, Some v ∈ s -> v <= m
  | None => forall v, Some v ∉ s
  end.
Proof.
  unfold series_max.
  assert (Hin : forall v, v ∈ omap id s <-> Some v ∈ s).
  { intros v. rewrite list_elem_of_omap. split.
    - intros (x & Hx & E). cbn in E. subst x. exact Hx.
    - intros Hv. exists (Some v). auto. }
  destruct (omap id s) as [|v vs].
  - intros v Hv. apply Hin in Hv. inversion Hv.
  - destruct (foldr_max_spec v vs) as [H1 H2]. split.
    + apply Hin. exact H1.
    + intros w Hw. apply H2. apply Hin. exact Hw.
Qed.

Lemma run_inv net now parse_date savefig start_date end_date top stats tr :
  run net now parse_date savefig start_date end_date []
  = (Ok (top, stats), tr) ->
  exists df tr1,
    gtb start_date end_date = false /\ gtb start_date now = false
    /\ collect_wiki_data net start_date end_date [EvLog INFO MsgDatesValid]
       = (Ok df, tr1)
    /\ process_wiki_data parse_date df = Ok top
    /\ calculate_statistics df top = Ok stats.
Proof.
  unfold run, validate_dates.
  destruct (gtb start_date end_date); [munfold; discriminate|].
  destruct (gtb start_date now); [munfold; discriminate|].
  unfold bind at 1. unfold log, emit at 1. cbn [app].
  unfold bind at 1.
  destruct (collect_wiki_data net start_date end_date _) as [[df|e] tr1];
    [|discriminate].
  unfold bind at 1, lift at 1.
  destruct (process_wiki_data parse_date df) as [top'|] eqn:Hp; [|discriminate].
  unfold bind at 1, lift at 1.
  destruct (calculate_statistics df top') as [stats'|] eqn:Hs; [|discriminate].
  unfold create_plot, plt_savefig.
  destruct (savefig OUTPUT_FILENAME); munfold; [|discriminate].
  intros [= <- <- <-]. exists df, tr1. auto.
Qed.

(** C4. In a run that completes, the reported maximum is the largest view
    count of the table as collected: some collected row has it and no
    collected row exceeds it, whatever the selected articles are. *)
Theorem max_views_of_collected_table
  (net : string -> nat -> http_outcome) (now : datetime)
  (parse_date : string -> option Z) (savefig : string -> bool)
  (start_date end_date : datetime)
  (top : DataFrame) (mean_views : Z) (max_views : option Z)
  (unique_articles : nat) (tr : trace) :
  run net now parse_date savefig start_date end_date []
  = (Ok (top, (mean_views, max_views, unique_articles)), tr) ->
  exists df tr1 m,
    collect_wiki_data net start_date end_date [EvLog INFO MsgDatesValid]
    = (Ok df, tr1)
    /\ process_wiki_data parse_date df = Ok top
    /\ max_views = Some m
    /\ (exists r, r ∈ df /\ views r = Some m)
    /\ (forall r v, r ∈ df -> views r = Some v -> v <= m).
Proof.
  intros Hrun.
  destruct (run_inv _ _ _ _ _ _ _ _ _ Hrun)
    as (df & tr1 & _ & _ & Hc & Hp & Hs).
  rewrite calculate_statistics_means in Hs.
  destruct (int _) as [m'|]; [|discriminate]. cbn in Hs.
  injection Hs as _ Hmax _.
  pose proof (series_max_spec (views <$> df)) as Hspec. rewrite Hmax in Hspec.
  assert (Hne : exists r, r ∈ df /\ is_Some (views r)).
  { destruct (collect_wiki_data_rows net _ _ _ _ _ Hc) as (Hdf & Hne & _).
    destruct df as [|r0 rows] eqn:E; [contradiction|].
    exists r0. split; [left|].
    assert (Hr0 : r0 ∈ range_days start_date end_date ≫= day_rows net)
      by (rewrite <- Hdf; left).
    apply list_elem_of_bind in Hr0 as (t & Hr0 & _).
    unfold day_rows in Hr0. destruct (usable (fetched net t)); [|inversion Hr0].
    unfold tagged in Hr0. apply list_elem_of_fmap in Hr0 as (e & -> & _).
    eexists. reflexivity. }
  destruct max_views as [m|].
  - destruct Hspec as [Hin Hbound].
    exists df, tr1, m. split_and!; try assumption; try reflexivity.
    + apply list_elem_of_fmap in Hin as (r & Hv & Hr). exists r. auto.
    + intros r v Hr Hv. apply Hbound. rewrite <- Hv.
      apply list_elem_of_fmap_2. exact Hr.
  - exfalso. destruct Hne as (r & Hr & [v Hv]).
    apply (Hspec v). rewrite <- Hv. apply list_elem_of_fmap_2. exact Hr.
Qed.

Lemma outlier_run_eq :
  run Samples.net Samples.now parse_iso_basic (fun _ => true)
    Samples.start_date Samples.end_date [] = Samples.outlier_run.
Proof. vm_compute. reflexivity. Qed.

Lemma max_views_of_collected_table_witness :
  exists top stats tr,
    Samples.outlier_run = (Ok (top, stats), tr)
    /\ exists df tr1 m,
         collect_wiki_data Samples.net Samples.start_date Samples.end_date
           [EvLog INFO MsgDatesValid] = (Ok df, tr1)
         /\ process_wiki_data parse_iso_basic df = Ok top
         /\ stats.1.2 = Some m
         /\ (exists r, r ∈ df /\ views r = Some m)
         /\ (forall r v, r ∈ df -> views r = Some v -> v <= m).
Proof.
  eexists _, (_, _, _), _. split; [reflexivity|]. cbn [fst snd].
  eapply (max_views_of_collected_table Samples.net Samples.now parse_iso_basic
            (fun _ => true) Samples.start_date Samples.end_date).
  rewrite outlier_run_eq. reflexivity.
Defined.

(** In the sample run the maximum, a million views, belongs to an article
    that is not among the selected ones. *)
Example max_views_outside_top :
  exists top mean_views unique_articles tr,
    Samples.outlier_run
    = (Ok (top, (mean_views, Some 1000000, unique_articles)), tr)
    /\ bool_decide ("spike" ∈ article <$> top) = false
    /\ length (unique (article <$> top)) = 20%nat.
Proof. eexists _, _, _, _. split_and!; reflexivity. Qed.

(** ** Instances on the sample data *)

Lemma top_articles_selection_witness :
  exists dense,
    normalized parse_iso_basic Samples.two_days = Ok dense
    /\ let top := top_articles 1 dense in
       length top = Nat.min 1 (length (unique (article <$> Samples.two_days)))
       /\ NoDup (top.*1)
       /\ (forall a v, (a, v) ∈ top ->
             a ∈ article <$> Samples.two_days /\
             exists r hi, latest dense hi /\ r ∈ dense /\ article r = a
                          /\ date r = Timestamp hi /\ views r = v)
       /\ StronglySorted ranked_before top
       /\ (forall b w, (b, w) ∈ groupby_last dense -> b ∉ top.*1 ->
             forall e, e ∈ top -> below w e.2)
       /\ (forall v,
             filter (fun e : string * option Z => e.2 = v) top
             `prefix_of` filter (fun e : string * option Z => e.2 = v)
                           (groupby_last dense)).
Proof.
  eexists. split; [vm_compute; reflexivity|].
  apply (top_articles_selection parse_iso_basic Samples.two_days).
  vm_compute. reflexivity.
Defined.

Lemma normalized_last_value_defined_witness :
  exists dense,
    normalized parse_iso_basic Samples.late_start = Ok dense
    /\ exists hi,
         latest dense hi
         /\ (forall a, a ∈ article <$> Samples.late_start ->
               exists r x, r ∈ dense /\ article r = a /\ date r = Timestamp hi
                           /\ views r = Some x
                           /\ (a, Some x) ∈ groupby_last dense)
         /\ (forall a v, (a, v) ∈ groupby_last dense ->
               a ∈ article <$> Samples.late_start /\ is_Some v)
         /\ (forall r t, r ∈ dense -> date r = Timestamp t -> views r = None ->
               forall t' x,
                 observation parse_iso_basic Samples.late_start (article r) t'
                   (Some x) -> t < t').
Proof.
  eexists. split; [vm_compute; reflexivity|].
  apply (normalized_last_value_defined parse_iso_basic Samples.late_start).
  - intros a Ha. apply (Forall_forall (fun a => exists q, q ∈ Samples.late_start
                          /\ article q = a /\ is_Some (views q))
                          (article <$> Samples.late_start)); [|exact Ha].
    repeat constructor; eexists;
      (split; [|split; [reflexivity|eexists; reflexivity]]);
      apply (bool_decide_unpack _); vm_compute; exact I.
  - vm_compute. reflexivity.
Defined.

(** The tag is written without padding, so two days can share a tag. *)
Example date_tag_shared :
  date_tag (midnight 2024 1 11) = "2024111"
  /\ date_tag (midnight 2024 11 1) = "2024111".
Proof. split; vm_compute; reflexivity. Qed.

(** A fetch that is limited, then refused, then answered. *)
Example get_top_wiki_articles_limited_then_refused :
  get_top_wiki_articles
    (fun _ retr =>
       match retr with
       | O => Response 429 (mk_payload None)
       | 1%nat => Response 503 (mk_payload None)
       | _ => Response 200 (mk_payload (Some []))
       end) "en.wikipedia" "2024" "10" "10" "all-access" []
  = (Ok (Some (mk_payload (Some []))),
     [EvLog INFO (MsgRequest "2024" "10" "10" 1);
      EvGet (top_url "en.wikipedia" "all-access" "2024" "10" "10");
      EvLog WARNING (MsgRateLimited 2); EvSleep 2;
      EvLog INFO (MsgRequest "2024" "10" "10" 2);
      EvGet (top_url "en.wikipedia" "all-access" "2024" "10" "10");
      EvLog WARNING (MsgRequestError 2); EvSleep 1;
      EvLog INFO (MsgRequest "2024" "10" "10" 3);
      EvGet (top_url "en.wikipedia" "all-access" "2024" "10" "10")]).
Proof. vm_compute. reflexivity. Qed.

(** A run on the patchy network: the first day fails three times, the
    second gives twenty-one rows, and the run goes on to the plot. *)
Example main_survives_failed_day :
  exists tr,
    main Samples.patchy Samples.now parse_iso_basic (fun _ => true)
      Samples.start_date Samples.end_date = (0, tr)
    /\ gets tr = 4%nat
    /\ last tr = Some (EvLog INFO (MsgSaved OUTPUT_FILENAME)).
Proof. eexists. split_and!; vm_compute; reflexivity. Qed.

(* ===================================================================== *)
(** * Further properties: cost, outcomes and the original script          *)
(* ===================================================================== *)

(** ** Measures of the trace of a fetch *)

Lemma gets_app w1 w2 : gets (w1 ++ w2) = (gets w1 + gets w2)%nat.
Proof. unfold gets. rewrite List.filter_app, length_app. reflexivity. Qed.

Lemma saves_app w1 w2 : saves (w1 ++ w2) = (saves w1 + saves w2)%nat.
Proof. unfold saves. rewrite List.filter_app, length_app. reflexivity. Qed.

Lemma errors_app w1 w2 : errors (w1 ++ w2) = (errors w1 + errors w2)%nat.
Proof. unfold errors. rewrite List.filter_app, length_app. reflexivity. Qed.

Lemma slept_app w1 w2 : slept (w1 ++ w2) = slept w1 + slept w2.
Proof.
  unfold slept. induction w1 as [|e w1 IH]; [reflexivity|].
  cbn [app foldr]. rewrite IH. destruct e; lia.
Qed.

Lemma attempts_profile net url y m d :
  exists data w,
    attempts net url y m d (seq 0 MAX_RETRIES) [] = (Ok data, w)
    /\ data = (i ← first_success net url;
               match classify (net url i) with
               | Success json => Some json
               | _ => None
               end)
    /\ (is_Some data <-> is_Some (first_success net url))
    /\ gets w = requests_made net url
    /\ slept w = foldr Z.add 0 (pause net url <$> seq 0 (requests_made net url))
    /\ errors w = (match first_success net url with Some _ => 0 | None => 1 end)%nat
    /\ saves w = 0%nat.
Proof.
  unfold requests_made, first_success, pause, is_success.
  cbn [seq MAX_RETRIES]. rewrite !attempts_step. cbn zeta.
  destruct (classify (net url 0%nat)) as [j0| |] eqn:E0;
    [|rewrite !attempts_step; cbn zeta;
      destruct (classify (net url 1%nat)) as [j1| |] eqn:E1;
      [|rewrite !attempts_step; cbn zeta;
        destruct (classify (net url 2%nat)) as [j2| |] eqn:E2..]..];
    cbn [attempts]; munfold;
    cbn [fst snd app Nat.ltb Nat.leb Nat.sub MAX_RETRIES];
    eexists _, _; (split; [reflexivity|]);
    cbn; rewrite ?E0, ?E1, ?E2; cbn;
    repeat split; try (intros [? ?]; discriminate); eauto;
    rewrite ?E0, ?E1, ?E2; cbn; reflexivity.
Qed.

Lemma attempts_budget net url y m d :
  let w := (attempts net url y m d (seq 0 MAX_RETRIES) []).2 in
  0 <= slept w <= 10
  /\ ((forall i, (i < MAX_RETRIES)%nat -> classify (net url i) <> RateLimited) ->
      slept w <= 2).
Proof.
  cbn [seq MAX_RETRIES]. rewrite !attempts_step. cbn zeta.
  destruct (classify (net url 0%nat)) as [j0| |] eqn:E0;
    [|rewrite !attempts_step; cbn zeta;
      destruct (classify (net url 1%nat)) as [j1| |] eqn:E1;
      [|rewrite !attempts_step; cbn zeta;
        destruct (classify (net url 2%nat)) as [j2| |] eqn:E2..]..];
    cbn [attempts]; munfold;
    cbn [fst snd app Nat.ltb Nat.leb Nat.sub MAX_RETRIES];
    cbn; (split; [lia|]); intros H;
    try lia;
    first [ exfalso; apply (H 0%nat); [unfold MAX_RETRIES; lia|exact E0]
          | exfalso; apply (H 1%nat); [unfold MAX_RETRIES; lia|exact E1]
          | exfalso; apply (H 2%nat); [unfold MAX_RETRIES; lia|exact E2] ].
Qed.

Lemma requests_made_bounds net url :
  (1 <= requests_made net url <= MAX_RETRIES)%nat.
Proof.
  unfold requests_made, first_success.
  destruct (List.find _ _) as [i|] eqn:E; [|unfold MAX_RETRIES; lia].
  apply List.find_some in E as [E _]. apply List.in_seq in E. lia.
Qed.

Section CollectorTrace.

Variable net : string -> nat -> http_outcome.

Lemma fetch_trace_profile t :
  gets (fetch_trace net t) = requests_made net (day_url t)
  /\ 0 <= slept (fetch_trace net t) <= 10
  /\ saves (fetch_trace net t) = 0%nat.
Proof.
  unfold fetch_trace, get_top_wiki_articles. fold (day_url t).
  destruct (attempts_profile net (day_url t) (str (year t)) (str (month t))
              (str (day t))) as (data & w & Hw & _ & _ & Hg & _ & _ & Hs).
  pose proof (attempts_budget net (day_url t) (str (year t)) (str (month t))
                (str (day t))) as [Hb _].
  rewrite Hw in *. cbn [snd] in *. auto.
Qed.

Lemma day_trace_profile t :
  gets (day_trace net t) = requests_made net (day_url t)
  /\ 0 <= slept (day_trace net t) <= 10
  /\ saves (day_trace net t) = 0%nat.
Proof.
  destruct (fetch_trace_profile t) as (Hg & Hs & Hv).
  unfold day_trace. rewrite gets_app, slept_app, saves_app, Hg, Hv.
  destruct (usable (fetched net t)); cbn; split_and!; lia.
Qed.

End CollectorTrace.

Lemma length_range_days s e :
  length (range_days s e)
  = Z.to_nat (ordinal e - ordinal s + (if micro s <=? micro e then 1 else 0)).
Proof.
  remember (Z.to_nat (ordinal e - ordinal s + 1)) as n eqn:Hn.
  revert s Hn. induction n as [|n IH]; intros s Hn.
  - rewrite range_days_nil.
    + destruct (micro s <=? micro e); cbn [length]; lia.
    + unfold leb, gtb. apply negb_false_iff, orb_true_iff. left.
      apply Z.ltb_lt. lia.
  - destruct (leb s e) eqn:Hle.
    + rewrite range_days_cons by assumption. cbn [length].
      rewrite IH by (cbn; lia). cbn [next_day ordinal micro].
      unfold leb, gtb in Hle. apply negb_true_iff, orb_false_iff in Hle.
      destruct Hle as [H1 H2]. apply Z.ltb_ge in H1.
      apply andb_false_iff in H2.
      destruct (micro s <=? micro e) eqn:Hm; [lia|].
      apply Z.leb_gt in Hm.
      destruct H2 as [H2|H2]; [apply Z.eqb_neq in H2; lia|].
      apply Z.ltb_ge in H2. lia.
    + rewrite range_days_nil by assumption. cbn [length].
      unfold leb, gtb in Hle. apply negb_false_iff, orb_true_iff in Hle.
      destruct Hle as [H|H]; [apply Z.ltb_lt in H; lia|].
      apply andb_true_iff in H as [H1 H2].
      apply Z.eqb_eq in H1. apply Z.ltb_lt in H2.
      destruct (micro s <=? micro e) eqn:Hm; [apply Z.leb_le in Hm; lia|lia].
Qed.

Lemma gets_bind {A} (f : A -> trace) (l : list A) :
  gets (l ≫= f) = sum_list ((fun x => gets (f x)) <$> l).
Proof.
  induction l as [|x l IH]; [reflexivity|].
  rewrite bind_cons, gets_app, IH. reflexivity.
Qed.

Lemma saves_bind {A} (f : A -> trace) (l : list A) :
  (forall x, x ∈ l -> saves (f x) = 0%nat) -> saves (l ≫= f) = 0%nat.
Proof.
  induction l as [|x l IH]; intros H; [reflexivity|].
  rewrite bind_cons, saves_app, H, IH; [reflexivity| |left].
  intros y Hy. apply H. right. exact Hy.
Qed.

Lemma slept_bind {A} (f : A -> trace) (l : list A) (b : Z) :
  (forall x, x ∈ l -> 0 <= slept (f x) <= b) ->
  0 <= slept (l ≫= f) <= b * Z.of_nat (length l).
Proof.
  induction l as [|x l IH]; intros H; [cbn; lia|].
  rewrite bind_cons, slept_app. cbn [length].
  pose proof (H x ltac:(left)) as Hx.
  assert (Hl : 0 <= slept (l ≫= f) <= b * Z.of_nat (length l)).
  { apply IH. intros y Hy. apply H. right. exact Hy. }
  lia.
Qed.

Lemma sum_list_bounds {A} (f : A -> nat) (l : list A) (lo hi : nat) :
  (forall x, x ∈ l -> (lo <= f x <= hi)%nat) ->
  (lo * length l <= sum_list (f <$> l) <= hi * length l)%nat.
Proof.
  induction l as [|x l IH]; intros H; [cbn; lia|].
  rewrite fmap_cons. change (sum_list (f x :: (f <$> l)))
    with (f x + sum_list (f <$> l))%nat. cbn [length].
  pose proof (H x ltac:(left)) as Hx.
  assert (Hl : (lo * length l <= sum_list (f <$> l) <= hi * length l)%nat).
  { apply IH. intros y Hy. apply H. right. exact Hy. }
  lia.
Qed.

(** X1. A fetch stops at its first successful attempt: it sends one request
    more than the number of attempts that fail before it, three when none
    succeeds; it returns [None] exactly when none of the three attempts
    succeeds, and logs one line at the level ERROR in that case and none
    otherwise. *)
Theorem get_top_wiki_articles_request_count
  (net : string -> nat -> http_outcome) (project year month day access : string)
  (tr0 : trace) :
  let url := top_url project access year month day in
  exists data w,
    get_top_wiki_articles net project year month day access tr0
    = (Ok data, tr0 ++ w)
    /\ gets w = requests_made net url
    /\ (forall i, first_success net url = Some i ->
          gets w = S i
          /\ exists json, classify (net url i) = Success json
                          /\ data = Some json)
    /\ (data = None <->
        forall i, (i < MAX_RETRIES)%nat -> is_success (net url i) = false)
    /\ errors w = (match data with Some _ => 0 | None => 1 end)%nat.
Proof.
  intros url. unfold get_top_wiki_articles. rewrite attempts_frame. fold url.
  clearbody url.
  destruct (attempts_profile net url year month day)
    as (data & w & Hw & Hdata & Hsome & Hg & _ & He & _).
  rewrite Hw. cbn [fst snd]. exists data, w.
  split; [reflexivity|]. split; [exact Hg|]. split_and!.
  - intros i Hi. unfold requests_made in Hg. rewrite Hi in Hg, Hdata.
    split; [exact Hg|]. cbn [mbind option_bind] in Hdata.
    unfold first_success in Hi. apply List.find_some in Hi as [_ Hi].
    unfold is_success in Hi.
    destruct (classify (net url i)) as [json| |]; try discriminate.
    exists json. split; [reflexivity|exact Hdata].
  - split.
    + intros -> i Hi.
      destruct (first_success net url) as [k|] eqn:Hk.
      * exfalso. destruct Hsome as [_ H]. destruct H as [? H]; [eauto|].
        discriminate.
      * unfold first_success in Hk.
        eapply (List.find_none _ _ Hk i). apply List.in_seq. lia.
    + intros Hall. destruct (first_success net url) as [k|] eqn:Hk.
      * unfold first_success in Hk. apply List.find_some in Hk as [Hin Hk].
        apply List.in_seq in Hin. rewrite Hall in Hk by lia. discriminate.
      * rewrite Hdata. reflexivity.
  - rewrite He. destruct (first_success net url) as [k|] eqn:Hk.
    + destruct Hsome as [_ [json ->]]; [eauto|]. reflexivity.
    + rewrite Hdata. reflexivity.
Qed.

(** X2. The seconds a fetch sleeps are the sum of the pauses after the
    attempts it makes: [2^i + 1] after an answer 429 to the attempt [i],
    one second after a failed attempt that is not the last, nothing after a
    success. A fetch sleeps ten seconds at most, two at most when no answer
    is 429, and not at all when the first attempt succeeds. *)
Theorem get_top_wiki_articles_sleep_budget
  (net : string -> nat -> http_outcome) (project year month day access : string)
  (tr0 : trace) :
  let url := top_url project access year month day in
  exists data w,
    get_top_wiki_articles net project year month day access tr0
    = (Ok data, tr0 ++ w)
    /\ slept w
       = foldr Z.add 0 (pause net url <$> seq 0 (requests_made net url))
    /\ 0 <= slept w <= 10
    /\ ((forall i, (i < MAX_RETRIES)%nat ->
           classify (net url i) <> RateLimited) -> slept w <= 2)
    /\ (is_success (net url 0%nat) = true -> slept w = 0)
    /\ ((forall i, (i < MAX_RETRIES)%nat ->
           classify (net url i) = RateLimited) -> slept w = 10).
Proof.
  intros url. unfold get_top_wiki_articles. rewrite attempts_frame. fold url.
  clearbody url.
  destruct (attempts_profile net url year month day)
    as (data & w & Hw & _ & _ & _ & Hs & _ & _).
  pose proof (attempts_budget net url year month day) as [Hb Hno].
  rewrite Hw in *. cbn [fst snd] in *. exists data, w.
  split; [reflexivity|]. split; [exact Hs|]. split; [exact Hb|].
  split; [exact Hno|]. split.
  - intros H0. rewrite Hs. unfold requests_made, first_success.
    cbn [seq MAX_RETRIES List.find]. rewrite H0.
    cbn [seq fmap list_fmap foldr]. unfold pause. unfold is_success in H0.
    destruct (classify (net url 0%nat)); try discriminate. reflexivity.
  - intros Hall. rewrite Hs. unfold requests_made, first_success, is_success.
    cbn [seq MAX_RETRIES List.find].
    rewrite !Hall by (unfold MAX_RETRIES; lia).
    cbn [seq fmap list_fmap foldr MAX_RETRIES].
    unfold pause. rewrite !Hall by (unfold MAX_RETRIES; lia). reflexivity.
Qed.

Lemma elem_of_fetched_days s e t :
  t ∈ fetched_days s e <-> in_range s e t /\ ordinal t < MAXORDINAL.
Proof.
  unfold fetched_days. rewrite list_elem_of_filter, elem_of_range_days. tauto.
Qed.

(** X3. The collector fetches the days of the range that lie before
    9999-12-31 (on that day the step to the next day overflows before the
    fetch) and sends the requests of these fetches: between one and three a
    day. It sleeps ten seconds a day at most and writes no image. A range
    that ends before 9999-12-31 has one day to fetch for each date when the
    time of day of [start_date] is not after that of [end_date], and one
    fewer otherwise. *)
Theorem collect_wiki_data_cost
  (net : string -> nat -> http_outcome) (start_date end_date : datetime)
  (tr0 : trace) :
  let days := fetched_days start_date end_date in
  exists r w,
    collect_wiki_data net start_date end_date tr0 = (r, tr0 ++ w)
    /\ gets w = sum_list ((fun t => requests_made net (day_url t)) <$> days)
    /\ (length days <= gets w <= MAX_RETRIES * length days)%nat
    /\ 0 <= slept w <= 10 * Z.of_nat (length days)
    /\ saves w = 0%nat
    /\ (forall t, t ∈ days
                  <-> in_range start_date end_date t
                      /\ ordinal t < MAXORDINAL)
    /\ (ordinal end_date < MAXORDINAL ->
        length days
        = Z.to_nat (ordinal end_date - ordinal start_date
                    + (if micro start_date <=? micro end_date then 1 else 0))).
Proof.
  intros days. rewrite collect_wiki_data_trace. cbn zeta. fold days.
  eexists _, _. split; [reflexivity|].
  set (tail := if overflows start_date end_date then []
               else match range_days start_date end_date ≫= day_rows net with
                    | [] => []
                    | _ =>
                        [EvLog INFO
                           (MsgCollected
                              (length (range_days start_date end_date
                                       ≫= day_rows net)))]
                    end).
  assert (Htail : gets tail = 0%nat /\ slept tail = 0 /\ saves tail = 0%nat).
  { subst tail. destruct (overflows start_date end_date); [cbn; auto|].
    destruct (range_days start_date end_date ≫= day_rows net); cbn; auto. }
  destruct Htail as (Hg & Hs & Hv).
  rewrite gets_app, slept_app, saves_app, Hg, Hs, Hv, gets_bind.
  assert (Hsum : sum_list ((fun x => gets (day_trace net x)) <$> days)
                 = sum_list ((fun t => requests_made net (day_url t)) <$> days)).
  { f_equal. apply list_fmap_ext. intros i t _.
    apply (day_trace_profile net t). }
  rewrite Hsum, Nat.add_0_r, Z.add_0_r, Nat.add_0_r.
  split; [reflexivity|]. split.
  { pose proof (sum_list_bounds (fun t => requests_made net (day_url t)) days
                  1 MAX_RETRIES) as H.
    rewrite Nat.mul_1_l in H. apply H. intros t _.
    apply requests_made_bounds. }
  split; [apply slept_bind; intros t _; apply (day_trace_profile net t)|].
  split; [apply saves_bind; intros t _; apply (day_trace_profile net t)|].
  split; [intros t; apply elem_of_fetched_days|].
  intros Hend. unfold days.
  rewrite (overflows_false start_date end_date)
    by (apply overflows_before; exact Hend).
  apply length_range_days.
Qed.

(** X4. Called with a start date after the end date, the collector raises
    the data-availability error at once: the loop is not entered, no
    request is sent and nothing is logged. *)
Theorem collect_wiki_data_empty_range
  (net : string -> nat -> http_outcome) (start_date end_date : datetime)
  (tr0 : trace) :
  gtb start_date end_date = true ->
  collect_wiki_data net start_date end_date tr0 = (Raise NoData, tr0).
Proof.
  intros H. rewrite collect_wiki_data_trace. cbn zeta.
  assert (Hle : leb start_date end_date = false)
    by (unfold leb; rewrite H; reflexivity).
  rewrite overflows_nil, fetched_days_nil, range_days_nil by exact Hle.
  cbn. rewrite app_nil_r. reflexivity.
Qed.

Lemma collect_wiki_data_empty_range_witness :
  collect_wiki_data (fun _ _ => Raised) (midnight 2024 11 2)
    (midnight 2024 11 1) [] = (Raise NoData, []).
Proof.
  apply (collect_wiki_data_empty_range (fun _ _ => Raised)
           (midnight 2024 11 2) (midnight 2024 11 1) []).
  reflexivity.
Defined.

(** The run, step by step. *)
Lemma run_eq net now parse_date savefig start_date end_date tr0 :
  run net now parse_date savefig start_date end_date tr0
  = if gtb start_date end_date then (Raise StartAfterEnd, tr0)
    else if gtb start_date now then (Raise StartInFuture, tr0)
    else
      let rows := range_days start_date end_date ≫= day_rows net in
      let w := EvLog INFO MsgDatesValid
               :: (fetched_days start_date end_date ≫= day_trace net) in
      if overflows start_date end_date then (Raise DateOverflow, tr0 ++ w)
      else
        match rows with
        | [] => (Raise NoData, tr0 ++ w)
        | _ =>
            let w := w ++ [EvLog INFO (MsgCollected (length rows))] in
            match process_wiki_data parse_date rows with
            | Raise x => (Raise x, tr0 ++ w)
            | Ok top =>
                match calculate_statistics rows top with
                | Raise x => (Raise x, tr0 ++ w)
                | Ok stats =>
                    if savefig OUTPUT_FILENAME then
                      (Ok (top, stats),
                       tr0 ++ w ++ [EvLog INFO MsgPlotting;
                                    EvSavefig OUTPUT_FILENAME;
                                    EvLog INFO (MsgSaved OUTPUT_FILENAME)])
                    else
                      (Raise SavefigFailed,
                       tr0 ++ w ++ [EvLog INFO MsgPlotting])
                end
            end
        end.
Proof.
  unfold run, validate_dates.
  destruct (gtb start_date end_date); [reflexivity|].
  destruct (gtb start_date now); [reflexivity|].
  unfold bind at 1. unfold log, emit at 1.
  unfold bind at 1. rewrite collect_wiki_data_trace. cbn zeta.
  destruct (overflows start_date end_date).
  { rewrite app_nil_r, <- app_assoc. reflexivity. }
  destruct (range_days start_date end_date ≫= day_rows net) as [|r rows] eqn:E.
  - rewrite app_nil_r, <- app_assoc. reflexivity.
  - unfold bind at 1, lift at 1.
    destruct (process_wiki_data parse_date (r :: rows)) as [top|x].
    + unfold bind at 1, lift at 1.
      destruct (calculate_statistics (r :: rows) top) as [stats|x].
      * unfold create_plot, plt_savefig.
        destruct (savefig OUTPUT_FILENAME); munfold;
          rewrite <- !app_assoc; reflexivity.
      * rewrite <- !app_assoc. reflexivity.
    + rewrite <- !app_assoc. reflexivity.
Qed.

(** The trace of [main] holds the events of the days that are fetched. *)
Lemma main_trace net now parse_date savefig start_date end_date :
  gtb start_date end_date = false -> gtb start_date now = false ->
  exists w,
    (main net now parse_date savefig start_date end_date).2
    = EvLog INFO MsgDatesValid
      :: (fetched_days start_date end_date ≫= day_trace net) ++ w.
Proof.
  intros Hse Hsn. unfold main. rewrite run_eq, Hse, Hsn. cbn zeta.
  destruct (overflows start_date end_date);
    [cbn [snd app]; eexists; reflexivity|].
  destruct (range_days start_date end_date ≫= day_rows net) as [|r rows];
    [cbn [snd app]; eexists; reflexivity|].
  destruct (process_wiki_data parse_date (r :: rows)) as [top|x];
    [destruct (calculate_statistics (r :: rows) top) as [stats|x];
     [destruct (savefig OUTPUT_FILENAME)|]|];
    cbn [snd app]; rewrite <- ?app_assoc; eexists; reflexivity.
Qed.

(** X5. The validation compares the start date only: once the start date
    is neither after the end date nor after the current time, every day of
    the range before 9999-12-31 is requested, whether or not it lies after
    the current time. *)
Theorem main_requests_every_day
  (net : string -> nat -> http_outcome) (now : datetime)
  (parse_date : string -> option Z) (savefig : string -> bool)
  (start_date end_date : datetime) :
  gtb start_date end_date = false ->
  gtb start_date now = false ->
  forall t, in_range start_date end_date t -> ordinal t < MAXORDINAL ->
    EvGet (day_url t)
    ∈ (main net now parse_date savefig start_date end_date).2.
Proof.
  intros Hse Hsn t Ht Hord.
  destruct (main_trace net now parse_date savefig _ _ Hse Hsn) as [w ->].
  right. apply elem_of_app. left. apply requested_days.
  apply elem_of_fetched_days. auto.
Qed.

Lemma main_requests_every_day_witness :
  gtb (midnight 2024 11 4) (midnight 2024 11 3) = true
  /\ EvGet (day_url (midnight 2024 11 4))
     ∈ (main (fun _ _ => Raised) (midnight 2024 11 3) (fun _ => None)
          (fun _ => true) (midnight 2024 11 2) (midnight 2024 11 5)).2.
Proof.
  split; [reflexivity|].
  apply (main_requests_every_day (fun _ _ => Raised) (midnight 2024 11 3)
           (fun _ => None) (fun _ => true) (midnight 2024 11 2)
           (midnight 2024 11 5));
    [reflexivity|reflexivity| |reflexivity].
  split; [exists 2%nat; reflexivity|reflexivity].
Defined.

(** ** Outcomes of the normalizer *)

Lemma rmap_raise_inv {A B} (f : A -> result B) l e :
  rmap f l = Raise e -> exists x, x ∈ l /\ f x = Raise e.
Proof.
  induction l as [|x l IH]; cbn; [discriminate|].
  destruct (f x) as [y|e'] eqn:Hx; cbn.
  - destruct (rmap f l) as [ys|e'']; cbn; [discriminate|].
    intros [= ->]. destruct IH as (x' & Hin & Hx'); [reflexivity|].
    exists x'. split; [right; exact Hin|exact Hx'].
  - intros [= ->]. exists x. split; [left|exact Hx].
Qed.

Lemma to_datetime_raise parse_date c e :
  to_datetime parse_date c = Raise e -> e = DateParseError.
Proof.
  destruct c as [s|d]; cbn; [|discriminate].
  destruct (parse_date s); [discriminate|]. intros [= <-]. reflexivity.
Qed.

Lemma rmap_dates parse_date df :
  (exists dates, rmap (to_datetime parse_date) (date <$> df) = Ok dates)
  \/ (rmap (to_datetime parse_date) (date <$> df) = Raise DateParseError
      /\ ~ parsable parse_date df).
Proof.
  destruct (rmap (to_datetime parse_date) (date <$> df)) as [dates|e] eqn:Hd.
  - left. eexists. reflexivity.
  - right. apply rmap_raise_inv in Hd as (c & Hc & He).
    pose proof (to_datetime_raise _ _ _ He) as ->. split; [reflexivity|].
    intros Hp. apply list_elem_of_fmap in Hc as (q & -> & Hq).
    destruct (Hp q Hq) as [d Hd]. congruence.
Qed.

Lemma NoDup_set_index parse_date df dates :
  rmap (to_datetime parse_date) (date <$> df) = Ok dates ->
  NoDup ((set_index df dates).*1) <-> distinct_labels parse_date df.
Proof.
  intros Hd. pose proof (rmap_Forall2 _ _ _ Hd) as Hf.
  apply Forall2_fmap_l in Hf.
  assert (Hlab : forall i q d, df !! i = Some q ->
            to_datetime parse_date (date q) = Ok d ->
            (set_index df dates).*1 !! i = Some (article q, d)).
  { intros i q d Hq Hqd. rewrite list_lookup_fmap. unfold set_index.
    rewrite lookup_zip_with, Hq. cbn.
    destruct (Forall2_lookup_l _ _ _ _ _ Hf Hq) as (d' & Hd' & Hqd').
    cbn in Hqd'. rewrite Hd'. cbn. congruence. }
  split.
  - intros Hnd i j q1 q2 d Hq1 Hq2 Ha H1 H2.
    eapply (proj1 (NoDup_alt _) Hnd i j (article q1, d)).
    + apply Hlab; assumption.
    + rewrite Ha. apply Hlab; assumption.
  - intros Hdistinct. apply NoDup_alt. intros i j k Hi Hj.
    rewrite list_lookup_fmap in Hi, Hj. unfold set_index in Hi, Hj.
    rewrite lookup_zip_with in Hi, Hj.
    destruct (df !! i) as [q1|] eqn:Hq1; [|discriminate].
    destruct (df !! j) as [q2|] eqn:Hq2; [|discriminate].
    cbn in Hi, Hj.
    destruct (dates !! i) as [d1|] eqn:Hd1; [|discriminate].
    destruct (dates !! j) as [d2|] eqn:Hd2; [|discriminate].
    cbn in Hi, Hj. injection Hi as <-. injection Hj as Ha Hdd.
    pose proof (Forall2_lookup_lr _ _ _ _ _ _ Hf Hq1 Hd1) as H1.
    pose proof (Forall2_lookup_lr _ _ _ _ _ _ Hf Hq2 Hd2) as H2.
    cbn in H1, H2. subst d2. eapply Hdistinct; eauto.
Qed.

(** The normalizer, by cases. *)
Lemma normalized_cases parse_date df :
  (normalized parse_date df = Raise DateParseError
   /\ ~ parsable parse_date df)
  \/ (normalized parse_date df = Raise EmptyFrame
      /\ df = [])
  \/ (normalized parse_date df = Raise DuplicateIndex
      /\ df <> [] /\ parsable parse_date df /\ ~ distinct_labels parse_date df)
  \/ ((exists dense, normalized parse_date df = Ok dense)
      /\ df <> [] /\ parsable parse_date df /\ distinct_labels parse_date df).
Proof.
  destruct (rmap_dates parse_date df) as [[dates Hd]|[Hd Hnp]].
  - assert (Hp : parsable parse_date df).
    { intros q Hq. eapply parsed_date; eassumption. }
    pose proof (NoDup_set_index _ _ _ Hd) as Hnd.
    unfold normalized. rewrite Hd. cbn [rbind].
    pose proof (rmap_Forall2 _ _ _ Hd) as Hf. apply Forall2_length in Hf.
    rewrite length_fmap in Hf.
    destruct dates as [|d0 ds].
    + right. left. split; [reflexivity|]. destruct df; [reflexivity|discriminate].
    + assert (Hne : df <> []) by (intros ->; discriminate).
      unfold reindex.
      destruct (decide (NoDup (set_index df (d0 :: ds)).*1)) as [H|H].
      * right. right. right. split; [eexists; reflexivity|].
        split; [exact Hne|]. split; [exact Hp|]. apply Hnd. exact H.
      * right. right. left. split; [reflexivity|].
        split; [exact Hne|]. split; [exact Hp|]. intros H'. apply H, Hnd, H'.
  - left. split; [|exact Hnp]. unfold normalized. rewrite Hd. reflexivity.
Qed.

Lemma process_wiki_data_normalized parse_date df :
  (forall e, process_wiki_data parse_date df = Raise e
             <-> normalized parse_date df = Raise e)
  /\ ((exists out, process_wiki_data parse_date df = Ok out)
      <-> exists dense, normalized parse_date df = Ok dense).
Proof.
  unfold process_wiki_data.
  destruct (normalized parse_date df) as [dense|e]; cbn [rbind].
  - split.
    + intros e. split; discriminate.
    + split; intros _; eexists; reflexivity.
  - split.
    + intros e'. tauto.
    + split; intros [? H]; discriminate.
Qed.

(** X6. [process_wiki_data] returns a table exactly when the frame is not
    empty, all its dates are accepted and no two of its rows have the same
    article and day. It raises the date error exactly when some date is
    rejected, the error of the empty frame exactly when the frame has no
    row, and the duplicate-label error of [reindex] exactly when the frame
    is not empty, its dates are accepted and two rows share an article and
    a day; it raises nothing else. *)
Theorem process_wiki_data_outcome (parse_date : string -> option Z)
  (df : DataFrame) :
  ((exists out, process_wiki_data parse_date df = Ok out)
   <-> df <> [] /\ parsable parse_date df /\ distinct_labels parse_date df)
  /\ (process_wiki_data parse_date df = Raise DateParseError
      <-> ~ parsable parse_date df)
  /\ (process_wiki_data parse_date df = Raise EmptyFrame <-> df = [])
  /\ (process_wiki_data parse_date df = Raise DuplicateIndex
      <-> df <> [] /\ parsable parse_date df
          /\ ~ distinct_labels parse_date df)
  /\ (forall e, process_wiki_data parse_date df = Raise e ->
        e = DateParseError \/ e = EmptyFrame \/ e = DuplicateIndex).
Proof.
  destruct (process_wiki_data_normalized parse_date df) as [Hr Ho].
  rewrite Ho, !Hr.
  assert (Hempty : parsable parse_date (@nil row)).
  { intros q Hq. inversion Hq. }
  destruct (normalized_cases parse_date df)
    as [[E H]|[[E H]|[(E & H1 & H2 & H3)|([dense E] & H1 & H2 & H3)]]].
  - split_and!.
    + split; [intros [? ?]; congruence|tauto].
    + tauto.
    + split; [congruence|]. intros ->. contradiction.
    + split; [congruence|tauto].
    + intros e He. apply Hr in He. rewrite E in He. injection He as <-. auto.
  - split_and!.
    + split; [intros [? ?]; congruence|tauto].
    + split; [congruence|]. subst df. contradiction.
    + tauto.
    + split; [congruence|tauto].
    + intros e He. apply Hr in He. rewrite E in He. injection He as <-. auto.
  - split_and!.
    + split; [intros [? ?]; congruence|tauto].
    + split; [congruence|tauto].
    + split; [congruence|tauto].
    + tauto.
    + intros e He. apply Hr in He. rewrite E in He. injection He as <-. auto.
  - split_and!.
    + split; [tauto|]. intros _. eexists. exact E.
    + split; [congruence|tauto].
    + split; [congruence|tauto].
    + split; [congruence|tauto].
    + intros e He. apply Hr in He. congruence.
Qed.

(** ** The table of the selected articles, block by block *)

Lemma elem_of_parsed_dates parse_date df dates d :
  rmap (to_datetime parse_date) (date <$> df) = Ok dates ->
  d ∈ dates <-> exists q, q ∈ df /\ to_datetime parse_date (date q) = Ok d.
Proof.
  intros Hd. pose proof (rmap_Forall2 _ _ _ Hd) as Hf.
  apply Forall2_fmap_l in Hf. split.
  - intros Hin. apply list_elem_of_lookup in Hin as [i Hi].
    destruct (Forall2_lookup_r _ _ _ _ _ Hf Hi) as (q & Hq & Hqd).
    exists q. split; [eapply list_elem_of_lookup_2; eassumption|exact Hqd].
  - intros (q & Hq & Hqd). apply list_elem_of_lookup in Hq as [i Hi].
    destruct (Forall2_lookup_l _ _ _ _ _ Hf Hi) as (d' & Hd' & Hqd').
    cbn in Hqd'. assert (d' = d) as -> by congruence.
    eapply list_elem_of_lookup_2; eassumption.
Qed.

Lemma day_span_unique parse_date df lo hi lo' hi' :
  day_span parse_date df lo hi -> day_span parse_date df lo' hi' ->
  lo = lo' /\ hi = hi'.
Proof.
  intros ((q1 & Hq1 & Hd1) & (q2 & Hq2 & Hd2) & Hb)
         ((q1' & Hq1' & Hd1') & (q2' & Hq2' & Hd2') & Hb').
  pose proof (Hb _ _ Hq1' Hd1'). pose proof (Hb _ _ Hq2' Hd2').
  pose proof (Hb' _ _ Hq1 Hd1). pose proof (Hb' _ _ Hq2 Hd2). lia.
Qed.

Lemma normalized_span parse_date df dense :
  normalized parse_date df = Ok dense ->
  exists dates lo hi,
    rmap (to_datetime parse_date) (date <$> df) = Ok dates
    /\ NoDup ((set_index df dates).*1)
    /\ day_span parse_date df lo hi
    /\ lo <= hi
    /\ dense = unique (article <$> df)
                 ≫= (fun a => filled (block (set_index df dates)
                                        (date_range lo hi) a)).
Proof.
  intros Hn.
  destruct (normalized_inv parse_date df dense Hn)
    as (dates & lo & hi & Hd & Hlo & Hhi & Hrange & Hnd & Hdense).
  exists dates, lo, hi. split_and!; try assumption.
  - split_and!.
    + apply (elem_of_parsed_dates _ _ _ _ Hd). exact Hlo.
    + apply (elem_of_parsed_dates _ _ _ _ Hd). exact Hhi.
    + intros q d Hq Hqd. apply Hrange.
      apply (elem_of_parsed_dates _ _ _ _ Hd). eauto.
  - apply Hrange in Hlo. lia.
Qed.

Lemma length_bind_const {A B} (f : A -> list B) (l : list A) (n : nat) :
  (forall x, x ∈ l -> length (f x) = n) ->
  length (l ≫= f) = (length l * n)%nat.
Proof.
  induction l as [|x l IH]; intros H; [reflexivity|].
  rewrite bind_cons, length_app, H, IH by (try left; intros; apply H; right;
                                           assumption).
  cbn [length]. lia.
Qed.

(** The selected articles and the rows returned for them. *)
Lemma process_wiki_data_blocks parse_date df out :
  process_wiki_data parse_date df = Ok out ->
  exists dates lo hi (sel : list string),
    rmap (to_datetime parse_date) (date <$> df) = Ok dates
    /\ NoDup ((set_index df dates).*1)
    /\ day_span parse_date df lo hi
    /\ lo <= hi
    /\ NoDup sel
    /\ (forall a, a ∈ sel -> a ∈ article <$> df)
    /\ length sel
       = Nat.min TOP_ARTICLES (length (unique (article <$> df)))
    /\ out = sel ≫= (fun a => filled (block (set_index df dates)
                                        (date_range lo hi) a))
    /\ unique (article <$> out) = sel
    /\ (forall a, a ∈ sel ->
          group out a
          = filled (block (set_index df dates) (date_range lo hi) a)).
Proof.
  intros Hp.
  destruct (process_wiki_data_rows _ _ _ Hp) as (dense & Hn & Hout).
  destruct (normalized_span parse_date df dense Hn)
    as (dates & lo & hi & Hd & Hnd & Hspan & Hle & Hdense).
  destruct (groupby_last_normalized parse_date df dense Hn) as [Hkeys _].
  set (T := (top_articles TOP_ARTICLES dense).*1) in *.
  set (arts := unique (article <$> df)) in *.
  set (fb := fun a => filled (block (set_index df dates) (date_range lo hi) a))
    in *.
  assert (Hfb : forall a, Forall (fun r => article r = a) (fb a)).
  { intros a. apply filled_articles, block_articles. }
  assert (Hfbne : forall a, fb a <> []).
  { intros a E. apply (f_equal length) in E. unfold fb in E.
    rewrite length_filled, length_block in E. cbn in E. lia. }
  assert (Hout' : out = filter (fun a => a ∈ T) arts ≫= fb).
  { rewrite Hout, Hdense. apply filter_blocks. exact Hfb. }
  assert (Hsel : NoDup (filter (fun a => a ∈ T) arts)).
  { apply NoDup_filter, NoDup_unique. }
  assert (Hrank : (ranking (groupby_last dense)).*1 ≡ₚ arts).
  { rewrite ranking_perm. exact Hkeys. }
  assert (HTnd : NoDup T).
  { unfold T, top_articles, nlargest. rewrite fmap_take.
    eapply (sublist_NoDup _ ((ranking (groupby_last dense)).*1));
      [|apply sublist_take].
    rewrite Hrank. apply NoDup_unique. }
  assert (HT : forall a, a ∈ T -> a ∈ arts).
  { intros a Ha. unfold T, top_articles, nlargest in Ha.
    rewrite fmap_take in Ha. apply elem_of_take in Ha as (i & Hi & _).
    apply list_elem_of_lookup_2 in Hi. rewrite Hrank in Hi. exact Hi. }
  assert (HlenT : length T = Nat.min TOP_ARTICLES (length arts)).
  { unfold T. rewrite length_fmap. unfold top_articles.
    rewrite length_nlargest, <- (length_fmap fst), Hkeys. reflexivity. }
  assert (Hperm : filter (fun a => a ∈ T) arts ≡ₚ T).
  { apply NoDup_Permutation; [exact Hsel|exact HTnd|].
    intros a. rewrite list_elem_of_filter. split; [tauto|].
    intros Ha. split; [exact Ha|apply HT, Ha]. }
  exists dates, lo, hi, (filter (fun a => a ∈ T) arts).
  split_and!; try assumption.
  - intros a Ha. apply list_elem_of_filter in Ha as [_ Ha].
    apply (proj1 (elem_of_unique a (article <$> df))). exact Ha.
  - rewrite Hperm. exact HlenT.
  - rewrite Hout'.
    apply unique_blocks; [exact Hsel|]. intros a _. split; [apply Hfbne|apply Hfb].
  - intros a Ha. rewrite Hout'.
    rewrite group_blocks; [|exact Hsel|intros b _; apply Hfb].
    rewrite decide_True by exact Ha. reflexivity.
Qed.

(** X7. The table returned by [process_wiki_data] has twenty articles, or
    all the articles of the frame when they are fewer, and for each of them
    one row for every day from the earliest to the latest day of the
    frame. *)
Theorem process_wiki_data_size (parse_date : string -> option Z)
  (df out : DataFrame) :
  process_wiki_data parse_date df = Ok out ->
  exists lo hi,
    day_span parse_date df lo hi
    /\ length (unique (article <$> out))
       = Nat.min TOP_ARTICLES (length (unique (article <$> df)))
    /\ (forall a, a ∈ article <$> out ->
          length (group out a) = Z.to_nat (hi - lo + 1))
    /\ length out
       = (Nat.min TOP_ARTICLES (length (unique (article <$> df)))
          * Z.to_nat (hi - lo + 1))%nat.
Proof.
  intros Hp.
  destruct (process_wiki_data_blocks _ _ _ Hp)
    as (dates & lo & hi & sel & Hd & Hnd & Hspan & Hle & Hsel & Hin & Hlen
        & Hout & Huniq & Hgroup).
  exists lo, hi. split; [exact Hspan|]. split; [rewrite Huniq; exact Hlen|].
  split.
  - intros a Ha. apply (proj2 (elem_of_unique a (article <$> out))) in Ha.
    rewrite Huniq in Ha.
    rewrite Hgroup by exact Ha. rewrite length_filled, length_block.
    reflexivity.
  - rewrite <- Hlen. rewrite Hout at 1. apply length_bind_const.
    intros a _. rewrite length_filled, length_block. reflexivity.
Qed.

Lemma process_wiki_data_size_witness :
  exists out,
    process_wiki_data parse_iso_basic Samples.late_start = Ok out
    /\ exists lo hi,
         day_span parse_iso_basic Samples.late_start lo hi
         /\ length (unique (article <$> out))
            = Nat.min TOP_ARTICLES
                (length (unique (article <$> Samples.late_start)))
         /\ (forall a, a ∈ article <$> out ->
               length (group out a) = Z.to_nat (hi - lo + 1))
         /\ length out
            = (Nat.min TOP_ARTICLES
                 (length (unique (article <$> Samples.late_start)))
               * Z.to_nat (hi - lo + 1))%nat.
Proof.
  eexists. split; [vm_compute; reflexivity|].
  apply (process_wiki_data_size parse_iso_basic Samples.late_start).
  vm_compute. reflexivity.
Defined.

Lemma cell_of_row parse_date df dates q d :
  rmap (to_datetime parse_date) (date <$> df) = Ok dates ->
  NoDup ((set_index df dates).*1) ->
  q ∈ df -> to_datetime parse_date (date q) = Ok d ->
  cell (set_index df dates) (article q, d) = (views q, rank q).
Proof.
  intros Hd Hnd Hq Hqd. unfold cell.
  rewrite (lookup_label_elem _ (views q, rank q)); [reflexivity|exact Hnd|].
  apply (elem_of_set_index parse_date df dates _ _ _ _ Hd).
  exists q. auto.
Qed.




(** ** When the statistics are refused *)

Lemma ffill_from_valid v s : Forall is_Some (ffill_from (Some v) s).
Proof.
  revert v. induction s as [|x s IH]; intros v; cbn; [constructor|].
  destruct x as [w|]; constructor; eauto.
Qed.

Lemma ffill_all_valid x s :
  Forall is_Some (ffill (x :: s)) <-> is_Some x.
Proof.
  unfold ffill. cbn [ffill_from]. destruct x as [v|].
  - split; [eauto|]. intros _. constructor; [eauto|apply ffill_from_valid].
  - split.
    + intros H. inversion H as [|? ? H1 _]. exact H1.
    + intros [? ?]. discriminate.
Qed.

Lemma date_range_cons lo hi :
  lo <= hi -> date_range lo hi = lo :: date_range (lo + 1) hi.
Proof.
  intros H. unfold date_range.
  replace (hi - lo + 1) with (Z.succ (hi - (lo + 1) + 1)) by lia.
  rewrite seqZ_cons by lia. f_equal. f_equal. lia.
Qed.

Lemma fully_recorded_block parse_date df dates lo hi a :
  rmap (to_datetime parse_date) (date <$> df) = Ok dates ->
  NoDup ((set_index df dates).*1) ->
  lo <= hi ->
  Forall (fun r => is_Some (views r))
    (filled (block (set_index df dates) (date_range lo hi) a))
  <-> exists q, q ∈ df /\ article q = a
                /\ to_datetime parse_date (date q) = Ok lo
                /\ is_Some (views q).
Proof.
  intros Hd Hnd Hle.
  rewrite <- (Forall_fmap views is_Some), views_filled, block_views.
  rewrite date_range_cons by exact Hle. rewrite fmap_cons, ffill_all_valid.
  split.
  - intros [x Hx]. apply (cell_observation parse_date df dates a lo x Hd) in Hx.
    destruct Hx as (q & Hq & Ha & Hqd & Hv). exists q. split_and!; eauto.
  - intros (q & Hq & Ha & Hqd & Hv). subst a.
    rewrite (cell_of_row _ _ _ _ _ Hd Hnd Hq Hqd). exact Hv.
Qed.

(** X9. On the table that [process_wiki_data] returns, the statistics are
    computed exactly when some selected article has a row with valid views
    on the earliest day of the frame; otherwise every selected article
    starts with a missing value, no mean is defined and the conversion of
    the overall mean to an integer is refused. *)
Theorem calculate_statistics_needs_first_day
  (parse_date : string -> option Z) (df df_original top : DataFrame)
  (lo hi : Z) :
  process_wiki_data parse_date df = Ok top ->
  day_span parse_date df lo hi ->
  ((exists stats, calculate_statistics df_original top = Ok stats)
   <-> exists q, q ∈ df /\ article q ∈ article <$> top
                 /\ to_datetime parse_date (date q) = Ok lo
                 /\ is_Some (views q))
  /\ (calculate_statistics df_original top = Raise NanToInt
      <-> forall q, q ∈ df -> article q ∈ article <$> top ->
            to_datetime parse_date (date q) = Ok lo -> views q = None).
Proof.
  intros Hp Hspan.
  destruct (process_wiki_data_blocks _ _ _ Hp)
    as (dates & lo' & hi' & sel & Hd & Hnd & Hspan' & Hle & Hsel & Hin & Hlen
        & Hout & Huniq & Hgroup).
  destruct (day_span_unique _ _ _ _ _ _ Hspan' Hspan) as [-> ->].
  assert (Hrec : forall a, a ∈ sel ->
            fully_recorded top a
            <-> exists q, q ∈ df /\ article q = a
                          /\ to_datetime parse_date (date q) = Ok lo
                          /\ is_Some (views q)).
  { intros a Ha. unfold fully_recorded. rewrite Hgroup by exact Ha.
    apply fully_recorded_block; assumption. }
  assert (Hsel_top : forall a, a ∈ sel <-> a ∈ article <$> top).
  { intros a. rewrite <- Huniq. apply elem_of_unique. }
  assert (Hcomplete :
    complete_rows top <> []
    <-> exists q, q ∈ df /\ article q ∈ article <$> top
                  /\ to_datetime parse_date (date q) = Ok lo
                  /\ is_Some (views q)).
  { split.
    - intros Hne. destruct (complete_rows top) as [|r rows] eqn:E;
        [contradiction|].
      assert (Hr : r ∈ complete_rows top) by (rewrite E; left).
      unfold complete_rows in Hr. apply list_elem_of_filter in Hr as [Hfr Hr].
      assert (Ha : article r ∈ sel).
      { apply Hsel_top. apply list_elem_of_fmap_2. exact Hr. }
      apply (Hrec _ Ha) in Hfr as (q & Hq & Haq & Hqd & Hv).
      exists q. split_and!; try assumption.
      rewrite Haq. apply Hsel_top. exact Ha.
    - intros (q & Hq & Ha & Hqd & Hv) E.
      apply Hsel_top in Ha.
      assert (Hfr : fully_recorded top (article q)).
      { apply (Hrec _ Ha). exists q. auto. }
      assert (Hne : filled (block (set_index df dates) (date_range lo hi)
                              (article q)) <> []).
      { intros E'. apply (f_equal length) in E'.
        rewrite length_filled, length_block in E'. cbn in E'. lia. }
      rewrite <- (Hgroup _ Ha) in Hne.
      destruct (group top (article q)) as [|r rows] eqn:Eg; [contradiction|].
      assert (Hr : r ∈ group top (article q)) by (rewrite Eg; left).
      unfold group in Hr. apply list_elem_of_filter in Hr as [Har Hr].
      assert (Hc : r ∈ complete_rows top).
      { unfold complete_rows. apply list_elem_of_filter. split; [|exact Hr].
        rewrite Har. exact Hfr. }
      rewrite E in Hc. inversion Hc. }
  rewrite calculate_statistics_complete.
  destruct (complete_rows top) as [|r rows] eqn:E.
  - split.
    + split; [intros [? ?]; discriminate|].
      intros H. apply Hcomplete in H. contradiction.
    + split; [|reflexivity]. intros _ q Hq Ha Hqd.
      destruct (views q) as [v|] eqn:Hv; [|reflexivity].
      exfalso. assert (H : @nil row <> []); [|contradiction].
      apply Hcomplete. exists q. rewrite Hv. eauto.
  - assert (Hex : r :: rows <> []) by discriminate.
    apply Hcomplete in Hex. split.
    + split; [intros _; exact Hex|]. intros _. eexists. reflexivity.
    + split; [discriminate|]. intros Hall. exfalso.
      destruct Hex as (q & Hq & Ha & Hqd & [v Hv]).
      rewrite (Hall q Hq Ha Hqd) in Hv. discriminate.
Qed.

Lemma calculate_statistics_needs_first_day_witness :
  exists top,
    process_wiki_data parse_iso_basic Samples.late_start = Ok top
    /\ ((exists stats, calculate_statistics Samples.late_start top = Ok stats)
        <-> exists q, q ∈ Samples.late_start /\ article q ∈ article <$> top
                      /\ to_datetime parse_iso_basic (date q) = Ok Samples.day1
                      /\ is_Some (views q))
    /\ (calculate_statistics Samples.late_start top = Raise NanToInt
        <-> forall q, q ∈ Samples.late_start -> article q ∈ article <$> top ->
              to_datetime parse_iso_basic (date q) = Ok Samples.day1 ->
              views q = None).
Proof.
  eexists. split; [vm_compute; reflexivity|].
  apply (calculate_statistics_needs_first_day parse_iso_basic
           Samples.late_start Samples.late_start _ Samples.day1 Samples.day2).
  - vm_compute. reflexivity.
  - split; [|split].
    + exists (Samples.seen "A" 100 Samples.day1). split; [left|reflexivity].
    + exists (Samples.seen "A" 120 Samples.day2).
      split; [right; left|reflexivity].
    + intros q d Hq Hd. unfold Samples.late_start in Hq.
      repeat (apply elem_of_cons in Hq as [->|Hq]);
        try (cbn in Hd; injection Hd as <-; vm_compute; split; discriminate).
      inversion Hq.
Defined.

(** ** The exit status *)

Lemma saves_days net days : saves (days ≫= day_trace net) = 0%nat.
Proof. apply saves_bind. intros t _. apply (day_trace_profile net t). Qed.



Lemma saves_cons e w :
  saves (e :: w) = ((if is_savefig e then 1 else 0) + saves w)%nat.
Proof. unfold saves. cbn [List.filter]. destruct (is_savefig e); reflexivity. Qed.


(** ** The original script *)

Section OriginalFacts.

Variable net : string -> nat -> http_outcome.

Lemma original_fetch t tr0 :
  Original.get_top_wiki_articles net "en.wikipedia" (str (year t))
    (str (month t)) (str (day t)) "all-access" tr0
  = (match net (day_url t) 0%nat with
     | Raised => Original.Crash Original.RequestError
     | Response status_code json =>
         Original.Done (if status_code =? 200 then Some json else None)
     end, tr0 ++ [EvGet (day_url t)]).
Proof.
  unfold Original.get_top_wiki_articles, Original.api, Original.sbind,
    Original.semit, Original.stop, Original.sret.
  change (join "/" [API_BASE_URL; TOP_ENDPOINT;
                    join "/" ["en.wikipedia"; "all-access"; str (year t);
                              str (month t); str (day t)]])
    with (day_url t).
  destruct (net (day_url t) 0%nat) as [|status_code json]; [reflexivity|].
  destruct (status_code =? 200); reflexivity.
Qed.

(** One turn of the loop of the script. *)
Lemma original_turn t tr0 (k : DataFrame -> Original.Run DataFrame) :
  Original.sbind
    (Original.get_top_wiki_articles net "en.wikipedia" (str (year t))
       (str (month t)) (str (day t)) "all-access")
    (fun data =>
       Original.sbind (Original.first_articles data)
         (fun arts => k (tagged (date_tag t) arts))) tr0
  = match Original.day_rows net t with
    | Original.Done rows => k rows (tr0 ++ [EvGet (day_url t)])
    | Original.Crash c => (Original.Crash c, tr0 ++ [EvGet (day_url t)])
    end.
Proof.
  unfold Original.sbind at 1. rewrite original_fetch.
  unfold Original.day_rows.
  destruct (net (day_url t) 0%nat) as [|status_code json]; [reflexivity|].
  destruct (status_code =? 200); [|reflexivity].
  unfold Original.first_articles, Original.sbind, Original.stop, Original.sret.
  destruct (items json) as [[|it its]|]; reflexivity.
Qed.

Lemma answered_day_rows t :
  Original.answered net t
  <-> exists rows, Original.day_rows net t = Original.Done rows.
Proof.
  unfold Original.answered, Original.day_rows. split.
  - intros (json & it & its & -> & Hi). cbn. rewrite Hi. eexists. reflexivity.
  - intros [rows H].
    destruct (net (day_url t) 0%nat) as [|status_code json]; [discriminate|].
    destruct (status_code =? 200) eqn:Hs; [|discriminate].
    apply Z.eqb_eq in Hs. subst status_code.
    destruct (items json) as [[|it its]|] eqn:Hi; try discriminate.
    exists json, it, its. auto.
Qed.

(** On an answered day both programs add the same rows, and the client of
    the refactored program needs one request. *)
Lemma answered_day t :
  Original.answered net t ->
  Original.day_rows net t = Original.Done (day_rows net t)
  /\ fetch_trace net t
     = [EvLog INFO (MsgRequest (str (year t)) (str (month t)) (str (day t)) 1);
        EvGet (day_url t)].
Proof.
  intros (json & it & its & Hnet & Hi).
  assert (Hf : get_top_wiki_articles net DEFAULT_PROJECT (str (year t))
                 (str (month t)) (str (day t)) DEFAULT_ACCESS []
               = (Ok (Some json),
                  [EvLog INFO (MsgRequest (str (year t)) (str (month t))
                                 (str (day t)) 1);
                   EvGet (day_url t)])).
  { unfold get_top_wiki_articles. fold (day_url t).
    cbn [seq MAX_RETRIES]. rewrite attempts_step. cbn zeta.
    rewrite Hnet. reflexivity. }
  split.
  - unfold Original.day_rows, day_rows, fetched. rewrite Hf, Hnet. cbn.
    rewrite Hi. reflexivity.
  - unfold fetch_trace. rewrite Hf. reflexivity.
Qed.

Lemma original_loop_answered budget current_date end_date df tr0 :
  ordinal end_date - ordinal current_date + 1 <= Z.of_nat budget ->
  (forall t, t ∈ fetched_days current_date end_date ->
     Original.answered net t) ->
  Original.collect_loop net budget current_date end_date df tr0
  = (if overflows current_date end_date
     then Original.Crash Original.DateOverflow
     else Original.Done
            (df ++ (range_days current_date end_date ≫= day_rows net)),
     tr0 ++ ((fun t => EvGet (day_url t))
               <$> fetched_days current_date end_date)).
Proof.
  revert current_date df tr0.
  induction budget as [|budget IH]; intros cur df tr0 Hb Hall;
    cbn [Original.collect_loop]; destruct (leb cur end_date) eqn:Hle.
  - apply leb_ordinal in Hle. lia.
  - rewrite overflows_nil, range_days_nil, fetched_days_nil by assumption.
    cbn. rewrite !app_nil_r. reflexivity.
  - unfold add_delta.
    destruct (Z.ltb_spec (ordinal cur) MAXORDINAL) as [Hlt|Hge].
    + rewrite overflows_cons, range_days_cons by assumption.
      rewrite fetched_days_cons in * by assumption.
      rewrite bind_cons, fmap_cons. fold (date_tag cur).
      rewrite (original_turn cur tr0
                 (fun rows => Original.collect_loop net budget (next_day cur)
                                end_date (df ++ rows))).
      destruct (answered_day cur (Hall cur ltac:(left))) as [-> _].
      rewrite IH; [|cbn; lia|intros t Ht; apply Hall; right; exact Ht].
      rewrite <- !app_assoc. reflexivity.
    + rewrite overflows_stop, fetched_days_stop by assumption.
      cbn. rewrite app_nil_r. reflexivity.
  - rewrite overflows_nil, range_days_nil, fetched_days_nil by assumption.
    cbn. rewrite !app_nil_r. reflexivity.
Qed.

Lemma original_loop_crash budget current_date end_date df tr0 t :
  ordinal end_date - ordinal current_date + 1 <= Z.of_nat budget ->
  t ∈ fetched_days current_date end_date -> ~ Original.answered net t ->
  exists c pre u post,
    fetched_days current_date end_date = pre ++ u :: post
    /\ (forall t', t' ∈ pre -> Original.answered net t')
    /\ Original.day_rows net u = Original.Crash c
    /\ Original.collect_loop net budget current_date end_date df tr0
       = (Original.Crash c,
          tr0 ++ ((fun t => EvGet (day_url t)) <$> pre ++ [u])).
Proof.
  revert current_date df tr0.
  induction budget as [|budget IH]; intros cur df tr0 Hb Ht Hna;
    cbn [Original.collect_loop]; destruct (leb cur end_date) eqn:Hle.
  - apply leb_ordinal in Hle. lia.
  - rewrite fetched_days_nil in Ht by assumption. inversion Ht.
  - unfold add_delta.
    destruct (Z.ltb_spec (ordinal cur) MAXORDINAL) as [Hlt|Hge];
      [|rewrite fetched_days_stop in Ht by assumption; inversion Ht].
    rewrite fetched_days_cons in * by assumption. fold (date_tag cur).
    rewrite (original_turn cur tr0
               (fun rows => Original.collect_loop net budget (next_day cur)
                              end_date (df ++ rows))).
    destruct (Original.day_rows net cur) as [rows|c] eqn:Hrows.
    + assert (Hcur : Original.answered net cur).
      { apply answered_day_rows. eauto. }
      apply elem_of_cons in Ht as [->|Ht]; [contradiction|].
      destruct (IH (next_day cur) (df ++ rows) (tr0 ++ [EvGet (day_url cur)])
                  ltac:(cbn; lia) Ht Hna)
        as (c & pre & u & post & Hr & Hpre & Hu & Hloop).
      exists c, (cur :: pre), u, post. split_and!.
      * rewrite Hr. reflexivity.
      * intros t' Ht'. apply elem_of_cons in Ht' as [->|Ht']; auto.
      * exact Hu.
      * rewrite Hloop. cbn [app fmap list_fmap]. rewrite <- app_assoc.
        reflexivity.
    + exists c, [], cur, (fetched_days (next_day cur) end_date). split_and!.
      * reflexivity.
      * intros t' Ht'. inversion Ht'.
      * exact Hrows.
      * reflexivity.
  - rewrite fetched_days_nil in Ht by assumption. inversion Ht.
Qed.

End OriginalFacts.

(** ** Statistics on the collected and on the dense table *)

Lemma series_max_ext s1 s2 :
  (forall v, Some v ∈ s1 <-> Some v ∈ s2) -> series_max s1 = series_max s2.
Proof.
  intros H. pose proof (series_max_spec s1) as H1.
  pose proof (series_max_spec s2) as H2.
  destruct (series_max s1) as [m1|], (series_max s2) as [m2|].
  - destruct H1 as [Hin1 Hb1], H2 as [Hin2 Hb2].
    apply H in Hin1 as Hin1'. apply H in Hin2 as Hin2'.
    pose proof (Hb2 _ Hin1'). pose proof (Hb1 _ Hin2'). f_equal. lia.
  - destruct H1 as [Hin1 _]. apply H in Hin1. exfalso. exact (H2 _ Hin1).
  - destruct H2 as [Hin2 _]. apply H in Hin2. exfalso. exact (H1 _ Hin2).
  - reflexivity.
Qed.

Lemma normalized_keeps_row parse_date df dense q d :
  normalized parse_date df = Ok dense ->
  q ∈ df -> to_datetime parse_date (date q) = Ok d ->
  exists r, r ∈ dense /\ article r = article q /\ date r = Timestamp d
            /\ rank r = rank q
            /\ (is_Some (views q) -> views r = views q).
Proof.
  intros Hn Hq Hqd.
  destruct (normalized_span parse_date df dense Hn)
    as (dates & lo & hi & Hd & Hnd & Hspan & Hle & Hdense).
  destruct Hspan as (_ & _ & Hb). pose proof (Hb q d Hq Hqd) as Hrange.
  pose proof (cell_of_row _ _ _ _ _ Hd Hnd Hq Hqd) as Hcell.
  set (j := Z.to_nat (d - lo)).
  assert (Hj : lo + Z.of_nat j = d) by (unfold j; lia).
  pose proof (filled_block_lookup (set_index df dates) lo hi (article q) j
                ltac:(lia)) as Hrow.
  rewrite Hj, Hcell in Hrow. cbn [fst snd] in Hrow.
  eexists. split.
  { rewrite Hdense. apply list_elem_of_bind. exists (article q).
    split; [eapply list_elem_of_lookup_2; exact Hrow|].
    apply elem_of_unique, list_elem_of_fmap_2. exact Hq. }
  cbn [article date rank views].
  split; [reflexivity|]. split; [reflexivity|]. split; [reflexivity|].
  intros [v Hv].
  pose proof (block_views_lookup (set_index df dates) lo hi (article q) j
                ltac:(lia)) as Hcellj.
  rewrite Hj, Hcell in Hcellj. cbn [fst] in Hcellj.
  rewrite (take_S_r _ _ _ Hcellj), last_valid_snoc, Hv. reflexivity.
Qed.

(** The valid views of the dense table are those of the frame given. *)
Lemma normalized_values parse_date df dense v :
  normalized parse_date df = Ok dense ->
  Some v ∈ views <$> dense <-> Some v ∈ views <$> df.
Proof.
  intros Hn. split.
  - intros Hin. apply list_elem_of_fmap in Hin as (r & Hv & Hr).
    destruct (normalized_nearest_prior parse_date df dense r Hn Hr)
      as (_ & t & _ & Hnp).
    rewrite <- Hv in Hnp. cbn in Hnp.
    destruct Hnp as (t' & _ & (q & Hq & _ & _ & Hqv) & _).
    rewrite <- Hqv. apply list_elem_of_fmap_2. exact Hq.
  - intros Hin. apply list_elem_of_fmap in Hin as (q & Hv & Hq).
    destruct (normalized_parsed parse_date df dense q Hn Hq) as [d Hqd].
    destruct (normalized_keeps_row _ _ _ _ _ Hn Hq Hqd)
      as (r & Hr & _ & _ & _ & Hrv).
    rewrite Hv, <- Hrv by (rewrite <- Hv; eauto).
    apply list_elem_of_fmap_2. exact Hr.
Qed.

Lemma calculate_statistics_dense parse_date df dense top :
  normalized parse_date df = Ok dense ->
  calculate_statistics dense top = calculate_statistics df top.
Proof.
  intros Hn. rewrite !calculate_statistics_means.
  destruct (normalized_groups parse_date df dense Hn)
    as (_ & _ & _ & _ & _ & _ & _ & Huniq & _).
  rewrite Huniq.
  rewrite (series_max_ext (views <$> dense) (views <$> df)); [reflexivity|].
  intros v. apply (normalized_values parse_date). exact Hn.
Qed.

(** ** The original script against the refactored program *)

Lemma gets_cons e w :
  gets (e :: w) = ((if is_get e then 1 else 0) + gets w)%nat.
Proof. unfold gets. cbn [List.filter]. destruct (is_get e); reflexivity. Qed.

Lemma gets_requests (days : list datetime) :
  gets ((fun t => EvGet (day_url t)) <$> days) = length days.
Proof.
  induction days as [|t days IH]; [reflexivity|].
  rewrite fmap_cons, gets_cons, IH. reflexivity.
Qed.

Lemma gets_answered_days net (days : list datetime) :
  (forall t, t ∈ days -> Original.answered net t) ->
  gets (days ≫= day_trace net) = length days.
Proof.
  induction days as [|t days IH]; intros H; [reflexivity|].
  rewrite bind_cons, gets_app, IH by (intros; apply H; right; assumption).
  unfold day_trace. destruct (answered_day net t (H t ltac:(left))) as [_ ->].
  rewrite gets_app. cbn [length].
  destruct (usable (fetched net t)); reflexivity.
Qed.

(** The script, step by step, when every day that is fetched is
    answered. *)
Lemma script_eq net parse_date savefig start_date end_date :
  (forall t, t ∈ fetched_days start_date end_date ->
     Original.answered net t) ->
  Original.script net parse_date savefig start_date end_date []
  = let rows := range_days start_date end_date ≫= day_rows net in
    let w :=
      (fun t => EvGet (day_url t)) <$> fetched_days start_date end_date in
    if overflows start_date end_date
    then (Original.Crash Original.DateOverflow, w)
    else
      match normalized parse_date rows with
      | Raise x => (Original.Crash (Original.Pandas x), w)
      | Ok dense =>
          let top := isin_filter ((top_articles 20 dense).*1) dense in
          match calculate_statistics dense top with
          | Raise x => (Original.Crash (Original.Pandas x), w)
          | Ok stats =>
              if savefig Original.OUTPUT_FILENAME then
                (Original.Done (top, stats),
                 w ++ [EvSavefig Original.OUTPUT_FILENAME])
              else (Original.Crash Original.SavefigFailed, w)
          end
      end.
Proof.
  intros Hall. unfold Original.script. unfold Original.sbind at 1.
  rewrite original_loop_answered; [|lia|exact Hall].
  cbn [app]. cbn zeta.
  destruct (overflows start_date end_date); [reflexivity|].
  destruct (normalized parse_date _) as [dense|x]; [|reflexivity].
  unfold Original.pandas at 1, Original.sbind at 1, Original.sret at 1.
  destruct (calculate_statistics dense _) as [stats|x]; [|reflexivity].
  unfold Original.pandas, Original.sbind, Original.sret.
  destruct (savefig Original.OUTPUT_FILENAME); reflexivity.
Qed.

(** X11. When every day of the range is answered at once with the status
    200 and a body that has a first item, the start date is not after the
    current time and the two images can be written alike, the refactored
    program and the original script give the same result: one completes
    exactly when the other does, with the same table of selected articles
    and the same three statistics, although the script takes the maximum
    and the number of articles from the dense table and the refactored
    program from the table as collected. Both send one request for each day
    of the range before 9999-12-31, where both stop on the overflow of the
    date. The views are taken within [2^53], which the [float64] column of
    the dense table holds exactly. *)
Theorem original_script_agrees
  (net : string -> nat -> http_outcome) (now : datetime)
  (parse_date : string -> option Z) (savefig : string -> bool)
  (start_date end_date : datetime) :
  gtb start_date now = false ->
  (forall t, in_range start_date end_date t -> Original.answered net t) ->
  (forall t x, in_range start_date end_date t -> x ∈ listed net t ->
     Z.abs (e_views x) <= 2 ^ 53) ->
  savefig Original.OUTPUT_FILENAME = savefig OUTPUT_FILENAME ->
  (forall r,
     (run net now parse_date savefig start_date end_date []).1 = Ok r
     <-> (Original.script net parse_date savefig start_date end_date []).1
         = Original.Done r)
  /\ gets (run net now parse_date savefig start_date end_date []).2
     = length (fetched_days start_date end_date)
  /\ gets (Original.script net parse_date savefig start_date end_date []).2
     = length (fetched_days start_date end_date).
Proof.
  intros Hnow Hall _ Hfs.
  assert (Hdays : forall t, t ∈ fetched_days start_date end_date ->
                    Original.answered net t).
  { intros t Ht. apply Hall. apply elem_of_fetched_days in Ht. tauto. }
  rewrite run_eq, script_eq, Hnow by exact Hdays. cbn zeta.
  pose proof (gets_answered_days net _ Hdays) as Hg.
  pose proof (gets_requests (fetched_days start_date end_date)) as Hg'.
  destruct (gtb start_date end_date) eqn:Hse.
  { assert (Hle : leb start_date end_date = false)
      by (unfold leb; rewrite Hse; reflexivity).
    rewrite overflows_nil, fetched_days_nil, range_days_nil by exact Hle.
    cbn. split; [|split; reflexivity]. intros r. split; discriminate. }
  set (D := fetched_days start_date end_date ≫= day_trace net) in *.
  set (G := (fun t => EvGet (day_url t)) <$> fetched_days start_date end_date)
    in *.
  clearbody D G.
  destruct (overflows start_date end_date).
  { cbn [fst snd app]. split; [|split].
    - intros r. split; discriminate.
    - rewrite gets_cons. exact Hg.
    - exact Hg'. }
  destruct (range_days start_date end_date ≫= day_rows net) as [|q rows] eqn:E.
  { cbn [normalized fmap list_fmap rmap rbind fst snd app]. split; [|split].
    - intros r. split; discriminate.
    - rewrite gets_cons. exact Hg.
    - exact Hg'. }
  unfold process_wiki_data.
  destruct (normalized parse_date (q :: rows)) as [dense|x] eqn:Hn;
    cbn [rbind].
  - rewrite (calculate_statistics_dense parse_date (q :: rows) dense _ Hn).
    change TOP_ARTICLES with 20%nat.
    destruct (calculate_statistics (q :: rows) _) as [stats|x].
    + rewrite Hfs. destruct (savefig OUTPUT_FILENAME); cbn [fst snd app].
      * split; [|split].
        -- intros r. split; intros [= <-]; reflexivity.
        -- rewrite gets_cons, !gets_app, Hg. cbn. lia.
        -- rewrite gets_app, Hg'. cbn. lia.
      * split; [|split].
        -- intros r. split; discriminate.
        -- rewrite gets_cons, !gets_app, Hg. cbn. lia.
        -- exact Hg'.
    + cbn [fst snd app]. split; [|split].
      * intros r. split; discriminate.
      * rewrite gets_cons, !gets_app, Hg. cbn. lia.
      * exact Hg'.
  - cbn [fst snd app]. split; [|split].
    + intros r. split; discriminate.
    + rewrite gets_cons, !gets_app, Hg. cbn. lia.
    + exact Hg'.
Qed.

Lemma original_script_agrees_witness :
  (forall r,
     (run Samples.net Samples.now parse_iso_basic (fun _ => true)
        Samples.start_date Samples.end_date []).1 = Ok r
     <-> (Original.script Samples.net parse_iso_basic (fun _ => true)
            Samples.start_date Samples.end_date []).1 = Original.Done r)
  /\ gets (run Samples.net Samples.now parse_iso_basic (fun _ => true)
             Samples.start_date Samples.end_date []).2
     = length (fetched_days Samples.start_date Samples.end_date)
  /\ gets (Original.script Samples.net parse_iso_basic (fun _ => true)
             Samples.start_date Samples.end_date []).2
     = length (fetched_days Samples.start_date Samples.end_date).
Proof.
  assert (Hdays : forall t, in_range Samples.start_date Samples.end_date t ->
            t = Samples.start_date \/ t = Samples.end_date).
  { intros t [[k ->] Ht].
    assert (Hk : (k < 2)%nat).
    { apply leb_ordinal in Ht. rewrite ordinal_iter in Ht.
      unfold Samples.start_date, Samples.end_date, midnight in Ht.
      cbn [ordinal] in Ht.
      change (ymd2ord 2024 10 11) with (ymd2ord 2024 10 10 + 1) in Ht. lia. }
    destruct k as [|[|k]]; [left|right|lia]; reflexivity. }
  apply (original_script_agrees Samples.net Samples.now parse_iso_basic
           (fun _ => true) Samples.start_date Samples.end_date).
  - reflexivity.
  - intros t Ht. destruct (Hdays t Ht) as [-> | ->];
      eexists _, _, _; split; vm_compute; reflexivity.
  - intros t x Ht. revert x. apply Forall_forall.
    destruct (Hdays t Ht) as [-> | ->];
      apply (bool_decide_unpack _); vm_compute; exact I.
  - reflexivity.
Defined.

(** X12. The original script has no retry and no guard on the answer: when
    some day of the range before 9999-12-31 is not answered at once with
    the status 200 and a body that has a first item, the script stops at
    the first such day with the error of that day, after one request for
    each day up to it, and writes no image. *)
Theorem original_script_crashes
  (net : string -> nat -> http_outcome) (parse_date : string -> option Z)
  (savefig : string -> bool) (start_date end_date t : datetime) :
  in_range start_date end_date t ->
  ordinal t < MAXORDINAL ->
  ~ Original.answered net t ->
  exists c tr,
    Original.script net parse_date savefig start_date end_date []
    = (Original.Crash c, tr)
    /\ (c = Original.RequestError \/ c = Original.NoneNotSubscriptable
        \/ c = Original.NoItemsKey \/ c = Original.NoFirstItem)
    /\ saves tr = 0%nat
    /\ (1 <= gets tr <= length (fetched_days start_date end_date))%nat
    /\ exists pre u post,
         fetched_days start_date end_date = pre ++ u :: post
         /\ (forall t', t' ∈ pre -> Original.answered net t')
         /\ Original.day_rows net u = Original.Crash c
         /\ tr = (fun t => EvGet (day_url t)) <$> pre ++ [u].
Proof.
  intros Ht Hord Hna.
  assert (Hin : t ∈ fetched_days start_date end_date)
    by (apply elem_of_fetched_days; auto).
  destruct (original_loop_crash net
              (Z.to_nat (ordinal end_date - ordinal start_date + 1))
              start_date end_date [] [] t ltac:(lia) Hin Hna)
    as (c & pre & u & post & Hr & Hpre & Hu & Hloop).
  exists c, ((fun t => EvGet (day_url t)) <$> pre ++ [u]).
  split; [|split; [|split; [|split]]].
  - unfold Original.script. unfold Original.sbind at 1. rewrite Hloop.
    reflexivity.
  - unfold Original.day_rows in Hu.
    destruct (net (day_url u) 0%nat) as [|status_code json];
      [injection Hu as <-; auto|].
    destruct (status_code =? 200); [|injection Hu as <-; auto].
    destruct (items json) as [[|it its]|]; try discriminate;
      injection Hu as <-; auto.
  - clear. induction (pre ++ [u]) as [|x l IH]; [reflexivity|].
    rewrite fmap_cons, saves_cons, IH. reflexivity.
  - rewrite gets_requests, Hr, !length_app. cbn [length]. lia.
  - exists pre, u, post. auto.
Qed.

Lemma original_script_crashes_witness :
  exists c tr,
    Original.script Samples.patchy parse_iso_basic (fun _ => true)
      Samples.start_date Samples.end_date [] = (Original.Crash c, tr)
    /\ (c = Original.RequestError \/ c = Original.NoneNotSubscriptable
        \/ c = Original.NoItemsKey \/ c = Original.NoFirstItem)
    /\ saves tr = 0%nat
    /\ (1 <= gets tr
        <= length (fetched_days Samples.start_date Samples.end_date))%nat
    /\ exists pre u post,
         fetched_days Samples.start_date Samples.end_date = pre ++ u :: post
         /\ (forall t', t' ∈ pre -> Original.answered Samples.patchy t')
         /\ Original.day_rows Samples.patchy u = Original.Crash c
         /\ tr = (fun t => EvGet (day_url t)) <$> pre ++ [u].
Proof.
  apply (original_script_crashes Samples.patchy parse_iso_basic
           (fun _ => true) Samples.start_date Samples.end_date
           Samples.start_date).
  - split; [exists 0%nat; reflexivity|reflexivity].
  - reflexivity.
  - intros (json & it & its & H & _). vm_compute in H. discriminate.
Defined.

(** X13. The client of the original script sends one request and never
    sleeps or retries; it stops the script when the request raises and
    returns nothing for a status other than 200. When the first answer has
    the status 200 the two clients return the same body, the refactored one
    after a single request. They differ on a first answer with another
    status below 400: the refactored client returns its body, the original
    returns nothing. *)
Theorem original_client_single_request
  (net : string -> nat -> http_outcome) (project year month day access : string)
  (tr0 : trace) :
  let url := top_url project access year month day in
  let refactored :=
    get_top_wiki_articles net project year month day access tr0 in
  exists r,
    Original.get_top_wiki_articles net project year month day access tr0
    = (r, tr0 ++ [EvGet url])
    /\ (net url 0%nat = Raised <-> r = Original.Crash Original.RequestError)
    /\ (forall json, net url 0%nat = Response 200 json ->
          r = Original.Done (Some json)
          /\ refactored
             = (Ok (Some json),
                tr0 ++ [EvLog INFO (MsgRequest year month day 1); EvGet url]))
    /\ (forall status_code json,
          net url 0%nat = Response status_code json -> status_code <> 200 ->
          r = Original.Done None
          /\ (status_code < 400 -> refactored.1 = Ok (Some json))).
Proof.
  intros url refactored. subst refactored.
  unfold Original.get_top_wiki_articles, Original.api, Original.sbind,
    Original.semit, Original.stop, Original.sret, get_top_wiki_articles.
  change (join "/" [API_BASE_URL; TOP_ENDPOINT;
                    join "/" [project; access; year; month; day]]) with url.
  fold url. clearbody url.
  cbn [seq MAX_RETRIES]. rewrite attempts_step. cbn zeta. unfold classify.
  destruct (net url 0%nat) as [|status_code json] eqn:Hnet.
  - eexists. split; [reflexivity|]. split; [tauto|].
    split; [discriminate|]. discriminate.
  - destruct (status_code =? 200) eqn:H200.
    + apply Z.eqb_eq in H200. subst status_code. cbn.
      eexists. split; [reflexivity|]. split; [split; discriminate|].
      split.
      * intros json' [= <-]. split; reflexivity.
      * intros s json' [= <- <-] Hs. contradiction.
    + apply Z.eqb_neq in H200.
      eexists. split; [reflexivity|]. split; [split; discriminate|].
      split.
      * intros json' [= -> _]. contradiction.
      * intros s json' [= <- <-] _. split; [reflexivity|]. intros Hlt.
        assert (H429 : (status_code =? 429) = false) by (apply Z.eqb_neq; lia).
        assert (Hrs : raises_for_status status_code = false).
        { unfold raises_for_status. apply andb_false_iff. left.
          apply Z.leb_gt. lia. }
        rewrite H429, Hrs. reflexivity.
Qed.

(** ** The collector followed by the normalizer *)

Lemma day_rows_date net t r :
  r ∈ day_rows net t -> date r = DateStr (date_tag t).
Proof.
  unfold day_rows. destruct (usable (fetched net t)) as [arts|];
    [|intros H; inversion H].
  unfold tagged. intros H. apply list_elem_of_fmap in H as (x & -> & _).
  reflexivity.
Qed.

Lemma two_blocks_lookup {A B} (f : A -> list B) pre x mid y post b1 b2 :
  b1 ∈ f x -> b2 ∈ f y ->
  exists i j, i <> j
    /\ ((pre ++ x :: mid ++ y :: post) ≫= f) !! i = Some b1
    /\ ((pre ++ x :: mid ++ y :: post) ≫= f) !! j = Some b2.
Proof.
  intros H1 H2.
  apply list_elem_of_lookup in H1 as [i1 H1].
  apply list_elem_of_lookup in H2 as [i2 H2].
  pose proof (lookup_lt_Some _ _ _ H1) as Hlt.
  exists (length (pre ≫= f) + i1)%nat,
         (length (pre ≫= f) + (length (f x) + (length (mid ≫= f) + i2)))%nat.
  split; [lia|].
  rewrite bind_app, bind_cons, bind_app, bind_cons. split.
  - rewrite lookup_app_r by lia.
    replace (length (pre ≫= f) + i1 - length (pre ≫= f))%nat with i1 by lia.
    rewrite lookup_app_l by exact Hlt. exact H1.
  - rewrite lookup_app_r by lia.
    replace (length (pre ≫= f) + (length (f x) + (length (mid ≫= f) + i2))
             - length (pre ≫= f))%nat
      with (length (f x) + (length (mid ≫= f) + i2))%nat by lia.
    rewrite lookup_app_r by lia.
    replace (length (f x) + (length (mid ≫= f) + i2) - length (f x))%nat
      with (length (mid ≫= f) + i2)%nat by lia.
    rewrite lookup_app_r by lia.
    replace (length (mid ≫= f) + i2 - length (mid ≫= f))%nat with i2 by lia.
    apply lookup_app_l_Some. exact H2.
Qed.

Lemma two_days_lookup {A B} (f : A -> list B) (l : list A) x y b1 b2 :
  x ∈ l -> y ∈ l -> x <> y -> b1 ∈ f x -> b2 ∈ f y ->
  exists i j, i <> j /\ (l ≫= f) !! i = Some b1 /\ (l ≫= f) !! j = Some b2.
Proof.
  intros Hx Hy Hxy H1 H2.
  apply list_elem_of_split in Hx as (pre & rest & ->).
  apply elem_of_app in Hy as [Hy|Hy].
  - apply list_elem_of_split in Hy as (pre' & mid & ->).
    rewrite <- app_assoc. cbn [app].
    destruct (two_blocks_lookup f pre' y mid x rest b2 b1 H2 H1)
      as (i & j & Hij & Hi & Hj).
    exists j, i. auto.
  - apply elem_of_cons in Hy as [->|Hy]; [contradiction|].
    apply list_elem_of_split in Hy as (mid & post & ->).
    apply two_blocks_lookup; assumption.
Qed.

Lemma run_no_image net now parse_date savefig start_date end_date x tr :
  run net now parse_date savefig start_date end_date [] = (Raise x, tr) ->
  saves tr = 0%nat.
Proof.
  rewrite run_eq.
  destruct (gtb start_date end_date); [intros [= _ <-]; reflexivity|].
  destruct (gtb start_date now); [intros [= _ <-]; reflexivity|].
  cbn zeta.
  pose proof (saves_days net (fetched_days start_date end_date)) as Hdays.
  set (D := fetched_days start_date end_date ≫= day_trace net) in *.
  clearbody D.
  destruct (overflows start_date end_date).
  { intros [= _ <-]. cbn [app]. rewrite saves_cons, Hdays. reflexivity. }
  destruct (range_days start_date end_date ≫= day_rows net) as [|q rows].
  { intros [= _ <-]. cbn [app]. rewrite saves_cons, Hdays. reflexivity. }
  destruct (process_wiki_data parse_date (q :: rows)) as [top|y].
  - destruct (calculate_statistics (q :: rows) top) as [stats|y].
    + destruct (savefig OUTPUT_FILENAME); [discriminate|].
      intros [= _ <-]. cbn [app]. rewrite saves_cons, !saves_app, Hdays.
      reflexivity.
    + intros [= _ <-]. cbn [app]. rewrite saves_cons, saves_app, Hdays.
      reflexivity.
  - intros [= _ <-]. cbn [app]. rewrite saves_cons, saves_app, Hdays.
    reflexivity.
Qed.

(** X15. The tag written in the [date] column concatenates the year, the
    month and the day without padding, so two days can share it. When the
    range holds two such days and some article is listed on both, the two
    rows get the same article and the same date whatever [pd.to_datetime]
    makes of the tag: [process_wiki_data] raises on the collected table
    and [main] exits with the status 1 without writing the image. *)
Theorem main_fails_on_shared_tag
  (net : string -> nat -> http_outcome) (now : datetime)
  (parse_date : string -> option Z) (savefig : string -> bool)
  (start_date end_date t1 t2 : datetime) (r1 r2 : row) :
  in_range start_date end_date t1 ->
  in_range start_date end_date t2 ->
  t1 <> t2 ->
  date_tag t1 = date_tag t2 ->
  r1 ∈ day_rows net t1 -> r2 ∈ day_rows net t2 ->
  article r1 = article r2 ->
  (process_wiki_data parse_date
     (range_days start_date end_date ≫= day_rows net) = Raise DateParseError
   \/ process_wiki_data parse_date
        (range_days start_date end_date ≫= day_rows net)
      = Raise DuplicateIndex)
  /\ (main net now parse_date savefig start_date end_date).1 = 1
  /\ saves (main net now parse_date savefig start_date end_date).2 = 0%nat.
Proof.
  intros Ht1 Ht2 Hne Htag Hr1 Hr2 Hart.
  apply elem_of_range_days in Ht1, Ht2.
  destruct (two_days_lookup (day_rows net) _ t1 t2 r1 r2 Ht1 Ht2 Hne Hr1 Hr2)
    as (i & j & Hij & Hi & Hj).
  pose proof (day_rows_date _ _ _ Hr1) as Hd1.
  pose proof (day_rows_date _ _ _ Hr2) as Hd2. rewrite <- Htag in Hd2.
  set (rows := range_days start_date end_date ≫= day_rows net) in *.
  assert (Hraise :
    process_wiki_data parse_date rows = Raise DateParseError
    \/ process_wiki_data parse_date rows = Raise DuplicateIndex).
  { destruct (process_wiki_data_normalized parse_date rows) as [Hr _].
    rewrite !Hr.
    destruct (normalized_cases parse_date rows)
      as [[E _]|[[_ E]|[[E _]|(_ & _ & Hpars & Hdist)]]]; auto.
    - rewrite E in Hi. discriminate.
    - exfalso.
      destruct (Hpars r1) as [d Hp];
        [eapply list_elem_of_lookup_2; exact Hi|].
      apply Hij. apply (Hdist i j r1 r2 d Hi Hj Hart Hp).
      rewrite Hd2, <- Hd1. exact Hp. }
  split; [exact Hraise|].
  assert (Hrun : exists x tr,
            run net now parse_date savefig start_date end_date [] = (Raise x, tr)).
  { rewrite run_eq.
    destruct (gtb start_date end_date); [eexists _, _; reflexivity|].
    destruct (gtb start_date now); [eexists _, _; reflexivity|].
    cbn zeta. fold rows.
    destruct (overflows start_date end_date); [eexists _, _; reflexivity|].
    destruct rows as [|q rows']; [eexists _, _; reflexivity|].
    destruct Hraise as [-> | ->]; eexists _, _; reflexivity. }
  destruct Hrun as (x & tr & Hrun).
  pose proof (run_no_image _ _ _ _ _ _ _ _ Hrun) as Hsaves.
  unfold main. rewrite Hrun. cbn [fst snd].
  split; [reflexivity|]. rewrite saves_app, Hsaves. reflexivity.
Qed.

Lemma main_fails_on_shared_tag_witness :
  (process_wiki_data parse_iso_basic
     (range_days (midnight 2024 1 11) (midnight 2024 11 1)
        ≫= day_rows (fun _ _ => Samples.answer 7)) = Raise DateParseError
   \/ process_wiki_data parse_iso_basic
        (range_days (midnight 2024 1 11) (midnight 2024 11 1)
           ≫= day_rows (fun _ _ => Samples.answer 7)) = Raise DuplicateIndex)
  /\ (main (fun _ _ => Samples.answer 7) Samples.now parse_iso_basic
        (fun _ => true) (midnight 2024 1 11) (midnight 2024 11 1)).1 = 1
  /\ saves (main (fun _ _ => Samples.answer 7) Samples.now parse_iso_basic
              (fun _ => true) (midnight 2024 1 11) (midnight 2024 11 1)).2
     = 0%nat.
Proof.
  apply (main_fails_on_shared_tag (fun _ _ => Samples.answer 7) Samples.now
           parse_iso_basic (fun _ => true)
           (midnight 2024 1 11) (midnight 2024 11 1)
           (midnight 2024 1 11) (midnight 2024 11 1)
           (mk_row "spike" (Some 7) (Some 1) (DateStr "2024111"))
           (mk_row "spike" (Some 7) (Some 1) (DateStr "2024111"))).
  - split; [exists 0%nat; reflexivity|reflexivity].
  - split; [exists 295%nat; rewrite iter_add_day; reflexivity|reflexivity].
  - discriminate.
  - reflexivity.
  - left.
  - left.
  - reflexivity.
Defined.






